(** * Rotten Tomatoes movie data analysis: a shallow embedding

    The development follows the four source files of the project:

    - [module02/movie/rating.py]   the [MovieRating] flyweight and [get_rating];
    - [module02/person/person.py]  the [Person] flyweight and [get_person];
    - [module02/movie/movie.py]    the [Movie] dataclass, its genre subclasses,
                                   the field parsers and the [create_movie] factory;
    - [eval_02.py]                 the menu queries over the loaded collection.

    Conventions of the embedding.

    - A Python [str] is a [string] of ASCII characters.  The methods [strip],
      [upper], [lower], [split] and the built-in [int] are written out for
      that alphabet; text outside ASCII is not covered (a character code
      above 127 is carried along as a symbol without case).
    - [None] is [option]'s [None]; a raised exception is [Raise e]; a function
      that can raise returns a [result].
    - The class-level caches [MovieRating._instances] and [Person._instances]
      are Python dicts used as maps: they are [gmap]s keyed by strings.
    - Instances of the frozen dataclasses carry an object identity [oid]:
      Python's [is] is equality of the whole Rocq record (identity and fields),
      whereas [==] is the class's [__eq__]. *)

From Stdlib Require Import ZArith Ascii Sorting.Sorted.
From stdpp Require Import gmap strings list fin_maps.

Set Warnings "-clear-no-such-hyp".

Local Open Scope Z_scope.

(** ** Exceptions and results *)

Inductive exn : Type :=
| ValueError (msg : string)
| TypeError (msg : string)
| KeyError (key : Z)
| AttributeError (msg : string).

Inductive result (A : Type) : Type :=
| Ok (a : A)
| Raise (e : exn).

Arguments Ok {A} a.
Arguments Raise {A} e.

Definition is_Ok {A} (r : result A) : Prop :=
  match r with Ok _ => True | Raise _ => False end.

(** ** Python strings (ASCII) *)

Module str.

(** [str.isspace] on one ASCII character: TAB, LF, VT, FF, CR, the four
    separators FS, GS, RS, US and the blank. *)
Definition isspace (c : ascii) : bool :=
  let n := nat_of_ascii c in
  ((9 <=? n)%nat && (n <=? 13)%nat) || ((28 <=? n)%nat && (n <=? 32)%nat).

(** Truth value of a string: [not s] holds exactly for the empty one. *)
Definition truthy (s : string) : bool :=
  match s with EmptyString => false | String _ _ => true end.

Fixpoint lstrip (s : string) : string :=
  match s with
  | EmptyString => EmptyString
  | String c s' => if isspace c then lstrip s' else s
  end.

Fixpoint rstrip (s : string) : string :=
  match s with
  | EmptyString => EmptyString
  | String c s' =>
      let r := rstrip s' in
      if isspace c && negb (truthy r) then EmptyString else String c r
  end.

Definition strip (s : string) : string := rstrip (lstrip s).

Definition upper_char (c : ascii) : ascii :=
  let n := nat_of_ascii c in
  if (97 <=? n)%nat && (n <=? 122)%nat then ascii_of_nat (n - 32) else c.

Definition lower_char (c : ascii) : ascii :=
  let n := nat_of_ascii c in
  if (65 <=? n)%nat && (n <=? 90)%nat then ascii_of_nat (n + 32) else c.

Fixpoint upper (s : string) : string :=
  match s with
  | EmptyString => EmptyString
  | String c s' => String (upper_char c) (upper s')
  end.

Fixpoint lower (s : string) : string :=
  match s with
  | EmptyString => EmptyString
  | String c s' => String (lower_char c) (lower s')
  end.

(** [s.split(sep)] for a one-character separator: the pieces between the
    separators, empty pieces included, so the result is never empty. *)
Fixpoint split (sep : ascii) (s : string) : list string :=
  match s with
  | EmptyString => [EmptyString]
  | String c s' =>
      if Ascii.eqb c sep then EmptyString :: split sep s'
      else match split sep s' with
           | p :: ps => String c p :: ps
           | [] => [String c EmptyString]
           end
  end.

Definition digit (c : ascii) : option Z :=
  let n := nat_of_ascii c in
  if (48 <=? n)%nat && (n <=? 57)%nat then Some (Z.of_nat (n - 48)) else None.

Fixpoint count_digits (s : string) : nat :=
  match s with
  | EmptyString => 0
  | String c s' => (if digit c is Some _ then 1 else 0) + count_digits s'
  end%nat.

(** The digits of a decimal literal, [acc] holding the value read so far.
    A single underscore may separate two digits; [prev] tells whether the
    character just read was a digit. *)
Fixpoint digits (prev : bool) (acc : Z) (s : string) : option Z :=
  match s with
  | EmptyString => if prev then Some acc else None
  | String c s' =>
      match digit c with
      | Some d => digits true (10 * acc + d) s'
      | None =>
          if Ascii.eqb c "_"%char && prev then digits false acc s' else None
      end
  end.

(** [sys.int_info.default_max_str_digits]: CPython refuses, with a
    [ValueError], a decimal literal of more digits. *)
Definition int_max_str_digits : nat := 4300.

(** The value of a literal: surrounding whitespace, an optional sign, then
    digits; [None] when the text is no literal or is too long. *)
Definition int_value (s : string) : option Z :=
  let body (t : string) :=
    if (int_max_str_digits <? count_digits t)%nat then None
    else digits false 0 t in
  match strip s with
  | String "+" t => body t
  | String "-" t => Z.opp <$> body t
  | t => body t
  end.

(** The built-in [int(s)] in base ten. *)
Definition int (s : string) : result Z :=
  match int_value s with
  | Some n => Ok n
  | None =>
      Raise (ValueError ("invalid literal for int() with base 10: '" +:+ s +:+ "'"))
  end.

(** [sep.join(parts)]. *)
Fixpoint join (sep : string) (parts : list string) : string :=
  match parts with
  | [] => EmptyString
  | [p] => p
  | p :: rest => p +:+ sep +:+ join sep rest
  end.

(** [c in s] for a character [c]. *)
Fixpoint contains (c : ascii) (s : string) : bool :=
  match s with
  | EmptyString => false
  | String c' s' => Ascii.eqb c' c || contains c s'
  end.

End str.

(** ** Computations that raise, with and without class-level state *)

Definition bind_result {A B} (r : result A) (k : A -> result B) : result B :=
  match r with Ok a => k a | Raise e => Raise e end.

Notation "x <-- r ;; k" := (bind_result r (fun x => k))
  (at level 20, r at level 99, k at level 200, only parsing).

(** A statement sequence over a mutable store [S]: the store it leaves is
    returned also when an exception is raised, since Python undoes nothing. *)
Definition M (S A : Type) : Type := S -> result A * S.

Definition ret {S A} (a : A) : M S A := fun s => (Ok a, s).
Definition raise {S A} (e : exn) : M S A := fun s => (Raise e, s).
Definition bind {S A B} (c : M S A) (k : A -> M S B) : M S B :=
  fun s => match c s with
           | (Ok a, s') => k a s'
           | (Raise e, s') => (Raise e, s')
           end.
Definition gets {S A} (f : S -> A) : M S A := fun s => (Ok (f s), s).
Definition modify {S} (f : S -> S) : M S unit := fun s => (Ok tt, f s).

Notation "x <- c ;; k" := (bind c (fun x => k))
  (at level 20, c at level 99, k at level 200, only parsing).

(** A list comprehension or [for] loop whose body may raise: elements are
    visited in order and the first exception ends the loop. *)
Fixpoint mapM {S A B} (f : A -> M S B) (l : list A) : M S (list B) :=
  match l with
  | [] => ret []
  | a :: l' => b <- f a ;; bs <- mapM f l' ;; ret (b :: bs)
  end.

(** [list.index]: position of the first occurrence, [None] for the
    [ValueError] raised when there is none. *)
Fixpoint list_index (x : string) (l : list string) : option nat :=
  match l with
  | [] => None
  | y :: l' => if decide (x = y) then Some O else S <$> list_index x l'
  end.

(** ** rating.py *)

Module MovieRating.

Record t : Type := mk { oid : nat; code : string; description : string }.

(** The class variables that change: the cache, and the number of objects
    the class has allocated (the next object identity). *)
Record class_state : Type :=
  mk_state { _instances : gmap string t; allocated : nat }.

Definition empty : class_state := mk_state ∅ O.

Definition _order : list string := ["NR"; "G"; "PG"; "PG-13"; "R"; "NC17"].

Definition __post_init__ (self : t) : M class_state unit :=
  if negb (str.truthy (code self)) then
    raise (ValueError "rating code can not be empty")
  else if negb (str.truthy (description self)) then
    raise (ValueError "rating description can not be empty")
  else
    let normalized := str.upper (code self) in
    if negb (bool_decide (normalized ∈ _order)) then
      raise (ValueError ("unknown rating code: " +:+ normalized))
    else
      inst <- gets _instances ;;
      if bool_decide (is_Some (inst !! normalized)) then
        raise (ValueError ("Rating '" +:+ normalized +:+
                           "' already exists. Use get_rating() instead."))
      else
        modify (fun st => mk_state (<[normalized := self]> (_instances st))
                                   (allocated st)).

(** [MovieRating(code=..., description=...)]: a fresh object, then
    [__post_init__]; when that raises the object is dropped. *)
Definition new (code description : string) : M class_state t :=
  n <- gets allocated ;;
  _ <- modify (fun st => mk_state (_instances st) (S (allocated st))) ;;
  let self := mk n code description in
  _ <- __post_init__ self ;;
  ret self.

Definition _sort_index (self : t) : result nat :=
  match list_index (str.upper (code self)) _order with
  | Some i => Ok i
  | None =>
      Raise (ValueError ("'" +:+ str.upper (code self) +:+ "' is not in list"))
  end.

Definition __lt__ (self other : t) : result bool :=
  i <-- _sort_index self ;;
  j <-- _sort_index other ;;
  Ok (i <? j)%nat.

(** The class defines no [__gt__]: Python evaluates [self > other] through
    the reflected [other.__lt__(self)]. *)
Definition gt (self other : t) : result bool := __lt__ other self.

Definition __eq__ (self other : t) : bool :=
  bool_decide (str.upper (code self) = str.upper (code other)).

End MovieRating.

Definition descriptions : list (string * string) :=
  [ ("NR", "Not rated");
    ("G", "All ages");
    ("PG", "Parental guidance advised");
    ("PG-13", "Parental guidance strongly advised");
    ("R", "Under 17, parental guidance advised");
    ("NC17", "For adults only") ].

Definition _create_predefined_ratings : M MovieRating.class_state unit :=
  _ <- mapM (fun '(code, desc) =>
               inst <- gets MovieRating._instances ;;
               if bool_decide (is_Some (inst !! code)) then ret tt
               else _ <- MovieRating.new code desc ;; ret tt)
            descriptions ;;
  ret tt.

(** The state of the class once the module has been imported: the last
    statement of rating.py runs [_create_predefined_ratings]. *)
Definition rating_import : result unit * MovieRating.class_state :=
  _create_predefined_ratings MovieRating.empty.

Definition get_rating (st : MovieRating.class_state) (code : option string)
  : result MovieRating.t :=
  match code with
  | None => Raise (ValueError "rating code cannot be None")
  | Some code =>
      let normalized := str.upper (str.strip code) in
      match MovieRating._instances st !! normalized with
      | None => Raise (ValueError ("Unknown rating code: " +:+ normalized))
      | Some r => Ok r
      end
  end.

(** ** person.py *)

Module Person.

Record t : Type := mk { oid : nat; fullname : string }.

Record class_state : Type :=
  mk_state { _instances : gmap string t; allocated : nat }.

Definition empty : class_state := mk_state ∅ O.

Definition __post_init__ (self : t) : M class_state unit :=
  if negb (str.truthy (fullname self)) then
    raise (ValueError "fullname can not be empty")
  else
    let key := str.lower (str.strip (fullname self)) in
    inst <- gets _instances ;;
    if bool_decide (is_Some (inst !! key)) then
      raise (ValueError ("Person '" +:+ fullname self +:+
                         "' already exists. Use get_person() instead."))
    else
      modify (fun st => mk_state (<[key := self]> (_instances st))
                                 (allocated st)).

(** [Person(fullname=...)]: a fresh object, then [__post_init__]. *)
Definition new (fullname : string) : M class_state t :=
  n <- gets allocated ;;
  _ <- modify (fun st => mk_state (_instances st) (S (allocated st))) ;;
  let self := mk n fullname in
  _ <- __post_init__ self ;;
  ret self.

Definition __eq__ (self other : t) : bool :=
  bool_decide (str.lower (fullname self) = str.lower (fullname other)).

End Person.

Definition get_person (fullname : option string) : M Person.class_state Person.t :=
  match fullname with
  | None => raise (ValueError "fullname can not be None")
  | Some fullname =>
      let cleaned := str.strip fullname in
      if negb (str.truthy cleaned) then
        raise (ValueError "fullname can not be empty")
      else
        let key := str.lower cleaned in
        inst <- gets Person._instances ;;
        match inst !! key with
        | Some p => ret p
        | None => Person.new cleaned
        end
  end.

Definition get_person_count (st : Person.class_state) : nat :=
  size (Person._instances st).

(** ** Calendar dates, as far as movie.py uses them *)

Module date.

Record t : Type := mk { year : Z; month : Z; day : Z }.

Definition is_leap (y : Z) : bool :=
  ((y mod 4 =? 0) && negb (y mod 100 =? 0)) || (y mod 400 =? 0).

Definition days_in_month (y m : Z) : Z :=
  if m =? 2 then (if is_leap y then 29 else 28)
  else if (m =? 4) || (m =? 6) || (m =? 9) || (m =? 11) then 30
  else 31.

Definition parse (s : string) : option t :=
  match s with
  | String y1 (String y2 (String y3 (String y4 (String "-"
      (String m1 (String m2 (String "-"
        (String d1 (String d2 EmptyString))))))))) =>
      y1 ← str.digit y1; y2 ← str.digit y2;
      y3 ← str.digit y3; y4 ← str.digit y4;
      m1 ← str.digit m1; m2 ← str.digit m2;
      d1 ← str.digit d1; d2 ← str.digit d2;
      let y := 1000 * y1 + 100 * y2 + 10 * y3 + y4 in
      let m := 10 * m1 + m2 in
      let d := 10 * d1 + d2 in
      if (1 <=? y) && (1 <=? m) && (m <=? 12) && (1 <=? d)
         && (d <=? days_in_month y m)
      then Some (mk y m d) else None
  | _ => None
  end.

(** [date.fromisoformat] on the format the project documents,
    [YYYY-MM-DD]; any other text raises [ValueError].  (Recent interpreters
    read further ISO 8601 spellings as well; for every text the call returns
    a date or raises [ValueError], and the properties below use no more.) *)
Definition fromisoformat (s : string) : result t :=
  match parse s with
  | Some d => Ok d
  | None => Raise (ValueError ("Invalid isoformat string: '" +:+ s +:+ "'"))
  end.

Definition digit_char (d : Z) : ascii := ascii_of_nat (48 + Z.to_nat d).

(** [d.isoformat()]: [YYYY-MM-DD], zero-padded. *)
Definition isoformat (d : t) : string :=
  let y := year d in
  let m := month d in
  let dd := day d in
  String (digit_char (y / 1000 mod 10)) (String (digit_char (y / 100 mod 10))
  (String (digit_char (y / 10 mod 10)) (String (digit_char (y mod 10))
  (String "-" (String (digit_char (m / 10 mod 10)) (String (digit_char (m mod 10))
  (String "-" (String (digit_char (dd / 10 mod 10))
  (String (digit_char (dd mod 10)) EmptyString))))))))).

End date.

(** ** movie.py *)

(** The seven subclasses of [Movie]; a record's [__class__] is its genre. *)
Inductive genre_class : Type :=
| ActionAdventure | Comedy | Drama | Horror | Romance
| ScienceFictionFantasy | Western.

Global Instance genre_class_eq_dec : EqDecision genre_class.
Proof. solve_decision. Defined.

Definition __name__ (c : genre_class) : string :=
  match c with
  | ActionAdventure => "ActionAdventure"
  | Comedy => "Comedy"
  | Drama => "Drama"
  | Horror => "Horror"
  | Romance => "Romance"
  | ScienceFictionFantasy => "ScienceFictionFantasy"
  | Western => "Western"
  end.

(** The class state of [MovieRating] that movie.py sees: rating.py has been
    imported, and no later construction can change the cache (lemma
    [MovieRating_new_after_import] below). *)
Definition ratings : MovieRating.class_state := rating_import.2.

Module Movie.

(** The slots of the dataclass, with the values [__init__] can store in
    them: [rating] and [length] may be [None] until [__post_init__] has
    run. *)
Record t : Type := mk {
  __class__ : genre_class;
  rt_link : string;
  title : string;
  rating : option MovieRating.t;
  directors : list Person.t;
  release_date : option date.t;
  streaming_date : option date.t;
  length : option Z;
  company : option string;
  score : option Z;
  count : option Z
}.

Definition set_length (self : t) (n : Z) : t :=
  mk (__class__ self) (rt_link self) (title self) (rating self)
     (directors self) (release_date self) (streaming_date self)
     (Some n) (company self) (score self) (count self).

(** Raises, or returns [self] as the method leaves it. *)
Definition __post_init__ (self : t) : result t :=
  if negb (str.truthy (rt_link self)) then
    Raise (ValueError "rt_link must not be empty")
  else if negb (str.truthy (title self)) then
    Raise (ValueError "title must not be empty")
  else if negb (bool_decide (is_Some (rating self))) then
    Raise (ValueError "rating must not be None")
  else
    match length self with
    | None => Ok (set_length self 0)
    | Some n => if n <? 0 then Ok (set_length self 0) else Ok self
    end.

(** [cls(rt_link=..., ...)]: the generated [__init__] fills the slots and
    calls [__post_init__]. *)
Definition new (cls : genre_class) (rt_link title : string)
    (rating : option MovieRating.t) (directors : list Person.t)
    (release_date streaming_date : option date.t) (length : option Z)
    (company : option string) (score count : option Z) : result t :=
  __post_init__ (mk cls rt_link title rating directors release_date
                    streaming_date length company score count).

Definition relevant_score (self : t) : bool * Z :=
  match score self, count self with
  | Some s, Some c => if c <? 100 then (false, 0) else (true, s)
  | _, _ => (false, 0)
  end.

(** [today_year] is [date.today().year]. *)
Definition is_classic (today_year : Z) (self : t) : bool :=
  match release_date self with
  | None => false
  | Some d =>
      let age := today_year - date.year d in
      if age <? 20 then false
      else let '(is_relevant, score) := relevant_score self in
           is_relevant && (score >=? 80)
  end.

Definition is_short (self : t) : result bool :=
  match length self with
  | Some n => Ok (n <? 30)
  | None => Raise (TypeError "'<' not supported between instances of 'NoneType' and 'int'")
  end.

Definition url (self : t) : string :=
  "https://www.rottentomatoes.com/" +:+ rt_link self.

End Movie.

(** A method of one subclass, called on a record of another class. *)
Definition no_attribute {A} (self : Movie.t) (name : string) : result A :=
  Raise (AttributeError ("'" +:+ __name__ (Movie.__class__ self) +:+
                         "' object has no attribute '" +:+ name +:+ "'")).

Module Comedy.
Definition is_slapstick (self : Movie.t) : result bool :=
  if decide (Movie.__class__ self = Comedy) then
    let '(is_relevant, score) := Movie.relevant_score self in
    Ok (is_relevant && (score <? 40))
  else no_attribute self "is_slapstick".
End Comedy.

Module Horror.
Definition is_scary (self : Movie.t) : result bool :=
  if decide (Movie.__class__ self = Horror) then
    pg <-- get_rating ratings (Some "PG") ;;
    match Movie.rating self with
    | Some r => MovieRating.gt r pg
    | None =>
        Raise (TypeError "'>' not supported between instances of 'NoneType' and 'MovieRating'")
    end
  else no_attribute self "is_scary".
End Horror.

Module Romance.
Definition is_cosy (self : Movie.t) : result bool :=
  if decide (Movie.__class__ self = Romance) then
    match Movie.length self with
    | Some n => Ok ((70 <=? n) && (n <=? 100))
    | None => Raise (TypeError "'<=' not supported between instances of 'int' and 'NoneType'")
    end
  else no_attribute self "is_cosy".
End Romance.

Definition _GENRE_TO_CLASS : gmap string genre_class :=
  list_to_map
    [ ("ACTION & ADVENTURE", ActionAdventure);
      ("COMEDY", Comedy);
      ("DRAMA", Drama);
      ("HORROR", Horror);
      ("ROMANCE", Romance);
      ("SCIENCE FICTION & FANTASY", ScienceFictionFantasy);
      ("WESTERN", Western) ].

(** [try: return f(value) except ValueError: return None]: any other
    exception passes through. *)
Definition except_ValueError {A} (r : result A) : result (option A) :=
  match r with
  | Ok a => Ok (Some a)
  | Raise (ValueError _) => Ok None
  | Raise e => Raise e
  end.

Definition _parse_int (value : option string) : result (option Z) :=
  match value with
  | None => Ok None
  | Some value =>
      let value := str.strip value in
      if negb (str.truthy value) then Ok None
      else except_ValueError (str.int value)
  end.

Definition _parse_date (value : option string) : result (option date.t) :=
  match value with
  | None => Ok None
  | Some value =>
      let value := str.strip value in
      if negb (str.truthy value) then Ok None
      else except_ValueError (date.fromisoformat value)
  end.

Definition _parse_directors (value : option string)
  : M Person.class_state (list Person.t) :=
  match value with
  | None => ret []
  | Some value =>
      let text := str.strip value in
      if negb (str.truthy text) then ret []
      else
        let parts := str.strip <$> str.split "," text in
        mapM (fun name => get_person (Some name))
             (filter (fun name => str.truthy name = true) parts)
  end.

(** A row of [csv.DictReader]: a column maps to its text, or to [None]
    when the line was too short to have it. *)
Abbreviation row := (gmap string (option string)).

(** [info.get(key)] and [info.get(key, default)]. *)
Definition dict_get (info : row) (key : string) : option string :=
  match info !! key with Some v => v | None => None end.

Definition dict_get_default (info : row) (key default : string)
  : option string :=
  match info !! key with Some v => v | None => Some default end.

(** [value or ""] on an optional string. *)
Definition or_empty (value : option string) : string :=
  match value with Some s => s | None => "" end.

Definition lift {S A} (r : result A) : M S A := fun s => (r, s).

Definition create_movie (info : row) : M Person.class_state Movie.t :=
  let rt_link := str.strip (or_empty (dict_get info "rotten_tomatoes_link")) in
  let title := str.strip (or_empty (dict_get info "movie_title")) in
  let rating_code := str.strip (or_empty (dict_get info "content_rating")) in
  let genre_text := str.strip (or_empty (dict_get info "genre")) in
  if negb (str.truthy rt_link) then
    raise (ValueError "missing rotten_tomatoes_link")
  else if negb (str.truthy title) then
    raise (ValueError "missing movie_title")
  else if negb (str.truthy rating_code) then
    raise (ValueError "missing content_rating")
  else if negb (str.truthy genre_text) then
    raise (ValueError "missing genre")
  else
    rating <- lift (get_rating ratings (Some rating_code)) ;;
    directors <- _parse_directors (dict_get_default info "directors" "") ;;
    release_date <-
      lift (_parse_date (dict_get_default info "original_release_date" "")) ;;
    streaming_date <-
      lift (_parse_date (dict_get_default info "streaming_release_date" "")) ;;
    runtime <- lift (_parse_int (dict_get_default info "runtime" "")) ;;
    let length := match runtime with Some n => n | None => 0 end in
    let company :=
      let c := str.strip (or_empty (dict_get info "production_company")) in
      if str.truthy c then Some c else None in
    score <- lift (_parse_int (dict_get_default info "audience_rating" "")) ;;
    count <- lift (_parse_int (dict_get_default info "audience_count" "")) ;;
    let genre_upper := str.upper genre_text in
    match _GENRE_TO_CLASS !! genre_upper with
    | None => raise (ValueError ("unknown genre: " +:+ genre_text))
    | Some cls =>
        lift (Movie.new cls rt_link title (Some rating) directors release_date
                streaming_date (Some length) company score count)
    end.

(** ** eval_02.py *)

(** The loop of [load_movies] over the rows the reader yields: a row whose
    construction raises [ValueError] is counted and skipped; any other
    exception leaves the loop, for the outer handler. *)
Fixpoint load_rows (rows : list row) (movies : list Movie.t) (errors : nat)
  : M Person.class_state (list Movie.t * nat) :=
  match rows with
  | [] => ret (movies, errors)
  | r :: rows' =>
      fun st =>
        match create_movie r st with
        | (Ok movie, st') => load_rows rows' (movies ++ [movie]) errors st'
        | (Raise (ValueError _), st') => load_rows rows' movies (S errors) st'
        | (Raise e, st') => (Raise e, st')
        end
  end.

(** [load_movies] once the file is open: the list of movies, or [None] when
    the outer handler caught an exception. *)
Definition load_movies (rows : list row) (st : Person.class_state)
  : option (list Movie.t) * Person.class_state :=
  match load_rows rows [] O st with
  | (Ok (movies, _), st') => (Some movies, st')
  | (Raise _, st') => (None, st')
  end.

(** What menu option 4 prints. *)
Inductive highest_report : Type :=
| NoRelevantScore
| Highest (max_score : Z) (titles : list string).

Definition highest_step (acc : Z * list Movie.t) (movie : Movie.t)
  : Z * list Movie.t :=
  let '(max_score, best_movies) := acc in
  let '(is_relevant, score_value) := Movie.relevant_score movie in
  if negb is_relevant then acc
  else if score_value >? max_score then (score_value, [movie])
  else if score_value =? max_score then (max_score, best_movies ++ [movie])
  else acc.

Definition menu_print_highest_score_movies (movies : list Movie.t)
  : highest_report :=
  let '(max_score, best_movies) := fold_left highest_step movies (-1, []) in
  match best_movies with
  | [] => NoRelevantScore
  | _ => Highest max_score (Movie.title <$> best_movies)
  end.

(** [range(0, 101)]. *)
Definition range_0_101 : list Z := seqZ 0 101.

Definition score_counts_init : gmap Z Z :=
  list_to_map ((fun i => (i, 0)) <$> range_0_101).

(** [score_counts[key]], raising [KeyError] for a missing key. *)
Definition getitem (score_counts : gmap Z Z) (key : Z) : result Z :=
  match score_counts !! key with
  | Some c => Ok c
  | None => Raise (KeyError key)
  end.

Definition score_list_step (score_counts : gmap Z Z) (movie : Movie.t)
  : result (gmap Z Z) :=
  match Movie.score movie with
  | Some s =>
      if (0 <=? s) && (s <=? 100) then
        c <-- getitem score_counts s ;;
        Ok (<[s := c + 1]> score_counts)
      else Ok score_counts
  | None => Ok score_counts
  end.

Fixpoint fold_result {A B} (f : B -> A -> result B) (l : list A) (b : B)
  : result B :=
  match l with
  | [] => Ok b
  | a :: l' => b' <-- f b a ;; fold_result f l' b'
  end.

Fixpoint map_result {A B} (f : A -> result B) (l : list A) : result (list B) :=
  match l with
  | [] => Ok []
  | a :: l' => b <-- f a ;; bs <-- map_result f l' ;; Ok (b :: bs)
  end.

(** Menu option 8: the lines printed, one [(score_value, count)] each. *)
Definition menu_print_score_list (movies : list Movie.t)
  : result (list (Z * Z)) :=
  score_counts <-- fold_result score_list_step movies score_counts_init ;;
  map_result (fun score_value =>
                count <-- getitem score_counts score_value ;;
                Ok (score_value, count))
             range_0_101.

(** [list.sort(key=lambda m: m.title)]: the sort is stable and compares the
    keys as strings; written as a stable insertion sort. *)
Fixpoint insert_by_title (m : Movie.t) (l : list Movie.t) : list Movie.t :=
  match l with
  | [] => [m]
  | x :: l' =>
      if bool_decide (String.le (Movie.title m) (Movie.title x))
      then m :: x :: l'
      else x :: insert_by_title m l'
  end.

Fixpoint sort_by_title (l : list Movie.t) : list Movie.t :=
  match l with
  | [] => []
  | m :: l' => insert_by_title m (sort_by_title l')
  end.

(** What menu option 9 does: nothing but a message, or an export of the rows
    of these movies, in this order. *)
Inductive export_report : Type :=
| NothingToExport
| Export (movies_without_relevant : list Movie.t).

Definition menu_export_movies_without_relevant_score (movies : list Movie.t)
  : export_report :=
  let movies_without_relevant :=
    filter (fun movie => (Movie.relevant_score movie).1 = false) movies in
  match movies_without_relevant with
  | [] => NothingToExport
  | _ => Export (sort_by_title movies_without_relevant)
  end.

(** ** Python dicts and [sorted] *)

(** A dict keeps its keys in insertion order; a key is found by the
    equality [eqb] of the stored key with the one looked for, and assigning
    to a key that is there replaces the value and keeps the stored key. *)
Module odict.

Fixpoint get {K V} (eqb : K -> K -> bool) (d : list (K * V)) (key : K)
  : option V :=
  match d with
  | [] => None
  | (k, v) :: d' => if eqb k key then Some v else get eqb d' key
  end.

Fixpoint set {K V} (eqb : K -> K -> bool) (d : list (K * V)) (key : K)
    (value : V) : list (K * V) :=
  match d with
  | [] => [(key, value)]
  | (k, v) :: d' =>
      if eqb k key then (k, value) :: d' else (k, v) :: set eqb d' key value
  end.

End odict.

(** [sorted(l)] where [lt] is [<] on the sort keys: the sort is stable, so
    an element goes before the first one whose key is not below its own. *)
Fixpoint insort {A} (lt : A -> A -> bool) (x : A) (l : list A) : list A :=
  match l with
  | [] => [x]
  | y :: l' => if lt y x then y :: insort lt x l' else x :: y :: l'
  end.

Fixpoint sorted {A} (lt : A -> A -> bool) (l : list A) : list A :=
  match l with
  | [] => []
  | x :: l' => insort lt x (sorted lt l')
  end.

(** ** eval_02.py: the other menu options *)

Definition menu_print_movie_count (movies : list Movie.t) : nat :=
  length movies.

(** The counting loop of menu option 2. *)
Definition genre_counts (movies : list Movie.t) : list (string * Z) :=
  fold_left
    (fun counts movie =>
       let genre_name := __name__ (Movie.__class__ movie) in
       odict.set String.eqb counts genre_name
         (default 0 (odict.get String.eqb counts genre_name) + 1))
    movies [].

(** [(-a[1], a[0]) < (-b[1], b[0])], as Python compares tuples. *)
Definition genre_key_lt (a b : string * Z) : bool :=
  if - a.2 =? - b.2 then String.ltb a.1 b.1 else - a.2 <? - b.2.

(** Menu option 2: the lines printed, one [(genre_name, count)] each. *)
Definition menu_print_genre_counts (movies : list Movie.t)
  : list (string * Z) :=
  sorted genre_key_lt (genre_counts movies).

Definition menu_print_person_count (st : Person.class_state) : nat :=
  get_person_count st.

(** The counting loops of menu option 5; the dict is keyed by [Person],
    whose [__hash__] and [__eq__] both go by the lowercased name. *)
Definition count_director (director_counts : list (Person.t * Z))
    (director : Person.t) : list (Person.t * Z) :=
  odict.set Person.__eq__ director_counts director
    (default 0 (odict.get Person.__eq__ director_counts director) + 1).

Definition director_counts (movies : list Movie.t) : list (Person.t * Z) :=
  fold_left
    (fun counts movie => fold_left count_director (Movie.directors movie) counts)
    movies [].




(** [a < b] and [a > b] on lengths, which are integers or [None]. *)
Definition length_lt (a b : option Z) : result bool :=
  match a, b with
  | Some x, Some y => Ok (x <? y)
  | _, _ => Raise (TypeError "'<' not supported between instances of 'NoneType' and 'int'")
  end.

Definition length_gt (a b : option Z) : result bool :=
  match a, b with
  | Some x, Some y => Ok (x >? y)
  | _, _ => Raise (TypeError "'>' not supported between instances of 'NoneType' and 'int'")
  end.

(** [min] and [max] of a generator that is not empty: the first item, then
    each later item compared with the current extreme. *)
Fixpoint extreme (better : option Z -> option Z -> result bool)
    (current : option Z) (items : list (option Z)) : result (option Z) :=
  match items with
  | [] => Ok current
  | item :: items' =>
      b <-- better item current ;;
      extreme better (if b then item else current) items'
  end.

(** What menu option 6 prints. *)
Inductive length_report : Type :=
| NoMovies
| Extremes (min_length : option Z) (shortest : list string)
           (max_length : option Z) (longest : list string).

Definition menu_print_shortest_and_longest (movies : list Movie.t)
  : result length_report :=
  match movies with
  | [] => Ok NoMovies
  | first :: rest =>
      min_length <-- extreme length_lt (Movie.length first)
                       (Movie.length <$> rest) ;;
      max_length <-- extreme length_gt (Movie.length first)
                       (Movie.length <$> rest) ;;
      let shortest :=
        filter (fun movie => Movie.length movie = min_length) movies in
      let longest :=
        filter (fun movie => Movie.length movie = max_length) movies in
      Ok (Extremes min_length (Movie.title <$> shortest)
                   max_length (Movie.title <$> longest))
  end.

(** The filter loop of menu option 7: [isinstance(movie, Horror) and
    movie.is_scary()], record by record. *)
Fixpoint scary_movies (movies : list Movie.t) : result (list Movie.t) :=
  match movies with
  | [] => Ok []
  | movie :: movies' =>
      scary <-- (if decide (Movie.__class__ movie = Horror)
                 then Horror.is_scary movie else Ok false) ;;
      rest <-- scary_movies movies' ;;
      Ok (if scary then movie :: rest else rest)
  end.

(** [movie.rating.code]. *)
Definition rating_code (movie : Movie.t) : result string :=
  match Movie.rating movie with
  | Some r => Ok (MovieRating.code r)
  | None => Raise (AttributeError "'NoneType' object has no attribute 'code'")
  end.

(** What menu option 7 prints. *)
Inductive scary_report : Type :=
| NoScaryHorror
| ScaryHorror (lines : list (string * string)).

Definition menu_print_scary_horror (movies : list Movie.t)
  : result scary_report :=
  scary <-- scary_movies movies ;;
  match scary with
  | [] => Ok NoScaryHorror
  | _ =>
      lines <-- map_result
                  (fun movie => code <-- rating_code movie ;;
                                Ok (Movie.title movie, code))
                  scary ;;
      Ok (ScaryHorror lines)
  end.

(** A value of the row dict menu option 9 hands to the writer. *)
Inductive cell : Type :=
| CStr (s : string)
| CInt (n : Z)
| CNone.

Definition fieldnames : list string :=
  [ "rotten_tomatoes_link"; "movie_title"; "content_rating"; "genre";
    "directors"; "original_release_date"; "streaming_release_date";
    "runtime"; "production_company"; "audience_rating"; "audience_count" ].

Definition directors_text (movie : Movie.t) : string :=
  str.join ", " (Person.fullname <$> Movie.directors movie).

(** The row dict built for one movie, in the order of its keys. *)
Definition export_row (movie : Movie.t) : result (list (string * cell)) :=
  code <-- rating_code movie ;;
  Ok [ ("rotten_tomatoes_link", CStr (Movie.rt_link movie));
       ("movie_title", CStr (Movie.title movie));
       ("content_rating", CStr code);
       ("genre", CStr (__name__ (Movie.__class__ movie)));
       ("directors", CStr (directors_text movie));
       ("original_release_date",
        CStr (match Movie.release_date movie with
              | Some d => date.isoformat d
              | None => ""
              end));
       ("streaming_release_date",
        CStr (match Movie.streaming_date movie with
              | Some d => date.isoformat d
              | None => ""
              end));
       ("runtime",
        match Movie.length movie with Some n => CInt n | None => CNone end);
       ("production_company",
        CStr (match Movie.company movie with
              | Some c => if str.truthy c then c else ""
              | None => ""
              end));
       ("audience_rating",
        match Movie.score movie with Some n => CInt n | None => CStr "" end);
       ("audience_count",
        match Movie.count movie with Some n => CInt n | None => CStr "" end) ].

(** The rows menu option 9 writes below the header, in order; an exception
    while a row is built ends the export. *)
Definition export_rows (movies : list Movie.t)
  : result (list (list (string * cell))) :=
  match menu_export_movies_without_relevant_score movies with
  | NothingToExport => Ok []
  | Export movies_without_relevant =>
      map_result export_row movies_without_relevant
  end.

(** What [get_menu_choice] does with the lines the user types: [inputs] are
    the lines still to come.  When they run out, [input()] raises
    [EOFError], which the function does not catch. *)
Inductive menu_choice : Type :=
| Chosen (choice : Z) (rest : list string)
| EndOfInput.

Fixpoint get_menu_choice (inputs : list string) : result menu_choice :=
  match inputs with
  | [] => Ok EndOfInput
  | line :: rest =>
      let choice_text := str.strip line in
      parsed <-- except_ValueError (str.int choice_text) ;;
      match parsed with
      | None => get_menu_choice rest
      | Some choice =>
          if (1 <=? choice) && (choice <=? 10) then Ok (Chosen choice rest)
          else get_menu_choice rest
      end
  end.

(** ** Sample rows *)

Definition row_inception : row :=
  list_to_map
    [ ("rotten_tomatoes_link", Some "m/inception");
      ("movie_title", Some " Inception ");
      ("content_rating", Some "pg-13");
      ("genre", Some "Drama");
      ("directors", Some "Matt Groening, Hugo Claus, , MATT GROENING");
      ("original_release_date", Some "2010-07-16");
      ("streaming_release_date", Some "soon");
      ("runtime", Some "148");
      ("production_company", None);
      ("audience_rating", Some "85");
      ("audience_count", Some "150") ].

(** The same row with 50 votes, and with no [audience_rating] column. *)
Definition row_few_votes : row :=
  <["audience_count" := Some "50"]> row_inception.

Definition row_no_score : row := delete "audience_rating" row_inception.

(** A Horror row, and the record [create_movie] builds from it. *)
Definition row_alien : row :=
  list_to_map
    [ ("rotten_tomatoes_link", Some "m/alien");
      ("movie_title", Some "Alien");
      ("content_rating", Some "R");
      ("genre", Some "horror");
      ("directors", Some "Ridley Scott");
      ("runtime", Some "117");
      ("audience_rating", Some "94");
      ("audience_count", Some "457186") ].

Definition movie_alien : Movie.t :=
  Movie.mk Horror "m/alien" "Alien"
    (Some (MovieRating.mk 4 "R" "Under 17, parental guidance advised"))
    [Person.mk 0 "Ridley Scott"] None None (Some 117) None
    (Some 94) (Some 457186).

(** Every optional column malformed or blank. *)
Definition row_malformed : row :=
  list_to_map
    [ ("rotten_tomatoes_link", Some "m/solaris");
      ("movie_title", Some "Solaris");
      ("content_rating", Some " nr ");
      ("genre", Some "science fiction & fantasy");
      ("directors", Some " , ,, ");
      ("original_release_date", Some "1972-02-30");
      ("streaming_release_date", Some "yesterday");
      ("runtime", Some "-1_6_7 min");
      ("production_company", Some "   ");
      ("audience_rating", Some "8x5");
      ("audience_count", Some "1__0") ].

(** A row whose genre is not in [_GENRE_TO_CLASS]. *)
Definition row_unknown_genre : row :=
  list_to_map
    [ ("rotten_tomatoes_link", Some "m/nosferatu");
      ("movie_title", Some "Nosferatu");
      ("content_rating", Some "NR");
      ("genre", Some "HORROR-ish");
      ("directors", Some "F. W. Murnau, Robert Eggers") ].

(** A row whose audience score is negative, with 150 votes. *)
Definition row_negative_score : row :=
  list_to_map
    [ ("rotten_tomatoes_link", Some "m/the_room");
      ("movie_title", Some "The Room");
      ("content_rating", Some "R");
      ("genre", Some "Drama");
      ("directors", Some "Tommy Wiseau");
      ("audience_rating", Some "-5");
      ("audience_count", Some "150") ].

(** ** Words of the specification *)

(** A record's score is present and lies between 0 and 100. *)
Definition score_in_range (m : Movie.t) : bool :=
  match Movie.score m with
  | Some s => (0 <=? s) && (s <=? 100)
  | None => false
  end.

(** The number of records of a collection whose score is [s]. *)
Definition count_score (s : Z) (movies : list Movie.t) : Z :=
  Z.of_nat (length (filter (fun m => Movie.score m = Some s) movies)).

(** ** The invariant of a constructed record *)

Definition movie_invariant (m : Movie.t) : Prop :=
  Movie.rt_link m <> "" /\
  Movie.title m <> "" /\
  is_Some (Movie.rating m) /\
  exists n, Movie.length m = Some n /\ 0 <= n.

(** ** Invariants of the two caches *)

(** Every key of the person cache is the normalized name of the person
    stored under it. *)
Definition person_keys_ok (st : Person.class_state) : Prop :=
  forall k p,
    Person._instances st !! k = Some p ->
    k = str.lower (str.strip (Person.fullname p)).

(** Every key of the rating cache is the uppercased code of the rating
    stored under it, and is one of the six codes. *)
Definition rating_keys_ok (st : MovieRating.class_state) : Prop :=
  forall k r,
    MovieRating._instances st !! k = Some r ->
    k = str.upper (MovieRating.code r) /\ k ∈ MovieRating._order.

(** A name as [_parse_directors] hands it to [get_person]: not empty,
    trimmed, and without a comma. *)
Definition clean_name (n : string) : Prop :=
  n <> "" /\ str.strip n = n /\ str.contains "," n = false.

(** A registry all of whose persons carry such a name, each stored under the
    lowercased name. *)
Definition registry_clean (st : Person.class_state) : Prop :=
  forall k p, Person._instances st !! k = Some p ->
    k = str.lower (Person.fullname p) /\ clean_name (Person.fullname p).

(** ** Sample states *)

(** A registry with two persons. *)
Definition registry_two : Person.class_state :=
  (get_person (Some "Hugo Claus")
     (get_person (Some "Matt Groening") Person.empty).2).2.

(** A rating cache in which [PG] was created by hand, in small letters,
    before the predefined ratings. *)
Definition ratings_custom_pg : MovieRating.class_state :=
  (MovieRating.new "pg" "my own wording" MovieRating.empty).2.

(** ** A sample file *)

Definition sample_rows : list row :=
  [ row_inception; row_alien; row_malformed; row_unknown_genre;
    row_negative_score; row_few_votes ].

(** The collection and the registry after loading it in a fresh program. *)
Definition sample_movies : list Movie.t :=
  default [] (load_movies sample_rows Person.empty).1.

Definition sample_registry : Person.class_state :=
  (load_movies sample_rows Person.empty).2.

(** * Properties *)

(** A decidable closed proposition, settled by evaluation. *)
Ltac by_compute := apply (bool_decide_unpack _); vm_compute; exact I.

(** ** Strings *)

Section strings.

Lemma truthy_true (s : string) : str.truthy s = true <-> s <> "".
Proof. destruct s; simpl; split; congruence. Qed.

Lemma truthy_false (s : string) : str.truthy s = false <-> s = "".
Proof. destruct s; simpl; split; congruence. Qed.

Lemma lstrip_head (s : string) :
  str.lstrip s = "" \/
  exists c t, str.lstrip s = String c t /\ str.isspace c = false.
Proof.
  induction s as [|c s IH]; simpl; [by left|].
  destruct (str.isspace c) eqn:Hc; [exact IH|].
  right. by exists c, s.
Qed.

Lemma rstrip_idem (s : string) : str.rstrip (str.rstrip s) = str.rstrip s.
Proof.
  induction s as [|c s IH]; simpl; [done|].
  destruct (str.isspace c && negb (str.truthy (str.rstrip s))) eqn:Hc;
    simpl; [done|].
  by rewrite IH, Hc.
Qed.

Lemma strip_idem (s : string) : str.strip (str.strip s) = str.strip s.
Proof.
  unfold str.strip.
  destruct (lstrip_head s) as [-> | (c & t & -> & Hc)]; [done|].
  simpl. rewrite Hc. simpl. rewrite Hc. simpl.
  by rewrite Hc, rstrip_idem.
Qed.

End strings.

(** ** rating.py: the cache after import *)

Section ratings.

Lemma rating_import_ok : rating_import.1 = Ok tt.
Proof. vm_compute. reflexivity. Qed.

(** The cache holds six objects, numbered in the order of [descriptions]. *)
Lemma ratings_instances :
  MovieRating._instances ratings =
  list_to_map
    [ ("NR", MovieRating.mk 0 "NR" "Not rated");
      ("G", MovieRating.mk 1 "G" "All ages");
      ("PG", MovieRating.mk 2 "PG" "Parental guidance advised");
      ("PG-13", MovieRating.mk 3 "PG-13" "Parental guidance strongly advised");
      ("R", MovieRating.mk 4 "R" "Under 17, parental guidance advised");
      ("NC17", MovieRating.mk 5 "NC17" "For adults only") ].
Proof. vm_compute. reflexivity. Qed.

Lemma ratings_lookup (k : string) (r : MovieRating.t) :
  MovieRating._instances ratings !! k = Some r <->
  (k, r) ∈
    [ ("NR", MovieRating.mk 0 "NR" "Not rated");
      ("G", MovieRating.mk 1 "G" "All ages");
      ("PG", MovieRating.mk 2 "PG" "Parental guidance advised");
      ("PG-13", MovieRating.mk 3 "PG-13" "Parental guidance strongly advised");
      ("R", MovieRating.mk 4 "R" "Under 17, parental guidance advised");
      ("NC17", MovieRating.mk 5 "NC17" "For adults only") ].
Proof.
  rewrite ratings_instances. symmetry. apply elem_of_list_to_map.
  by_compute.
Qed.

Lemma ratings_lookup_order (k : string) :
  is_Some (MovieRating._instances ratings !! k) <-> k ∈ MovieRating._order.
Proof.
  split.
  - intros [r Hr]. apply ratings_lookup in Hr.
    repeat (apply elem_of_cons in Hr as [Hr | Hr]; [simplify_eq; by_compute|]).
    by apply elem_of_nil in Hr.
  - intros Hk. unfold MovieRating._order in Hk.
    repeat (apply elem_of_cons in Hk as [-> | Hk]; [by vm_compute; eauto|]).
    by apply elem_of_nil in Hk.
Qed.

Lemma ratings_lookup_code (k : string) (r : MovieRating.t) :
  MovieRating._instances ratings !! k = Some r -> MovieRating.code r = k.
Proof.
  intros Hr. apply ratings_lookup in Hr.
  repeat (apply elem_of_cons in Hr as [Hr | Hr]; [by simplify_eq|]).
  by apply elem_of_nil in Hr.
Qed.

(** Once the six ratings exist no constructor call succeeds, so the cache
    is the same whenever [get_rating] runs. *)
Lemma MovieRating_new_after_import (code description : string)
    (st : MovieRating.class_state) :
  MovieRating._instances st = MovieRating._instances ratings ->
  exists e st',
    MovieRating.new code description st = (Raise e, st') /\
    MovieRating._instances st' = MovieRating._instances ratings.
Proof.
  intros Hst. unfold MovieRating.new, MovieRating.__post_init__, bind, gets,
    modify, raise, ret. simpl.
  destruct (str.truthy code); simpl; [|by eauto].
  destruct (str.truthy description); simpl; [|by eauto].
  case_bool_decide as Hin; simpl; [|by eauto].
  apply ratings_lookup_order in Hin. rewrite <- Hst in Hin.
  rewrite (bool_decide_eq_true_2 _ Hin). by eauto.
Qed.

End ratings.

(** ** person.py: the registry *)

Section persons.

Implicit Types (st : Person.class_state) (p : Person.t).

(** The two outcomes of [get_person] on a name that is not blank. *)
Lemma get_person_hit (name : string) st p :
  str.strip name <> "" ->
  Person._instances st !! str.lower (str.strip name) = Some p ->
  get_person (Some name) st = (Ok p, st).
Proof.
  intros Hne Hp. apply truthy_true in Hne.
  unfold get_person, bind, gets, ret. rewrite Hne. simpl. by rewrite Hp.
Qed.

Lemma get_person_miss (name : string) st :
  str.strip name <> "" ->
  Person._instances st !! str.lower (str.strip name) = None ->
  get_person (Some name) st =
  (Ok (Person.mk (Person.allocated st) (str.strip name)),
   Person.mk_state
     (<[str.lower (str.strip name) :=
          Person.mk (Person.allocated st) (str.strip name)]>
        (Person._instances st))
     (S (Person.allocated st))).
Proof.
  intros Hne Hp. apply truthy_true in Hne.
  unfold get_person, bind, gets, ret. rewrite Hne. simpl. rewrite Hp.
  unfold Person.new, Person.__post_init__, bind, gets, modify, ret. simpl.
  rewrite Hne, strip_idem. simpl.
  rewrite bool_decide_eq_false_2; [done|].
  rewrite Hp. by intros [? ?].
Qed.

(** [get_person] on a name that is not blank: it succeeds, the person it
    returns is then cached under the name's key, and no entry that was
    there before is replaced. *)
Lemma get_person_total (name : string) st :
  str.strip name <> "" ->
  exists p st',
    get_person (Some name) st = (Ok p, st') /\
    Person._instances st' !! str.lower (str.strip name) = Some p /\
    (forall k q, Person._instances st !! k = Some q ->
                 Person._instances st' !! k = Some q) /\
    dom (Person._instances st') =
      {[str.lower (str.strip name)]} ∪ dom (Person._instances st).
Proof.
  intros Hne.
  destruct (Person._instances st !! str.lower (str.strip name)) as [p|] eqn:Hp.
  - exists p, st. split_and!; [by apply get_person_hit | done | done |].
    apply elem_of_dom_2 in Hp. set_solver.
  - eexists _, _. split_and!; [by apply get_person_miss | | | ]; simpl.
    + apply lookup_insert_eq.
    + intros k q Hq. rewrite lookup_insert_ne; [done|]. congruence.
    + apply dom_insert_L.
Qed.

End persons.

(** ** movie.py: the field parsers *)

Section parsers.

Lemma except_ValueError_int (s : string) :
  exists o, except_ValueError (str.int s) = Ok o.
Proof. unfold str.int. destruct (str.int_value s); simpl; eauto. Qed.

Lemma except_ValueError_date (s : string) :
  exists o, except_ValueError (date.fromisoformat s) = Ok o.
Proof. unfold date.fromisoformat. destruct (date.parse s); simpl; eauto. Qed.

(** The two parsers in closed form: what the library reads in the trimmed
    text, and [None] for a text it refuses. *)
Lemma _parse_int_eq (value : option string) :
  _parse_int value = Ok (v ← value; str.int_value (str.strip v)).
Proof.
  destruct value as [v|]; [|done]. unfold _parse_int.
  destruct (str.truthy (str.strip v)) eqn:Hv; cbn [negb].
  - unfold str.int. cbn [mbind option_bind].
    by destruct (str.int_value (str.strip v)).
  - apply truthy_false in Hv. cbn [mbind option_bind]. by rewrite Hv.
Qed.

Lemma _parse_date_eq (value : option string) :
  _parse_date value = Ok (v ← value; date.parse (str.strip v)).
Proof.
  destruct value as [v|]; [|done]. unfold _parse_date.
  destruct (str.truthy (str.strip v)) eqn:Hv; cbn [negb mbind option_bind].
  - unfold date.fromisoformat. by destruct (date.parse (str.strip v)).
  - apply truthy_false in Hv. by rewrite Hv.
Qed.

Lemma _parse_int_total (value : option string) :
  exists o, _parse_int value = Ok o.
Proof.
  destruct value as [v|]; simpl; [|by eauto].
  destruct (str.truthy (str.strip v)); simpl; [|by eauto].
  apply except_ValueError_int.
Qed.

Lemma _parse_date_total (value : option string) :
  exists o, _parse_date value = Ok o.
Proof.
  destruct value as [v|]; simpl; [|by eauto].
  destruct (str.truthy (str.strip v)); simpl; [|by eauto].
  apply except_ValueError_date.
Qed.

Lemma mapM_cons {S A B} (f : A -> M S B) (a : A) (l : list A) (s : S) :
  mapM f (a :: l) s =
  match f a s with
  | (Ok b, s1) =>
      match mapM f l s1 with
      | (Ok bs, s2) => (Ok (b :: bs), s2)
      | (Raise e, s2) => (Raise e, s2)
      end
  | (Raise e, s1) => (Raise e, s1)
  end.
Proof.
  simpl. unfold bind, ret. destruct (f a s) as [[b|e] s1]; [|done].
  by destruct (mapM f l s1) as [[bs|e] s2].
Qed.

(** The comprehension over [get_person] on names that are not blank. *)
Lemma mapM_get_person (names : list string) (st : Person.class_state) :
  Forall (fun n => str.strip n <> "") names ->
  exists ps st',
    mapM (fun name => get_person (Some name)) names st = (Ok ps, st') /\
    Forall2 (fun n p =>
               Person._instances st' !! str.lower (str.strip n) = Some p)
            names ps /\
    (forall k q, Person._instances st !! k = Some q ->
                 Person._instances st' !! k = Some q) /\
    dom (Person._instances st') =
      list_to_set ((fun n => str.lower (str.strip n)) <$> names)
      ∪ dom (Person._instances st).
Proof.
  intros Hnames. revert st.
  induction Hnames as [|n names Hn _ IH]; intros st.
  - exists [], st. split_and!; [done | constructor | done |]. set_solver.
  - destruct (get_person_total n st Hn) as (p & st1 & Hget & Hp & Hkeep & Hdom).
    destruct (IH st1) as (ps & st2 & Hmap & Hps & Hkeep' & Hdom').
    exists (p :: ps), st2. split_and!.
    + by rewrite mapM_cons, Hget, Hmap.
    + constructor; [by apply Hkeep'|done].
    + intros k q Hq. by apply Hkeep', Hkeep.
    + rewrite Hdom', Hdom. set_solver.
Qed.

(** The names [_parse_directors] hands to [get_person]. *)
Lemma director_parts (text : string) :
  Forall (fun n => str.strip n <> "")
         (filter (fun name => str.truthy name = true)
                 (str.strip <$> str.split "," text)).
Proof.
  apply Forall_forall. intros n Hn.
  apply list_elem_of_filter in Hn as [Htruthy Hin].
  apply list_elem_of_fmap in Hin as (x & -> & _).
  rewrite strip_idem. by apply truthy_true.
Qed.

Lemma _parse_directors_total (value : option string)
    (st : Person.class_state) :
  exists ps st',
    _parse_directors value st = (Ok ps, st') /\
    (forall k q, Person._instances st !! k = Some q ->
                 Person._instances st' !! k = Some q) /\
    (forall text name,
        value = Some text ->
        name ∈ str.split "," (str.strip text) ->
        str.strip name <> "" ->
        exists p, p ∈ ps /\
                  Person._instances st' !! str.lower (str.strip name) = Some p) /\
    (forall k,
        k ∈ dom (Person._instances st') <->
        k ∈ dom (Person._instances st) \/
        exists text name,
          value = Some text /\ name ∈ str.split "," (str.strip text) /\
          str.strip name <> "" /\ k = str.lower (str.strip name)).
Proof.
  unfold _parse_directors.
  destruct value as [v|]; [|by exists [], st; naive_solver].
  destruct (str.truthy (str.strip v)) eqn:Hv; simpl.
  - destruct (mapM_get_person _ st (director_parts (str.strip v)))
      as (ps & st' & Hmap & Hps & Hkeep & Hdom).
    assert (forall name,
              name ∈ str.split "," (str.strip v) -> str.strip name <> "" ->
              str.strip name ∈
                filter (fun name => str.truthy name = true)
                       (str.strip <$> str.split "," (str.strip v))) as Hpart.
    { intros name Hin Hne.
      apply list_elem_of_filter. split; [by apply truthy_true|].
      apply list_elem_of_fmap. by exists name. }
    exists ps, st'. split_and!; [done | done | |].
    + intros text name [= <-] Hin Hne.
      destruct (proj1 (list_elem_of_lookup _ _) (Hpart name Hin Hne)) as [i Hi].
      destruct (Forall2_lookup_l _ _ _ _ _ Hps Hi) as (p & Hpi & Hp).
      exists p. split; [by eapply list_elem_of_lookup_2|].
      by rewrite strip_idem in Hp.
    + intros k. rewrite Hdom, elem_of_union, elem_of_list_to_set.
      rewrite list_elem_of_fmap. split.
      * intros [(n & -> & Hn) | Hk]; [right | by left].
        apply list_elem_of_filter in Hn as [Htruthy Hin].
        apply list_elem_of_fmap in Hin as (x & -> & Hx).
        exists v, x. rewrite strip_idem.
        split_and!; [done | done | by apply truthy_true | done].
      * intros [Hk | (text & name & [= <-] & Hin & Hne & ->)]; [by right|].
        left. exists (str.strip name). rewrite strip_idem. eauto.
  - exists [], st.
    assert (forall name, name ∈ str.split "," (str.strip v) ->
                         str.strip name = "") as Hblank.
    { intros name Hin. apply truthy_false in Hv. rewrite Hv in Hin.
      simpl in Hin. by apply list_elem_of_singleton in Hin as ->. }
    split_and!; [done | done | |].
    + intros text name [= <-] Hin Hne. by apply Hblank in Hin.
    + intros k. split; [by left|].
      intros [Hk | (text & name & [= <-] & Hin & Hne & _)]; [done|].
      by apply Hblank in Hin.
Qed.

End parsers.

(** ** movie.py: [create_movie], step by step *)

Section create_movie.

Variables (info : row) (st : Person.class_state).

Let rt_link := str.strip (or_empty (dict_get info "rotten_tomatoes_link")).
Let title := str.strip (or_empty (dict_get info "movie_title")).
Let rating_code := str.strip (or_empty (dict_get info "content_rating")).
Let genre_text := str.strip (or_empty (dict_get info "genre")).

(** The four guards on the required fields, in the order of the source. *)
Lemma create_movie_missing :
  (rt_link = "" ->
   create_movie info st = (Raise (ValueError "missing rotten_tomatoes_link"), st)) /\
  (rt_link <> "" -> title = "" ->
   create_movie info st = (Raise (ValueError "missing movie_title"), st)) /\
  (rt_link <> "" -> title <> "" -> rating_code = "" ->
   create_movie info st = (Raise (ValueError "missing content_rating"), st)) /\
  (rt_link <> "" -> title <> "" -> rating_code <> "" -> genre_text = "" ->
   create_movie info st = (Raise (ValueError "missing genre"), st)).
Proof.
  unfold create_movie. fold rt_link title rating_code genre_text.
  split_and!.
  - intros ->. done.
  - intros H1%truthy_true ->. by rewrite H1.
  - intros H1%truthy_true H2%truthy_true ->. by rewrite H1, H2.
  - intros H1%truthy_true H2%truthy_true H3%truthy_true ->.
    by rewrite H1, H2, H3.
Qed.

(** Past the guards, an unknown rating code ends the call before anything
    else has run. *)
Lemma create_movie_unknown_rating (e : exn) :
  rt_link <> "" -> title <> "" -> rating_code <> "" -> genre_text <> "" ->
  get_rating ratings (Some rating_code) = Raise e ->
  create_movie info st = (Raise e, st).
Proof.
  intros H1%truthy_true H2%truthy_true H3%truthy_true H4%truthy_true Hr.
  unfold create_movie. fold rt_link title rating_code genre_text.
  rewrite H1, H2, H3, H4. cbn [negb]. unfold bind, lift. by rewrite Hr.
Qed.

(** With a known rating the optional columns are parsed, none of them
    raising; the genre is looked up only then, and the registry at that point
    is the one [_parse_directors] has left. *)
Lemma create_movie_run (r : MovieRating.t) :
  rt_link <> "" -> title <> "" -> rating_code <> "" -> genre_text <> "" ->
  get_rating ratings (Some rating_code) = Ok r ->
  exists ds st1 rd sd len co sc cn,
    _parse_directors (dict_get_default info "directors" "") st = (Ok ds, st1) /\
    create_movie info st =
    match _GENRE_TO_CLASS !! str.upper genre_text with
    | None => (Raise (ValueError ("unknown genre: " +:+ genre_text)), st1)
    | Some cls =>
        (Movie.new cls rt_link title (Some r) ds rd sd (Some len) co sc cn, st1)
    end /\
    _parse_int (dict_get_default info "audience_rating" "") = Ok sc /\
    _parse_int (dict_get_default info "audience_count" "") = Ok cn.
Proof.
  intros H1%truthy_true H2%truthy_true H3%truthy_true H4%truthy_true Hr.
  destruct (_parse_directors_total (dict_get_default info "directors" "") st)
    as (ds & st1 & Hds & _).
  destruct (_parse_date_total (dict_get_default info "original_release_date" ""))
    as [rd Hrd].
  destruct (_parse_date_total (dict_get_default info "streaming_release_date" ""))
    as [sd Hsd].
  destruct (_parse_int_total (dict_get_default info "runtime" "")) as [rt Hrt].
  destruct (_parse_int_total (dict_get_default info "audience_rating" ""))
    as [sc Hsc].
  destruct (_parse_int_total (dict_get_default info "audience_count" ""))
    as [cn Hcn].
  eexists ds, st1, rd, sd, _, _, sc, cn. split_and!; [done | | done | done].
  unfold create_movie. fold rt_link title rating_code genre_text.
  rewrite H1, H2, H3, H4. cbn [negb]. unfold bind, lift, raise.
  rewrite Hr, Hds, Hrd, Hsd, Hrt, Hsc, Hcn.
  by destruct (_GENRE_TO_CLASS !! str.upper genre_text).
Qed.

End create_movie.

(** ** movie.py: the record invariant *)

Section records.

Lemma get_rating_stripped (x : string) :
  get_rating ratings (Some (str.strip x)) =
  match MovieRating._instances ratings !! str.upper (str.strip x) with
  | Some r => Ok r
  | None => Raise (ValueError ("Unknown rating code: " +:+ str.upper (str.strip x)))
  end.
Proof. unfold get_rating. by rewrite strip_idem. Qed.

Lemma __post_init___Ok (self : Movie.t) :
  Movie.rt_link self <> "" -> Movie.title self <> "" ->
  is_Some (Movie.rating self) ->
  Movie.__post_init__ self =
  Ok (match Movie.length self with
      | Some n => if n <? 0 then Movie.set_length self 0 else self
      | None => Movie.set_length self 0
      end).
Proof.
  intros H1%truthy_true H2%truthy_true H3. unfold Movie.__post_init__.
  rewrite H1, H2, (bool_decide_eq_true_2 _ H3). cbn [negb].
  destruct (Movie.length self) as [n|]; [|done]. by destruct (n <? 0).
Qed.

Lemma __post_init___invariant (self m : Movie.t) :
  Movie.__post_init__ self = Ok m -> movie_invariant m.
Proof.
  unfold Movie.__post_init__, movie_invariant.
  destruct (str.truthy (Movie.rt_link self)) eqn:H1; [|done].
  destruct (str.truthy (Movie.title self)) eqn:H2; [|done].
  case_bool_decide as H3; [|done]. cbn [negb].
  apply truthy_true in H1, H2.
  destruct (Movie.length self) as [n|] eqn:Hn.
  - destruct (Z.ltb_spec n 0); intros [= <-]; simpl; split_and!; try done.
    + exists 0. split; [done | lia].
    + exists n. split; [done | lia].
  - intros [= <-]; simpl; split_and!; try done. exists 0. split; [done | lia].
Qed.

Lemma __post_init___keeps (self m : Movie.t) :
  Movie.__post_init__ self = Ok m ->
  m = self \/ m = Movie.set_length self 0.
Proof.
  unfold Movie.__post_init__.
  destruct (str.truthy (Movie.rt_link self)); [|done].
  destruct (str.truthy (Movie.title self)); [|done].
  case_bool_decide; [|done]. cbn [negb].
  destruct (Movie.length self) as [n|]; [destruct (n <? 0)|];
    intros [= <-]; auto.
Qed.

(** A record that [create_movie] returns satisfies the invariant, and its
    score and vote count are what [_parse_int] reads in the two audience
    columns. *)
Lemma create_movie_Ok (info : row) (st st' : Person.class_state)
    (m : Movie.t) :
  create_movie info st = (Ok m, st') ->
  movie_invariant m /\
  _parse_int (dict_get_default info "audience_rating" "") = Ok (Movie.score m) /\
  _parse_int (dict_get_default info "audience_count" "") = Ok (Movie.count m).
Proof.
  intros Hm.
  destruct (create_movie_missing info st) as (M1 & M2 & M3 & M4).
  destruct (decide (str.strip (or_empty (dict_get info "rotten_tomatoes_link")) = ""))
    as [E1|N1]; [by rewrite M1 in Hm|].
  destruct (decide (str.strip (or_empty (dict_get info "movie_title")) = ""))
    as [E2|N2]; [by rewrite M2 in Hm|].
  destruct (decide (str.strip (or_empty (dict_get info "content_rating")) = ""))
    as [E3|N3]; [by rewrite M3 in Hm|].
  destruct (decide (str.strip (or_empty (dict_get info "genre")) = ""))
    as [E4|N4]; [by rewrite M4 in Hm|].
  destruct (get_rating ratings
              (Some (str.strip (or_empty (dict_get info "content_rating")))))
    as [r|e] eqn:Hr.
  - destruct (create_movie_run info st r N1 N2 N3 N4 Hr)
      as (ds & st1 & rd & sd & len & co & sc & cn & _ & Hrun & Hsc & Hcn).
    rewrite Hrun in Hm.
    destruct (_GENRE_TO_CLASS !! _) as [cls|]; [|done].
    injection Hm as Hm _. split; [by apply __post_init___invariant in Hm|].
    by apply __post_init___keeps in Hm as [-> | ->].
  - by rewrite (create_movie_unknown_rating info st e N1 N2 N3 N4 Hr) in Hm.
Qed.

Lemma create_movie_invariant (info : row) (st st' : Person.class_state)
    (m : Movie.t) :
  create_movie info st = (Ok m, st') -> movie_invariant m.
Proof. by intros [? _]%create_movie_Ok. Qed.

Lemma load_rows_invariant (rows : list row) (movies movies' : list Movie.t)
    (errors errors' : nat) (st st' : Person.class_state) :
  Forall movie_invariant movies ->
  load_rows rows movies errors st = (Ok (movies', errors'), st') ->
  Forall movie_invariant movies'.
Proof.
  revert movies errors st.
  induction rows as [|r rows IH]; intros movies errors st Hinv; simpl.
  - by intros [= <- _ _].
  - destruct (create_movie r st) as [[m|e] st1] eqn:Hm.
    + apply IH. apply Forall_app. split; [done|].
      apply Forall_singleton. by eapply create_movie_invariant.
    + destruct e; try done; by apply IH.
Qed.

End records.

(** ** eval_02.py: the sort of the export *)

Section sorting.

(** The order of the export: by title, as strings. *)
Let by_title (a b : Movie.t) : Prop :=
  String.le (Movie.title a) (Movie.title b).

Lemma insert_by_title_perm (m : Movie.t) (l : list Movie.t) :
  insert_by_title m l ≡ₚ m :: l.
Proof.
  induction l as [|x l IH]; simpl; [done|].
  case_bool_decide; [done|]. by rewrite IH, Permutation_swap.
Qed.

Lemma sort_by_title_perm (l : list Movie.t) : sort_by_title l ≡ₚ l.
Proof.
  induction l as [|m l IH]; simpl; [done|].
  by rewrite insert_by_title_perm, IH.
Qed.

Lemma insert_by_title_sorted (m : Movie.t) (l : list Movie.t) :
  StronglySorted by_title l -> StronglySorted by_title (insert_by_title m l).
Proof.
  induction 1 as [|x l Hl IH Hx]; simpl.
  - repeat constructor.
  - case_bool_decide as Hmx.
    + constructor; [by constructor|].
      constructor; [done|].
      eapply Forall_impl; [exact Hx|]. intros y Hy. unfold by_title in *.
      by etrans.
    + constructor; [done|].
      rewrite insert_by_title_perm. constructor; [|done].
      unfold by_title. by destruct (total String.le (Movie.title m) (Movie.title x)).
Qed.

Lemma sort_by_title_sorted (l : list Movie.t) :
  StronglySorted by_title (sort_by_title l).
Proof.
  induction l as [|m l IH]; simpl; [constructor|].
  by apply insert_by_title_sorted.
Qed.

End sorting.

(** ** eval_02.py: the score list *)

Section histogram.

Lemma count_score_cons (s : Z) (m : Movie.t) (movies : list Movie.t) :
  count_score s (m :: movies) =
  (if decide (Movie.score m = Some s) then 1 else 0) + count_score s movies.
Proof.
  unfold count_score. rewrite filter_cons.
  destruct (decide (Movie.score m = Some s)); simpl length; lia.
Qed.

Lemma lookup_zero_map (l : list Z) (s : Z) :
  (list_to_map ((fun i => (i, 0)) <$> l) : gmap Z Z) !! s =
  if decide (s ∈ l) then Some 0 else None.
Proof.
  induction l as [|x l IH].
  - rewrite fmap_nil, list_to_map_nil, lookup_empty.
    destruct (decide (s ∈ [])) as [Hin|]; [|done]. by apply elem_of_nil in Hin.
  - rewrite fmap_cons, list_to_map_cons.
    destruct (decide (x = s)) as [->|Hne].
    + rewrite lookup_insert_eq.
      destruct (decide (s ∈ s :: l)) as [|Hin]; [done|]. destruct Hin. by left.
    + rewrite lookup_insert_ne, IH by done.
      destruct (decide (s ∈ l)) as [Hin|Hin], (decide (s ∈ x :: l)) as [Hin'|Hin'];
        try done.
      * destruct Hin'. by right.
      * apply elem_of_cons in Hin' as [?|?]; [congruence | done].
Qed.

Lemma score_counts_init_lookup (s : Z) :
  score_counts_init !! s = if decide (0 <= s <= 100) then Some 0 else None.
Proof.
  unfold score_counts_init, range_0_101. rewrite lookup_zero_map.
  destruct (decide (s ∈ seqZ 0 101)) as [Hin|Hin];
    rewrite elem_of_seqZ in Hin.
  - by rewrite decide_True by lia.
  - by rewrite decide_False by lia.
Qed.

(** The counting loop never meets a missing key, and adds to each bucket
    the number of records with that score. *)
Lemma fold_score_list (movies : list Movie.t) (sc : gmap Z Z) :
  (forall s, is_Some (sc !! s) <-> 0 <= s <= 100) ->
  exists sc',
    fold_result score_list_step movies sc = Ok sc' /\
    forall s, sc' !! s = (fun c => c + count_score s movies) <$> sc !! s.
Proof.
  revert sc. induction movies as [|m movies IH]; intros sc Hdom.
  - exists sc. split; [done|]. intros s. unfold count_score. simpl.
    destruct (sc !! s) as [c|]; simpl; [|done]. f_equal. lia.
  - simpl. unfold score_list_step at 1.
    destruct (Movie.score m) as [x|] eqn:Hx.
    + destruct (Z.leb_spec 0 x), (Z.leb_spec x 100); simpl.
      * destruct (proj2 (Hdom x)) as [c Hc]; [lia|].
        unfold getitem. rewrite Hc. simpl.
        destruct (IH (<[x := c + 1]> sc)) as (sc' & Hfold & Hsc').
        { intros s. destruct (decide (x = s)) as [<-|Hne].
          - rewrite lookup_insert_eq. split; [lia | by eexists].
          - by rewrite lookup_insert_ne. }
        exists sc'. split; [done|]. intros s. rewrite Hsc', count_score_cons, Hx.
        destruct (decide (x = s)) as [<-|Hne].
        -- rewrite lookup_insert_eq, Hc, decide_True by done. simpl.
           f_equal. lia.
        -- rewrite lookup_insert_ne, decide_False by congruence.
           destruct (sc !! s); simpl; [f_equal; lia | done].
      * destruct (IH sc Hdom) as (sc' & Hfold & Hsc').
        exists sc'. split; [done|]. intros s. rewrite Hsc', count_score_cons, Hx.
        destruct (sc !! s) as [c|] eqn:Hc; simpl; [|done].
        assert (0 <= s <= 100) by (apply Hdom; by eexists).
        rewrite decide_False by (intros [= ->]; lia). f_equal.
      * destruct (IH sc Hdom) as (sc' & Hfold & Hsc').
        exists sc'. split; [done|]. intros s. rewrite Hsc', count_score_cons, Hx.
        destruct (sc !! s) as [c|] eqn:Hc; simpl; [|done].
        assert (0 <= s <= 100) by (apply Hdom; by eexists).
        rewrite decide_False by (intros [= ->]; lia). f_equal.
      * lia.
    + destruct (IH sc Hdom) as (sc' & Hfold & Hsc').
      exists sc'. split; [done|]. intros s. rewrite Hsc', count_score_cons, Hx.
      rewrite decide_False by done.
      destruct (sc !! s); simpl; [f_equal; lia | done].
Qed.

Lemma map_result_Ok {A B} (f : A -> result B) (g : A -> B) (l : list A) :
  (forall x, x ∈ l -> f x = Ok (g x)) -> map_result f l = Ok (g <$> l).
Proof.
  induction l as [|a l IH]; intros Hf; simpl; [done|].
  rewrite Hf by left. simpl. rewrite IH; [done|].
  intros x Hx. apply Hf. by right.
Qed.

(** What menu option 8 prints, in closed form. *)
Lemma menu_print_score_list_eq (movies : list Movie.t) :
  menu_print_score_list movies =
  Ok ((fun s => (s, count_score s movies)) <$> seqZ 0 101).
Proof.
  unfold menu_print_score_list.
  destruct (fold_score_list movies score_counts_init) as (sc & -> & Hsc).
  { intros s. rewrite score_counts_init_lookup.
    destruct (decide (0 <= s <= 100)); split; intros Hs;
      first [done | by eexists | by destruct Hs]. }
  cbn [bind_result]. unfold range_0_101.
  apply (map_result_Ok _ (fun s => (s, count_score s movies))).
  intros s Hs%elem_of_seqZ.
  unfold getitem. rewrite Hsc, score_counts_init_lookup.
  rewrite decide_True by lia. simpl. do 2 f_equal.
Qed.

Lemma sum_fmap_add (f g : Z -> Z) (l : list Z) :
  foldr Z.add 0 ((fun s => f s + g s) <$> l) =
  foldr Z.add 0 (f <$> l) + foldr Z.add 0 (g <$> l).
Proof.
  induction l as [|x l IH]; [done|].
  rewrite !fmap_cons. cbn [foldr]. rewrite IH. lia.
Qed.

(** A score falls in one bucket at most. *)
Lemma sum_indicator (o : option Z) (l : list Z) :
  NoDup l ->
  foldr Z.add 0 ((fun s => if decide (o = Some s) then 1 else 0) <$> l) =
  match o with
  | Some x => if decide (x ∈ l) then 1 else 0
  | None => 0
  end.
Proof.
  induction 1 as [|y l Hy Hl IH].
  - destruct o as [x|]; [|done].
    destruct (decide (x ∈ [])) as [Hin|]; [|done]. by apply elem_of_nil in Hin.
  - rewrite fmap_cons. cbn [foldr]. rewrite IH.
    destruct o as [x|]; [|by rewrite decide_False by done].
    destruct (decide (Some x = Some y)) as [[= ->]|Hne].
    + rewrite (decide_False (P := y ∈ l)) by done.
      by rewrite decide_True by left.
    + destruct (decide (x ∈ l)) as [Hin|Hin].
      * by rewrite decide_True by by right.
      * rewrite decide_False; [done|].
        intros [->|?]%elem_of_cons; [by destruct Hne | done].
Qed.

(** Summed over the 101 buckets, the counts give the number of records
    whose score is present and in range. *)
Lemma sum_count_score (movies : list Movie.t) :
  foldr Z.add 0 ((fun s => count_score s movies) <$> seqZ 0 101) =
  Z.of_nat (length (filter (fun m => score_in_range m = true) movies)).
Proof.
  induction movies as [|m movies IH].
  - unfold count_score. rewrite !filter_nil. cbn [length Z.of_nat].
    induction (seqZ 0 101) as [|x l IHl]; [done|].
    rewrite fmap_cons. cbn [foldr]. by rewrite IHl.
  - rewrite (list_fmap_ext _
               (fun s => (if decide (Movie.score m = Some s) then 1 else 0)
                         + count_score s movies))
      by (intros; apply count_score_cons).
    rewrite sum_fmap_add, IH, sum_indicator by apply NoDup_seqZ.
    rewrite filter_cons.
    destruct (decide (score_in_range m = true)) as [Hr|Hr];
      unfold score_in_range in Hr;
      destruct (Movie.score m) as [x|]; try done.
    + apply andb_true_iff in Hr as [?%Z.leb_le ?%Z.leb_le].
      rewrite decide_True by (apply elem_of_seqZ; lia).
      cbn [length]. lia.
    + rewrite decide_False; [lia|].
      intros Hin%elem_of_seqZ. apply Hr, andb_true_iff.
      split; apply Z.leb_le; lia.
Qed.

End histogram.

(** ** eval_02.py: the highest score *)

Section highest.

(** The loop of menu option 4 from any starting pair: the score it ends
    with bounds every relevant score seen, and the list it ends with holds
    the records seen with that score, after the starting list when the
    score has not moved. *)
Lemma highest_fold (movies best best' : list Movie.t) (mx mx' : Z) :
  fold_left highest_step movies (mx, best) = (mx', best') ->
  mx <= mx' /\
  (forall m s, m ∈ movies -> Movie.relevant_score m = (true, s) -> s <= mx') /\
  (mx' = mx \/ exists m, m ∈ movies /\ Movie.relevant_score m = (true, mx')) /\
  best' = (if mx' =? mx then best else [])
          ++ filter (fun m => Movie.relevant_score m = (true, mx')) movies.
Proof.
  revert mx best. induction movies as [|m movies IH]; intros mx best.
  - simpl. intros [= <- <-]. rewrite Z.eqb_refl, app_nil_r.
    split_and!; [lia | by intros m s ?%elem_of_nil | by left | done].
  - cbn [fold_left]. unfold highest_step at 2.
    destruct (Movie.relevant_score m) as [r s] eqn:Hm.
    destruct r; cbn [negb].
    + destruct (Z.gtb_spec s mx) as [Hgt|Hle].
      * intros (Hmx & Hbound & Hatt & ->)%IH. split_and!.
        -- lia.
        -- intros m0 s0 [->|Hin]%elem_of_cons Hs0; [|by eapply Hbound].
           assert (s0 = s) by congruence. lia.
        -- right. destruct Hatt as [-> | (m0 & Hin & Hm0)].
           ++ exists m. split; [by left | done].
           ++ exists m0. split; [by right | done].
        -- rewrite filter_cons.
           destruct (Z.eqb_spec mx' mx); [lia|].
           destruct (Z.eqb_spec mx' s) as [->|Hne].
           ++ by rewrite decide_True by done.
           ++ by rewrite decide_False by congruence.
      * destruct (Z.eqb_spec s mx) as [->|Hne].
        -- intros (Hmx & Hbound & Hatt & ->)%IH. split_and!.
           ++ lia.
           ++ intros m0 s0 [->|Hin]%elem_of_cons Hs0; [|by eapply Hbound].
              assert (s0 = mx) by congruence. lia.
           ++ destruct Hatt as [-> | (m0 & Hin & Hm0)]; [by left|].
              right. exists m0. split; [by right | done].
           ++ rewrite filter_cons. destruct (Z.eqb_spec mx' mx) as [->|Hne].
              ** rewrite decide_True by done. by rewrite <- app_assoc.
              ** by rewrite decide_False by congruence.
        -- intros (Hmx & Hbound & Hatt & ->)%IH. split_and!.
           ++ lia.
           ++ intros m0 s0 [->|Hin]%elem_of_cons Hs0; [|by eapply Hbound].
              assert (s0 = s) by congruence. lia.
           ++ destruct Hatt as [-> | (m0 & Hin & Hm0)]; [by left|].
              right. exists m0. split; [by right | done].
           ++ rewrite filter_cons.
              rewrite decide_False; [done|]. rewrite Hm. intros [= ->]. lia.
    + intros (Hmx & Hbound & Hatt & ->)%IH. split_and!.
      * lia.
      * intros m0 s0 [->|Hin]%elem_of_cons Hs0; [congruence|by eapply Hbound].
      * destruct Hatt as [-> | (m0 & Hin & Hm0)]; [by left|].
        right. exists m0. split; [by right | done].
      * rewrite filter_cons. by rewrite decide_False by congruence.
Qed.

(** Whenever the query reports a score, the report is right: the score is a
    relevant score of the collection, no relevant score is higher, and the
    titles are those of all records with it, in the order of the
    collection. *)
Lemma highest_report_sound (movies : list Movie.t) (mx : Z)
    (titles : list string) :
  menu_print_highest_score_movies movies = Highest mx titles ->
  (exists m, m ∈ movies /\ Movie.relevant_score m = (true, mx)) /\
  (forall m s, m ∈ movies -> Movie.relevant_score m = (true, s) -> s <= mx) /\
  titles = Movie.title <$>
             filter (fun m => Movie.relevant_score m = (true, mx)) movies.
Proof.
  unfold menu_print_highest_score_movies.
  destruct (fold_left highest_step movies (-1, [])) as [mx' best'] eqn:Hfold.
  apply highest_fold in Hfold as (Hmx & Hbound & Hatt & Hbest).
  assert (best' = filter (fun m => Movie.relevant_score m = (true, mx')) movies)
    as Hbest' by (rewrite Hbest; by destruct (mx' =? -1)).
  destruct best' as [|b best']; [done|]. intros [= <- <-].
  split_and!; [|done|by rewrite <- Hbest'].
  assert (b ∈ filter (fun m => Movie.relevant_score m = (true, mx')) movies)
    as [Hb Hin]%list_elem_of_filter by (rewrite <- Hbest'; by left).
  by exists b.
Qed.

(** The query reports that no relevant score was found exactly when every
    relevant score of the collection is below -1, the value the loop starts
    from. *)
Lemma highest_report_none (movies : list Movie.t) :
  menu_print_highest_score_movies movies = NoRelevantScore <->
  forall m s, m ∈ movies -> Movie.relevant_score m = (true, s) -> s < -1.
Proof.
  unfold menu_print_highest_score_movies.
  destruct (fold_left highest_step movies (-1, [])) as [mx' best'] eqn:Hfold.
  apply highest_fold in Hfold as (Hmx & Hbound & Hatt & Hbest).
  assert (best' = filter (fun m => Movie.relevant_score m = (true, mx')) movies)
    as Hbest' by (rewrite Hbest; by destruct (mx' =? -1)).
  clear Hbest. split.
  - destruct best' as [|b best']; [intros _|done].
    intros m s Hin Hm.
    assert (s <> mx') as Hne.
    { intros ->.
      assert (m ∈ filter (fun m => Movie.relevant_score m = (true, mx')) movies)
        as Hf by by apply list_elem_of_filter.
      rewrite <- Hbest' in Hf. by apply elem_of_nil in Hf. }
    destruct Hatt as [-> | (m0 & Hin0 & Hm0)].
    + apply Hbound in Hm; [lia | done].
    + assert (m0 ∈ filter (fun m => Movie.relevant_score m = (true, mx')) movies)
        as Hf by by apply list_elem_of_filter.
      rewrite <- Hbest' in Hf. by apply elem_of_nil in Hf.
  - intros Hlow. destruct best' as [|b best']; [done|]. exfalso.
    assert (b ∈ filter (fun m => Movie.relevant_score m = (true, mx')) movies)
      as [Hb Hin]%list_elem_of_filter by (rewrite <- Hbest'; by left).
    specialize (Hlow b mx' Hin Hb). lia.
Qed.

End highest.

(** * The claims *)

(** ** The records and their predicates *)

(** C1. [relevant_score] returns [(True, score)] exactly when the score and
    the vote count are both present and the count is at least 100, and
    [(False, 0)] in every other case.  A record built from a row with
    [audience_rating=85] and [audience_count=150] gives [(True, 85)]; one
    built from a row with [audience_count=50], or from a row without the
    [audience_rating] column, gives [(False, 0)]. *)
Theorem relevant_score_spec :
  (forall (m : Movie.t) (s : Z),
      Movie.relevant_score m = (true, s) <->
      Movie.score m = Some s /\ exists c, Movie.count m = Some c /\ 100 <= c) /\
  (forall m : Movie.t,
      Movie.relevant_score m = (false, 0) <->
      Movie.score m = None \/ Movie.count m = None \/
      exists c, Movie.count m = Some c /\ c < 100) /\
  (forall m : Movie.t,
      (exists s, Movie.relevant_score m = (true, s)) \/
      Movie.relevant_score m = (false, 0)) /\
  (forall (info : row) (st st' : Person.class_state) (m : Movie.t),
      create_movie info st = (Ok m, st') ->
      (info !! "audience_rating" = Some (Some "85") ->
       info !! "audience_count" = Some (Some "150") ->
       Movie.relevant_score m = (true, 85)) /\
      (info !! "audience_count" = Some (Some "50") ->
       Movie.relevant_score m = (false, 0)) /\
      (info !! "audience_rating" = None ->
       Movie.relevant_score m = (false, 0))) /\
  (exists m st, create_movie row_inception Person.empty = (Ok m, st) /\
                Movie.relevant_score m = (true, 85)) /\
  (exists m st, create_movie row_few_votes Person.empty = (Ok m, st) /\
                Movie.relevant_score m = (false, 0)) /\
  (exists m st, create_movie row_no_score Person.empty = (Ok m, st) /\
                Movie.relevant_score m = (false, 0)).
Proof.
  split_and!.
  - intros m s. unfold Movie.relevant_score.
    destruct (Movie.score m) as [s'|], (Movie.count m) as [c|];
      try (split; [done | naive_solver]).
    destruct (Z.ltb_spec c 100); split.
    + done.
    + intros [_ (c' & [= <-] & ?)]. lia.
    + intros [= ->]. split; [done|]. exists c. split; [done | lia].
    + by intros [[= ->] _].
  - intros m. unfold Movie.relevant_score.
    destruct (Movie.score m) as [s'|], (Movie.count m) as [c|];
      try (split; [by auto | done]).
    destruct (Z.ltb_spec c 100); split.
    + intros _. right; right. by exists c.
    + done.
    + done.
    + intros [? | [? | (c' & [= <-] & ?)]]; [done | done | lia].
  - intros m. unfold Movie.relevant_score.
    destruct (Movie.score m) as [s'|], (Movie.count m) as [c|]; auto.
    destruct (c <? 100); eauto.
  - intros info st st' m (_ & Hsc & Hcn)%create_movie_Ok.
    unfold dict_get_default in Hsc, Hcn. unfold Movie.relevant_score.
    split_and!.
    + intros Hr Hc. rewrite Hr in Hsc. rewrite Hc in Hcn.
      change (_parse_int (Some "85")) with (Ok (Some 85)) in Hsc.
      change (_parse_int (Some "150")) with (Ok (Some 150)) in Hcn.
      injection Hsc as <-. by injection Hcn as <-.
    + intros Hc. rewrite Hc in Hcn.
      change (_parse_int (Some "50")) with (Ok (Some 50)) in Hcn.
      injection Hcn as <-. by destruct (Movie.score m).
    + intros Hr. rewrite Hr in Hsc.
      change (_parse_int (Some "")) with (Ok (@None Z)) in Hsc.
      by injection Hsc as <-.
  - eexists _, _. split; vm_compute; reflexivity.
  - eexists _, _. split; vm_compute; reflexivity.
  - eexists _, _. split; vm_compute; reflexivity.
Qed.

(** C6. On a Horror record whose rating is one of the cached instances,
    [is_scary] returns [True] exactly when the rating stands after PG in the
    order NR, G, PG, PG-13, R, NC17: it is [False] for NR, G and PG and
    [True] for PG-13, R and NC17. *)
Theorem is_scary_spec (m : Movie.t) (r : MovieRating.t) :
  Movie.__class__ m = Horror ->
  Movie.rating m = Some r ->
  (exists k, MovieRating._instances ratings !! k = Some r) ->
  exists b : bool,
    Horror.is_scary m = Ok b /\
    (b = true <->
       exists i j, list_index "PG" MovieRating._order = Some i /\
                   list_index (MovieRating.code r) MovieRating._order = Some j /\
                   (i < j)%nat) /\
    (b = true <-> MovieRating.code r ∈ ["PG-13"; "R"; "NC17"]) /\
    (b = false <-> MovieRating.code r ∈ ["NR"; "G"; "PG"]).
Proof.
  intros Hcls Hrat [k Hk]. apply ratings_lookup in Hk.
  destruct m as [cls rt ti ra di rd sd le co sc cn].
  cbn [Movie.__class__ Movie.rating] in *. subst cls ra.
  repeat (apply elem_of_cons in Hk as [Hk | Hk];
    [ simplify_eq; cbn [MovieRating.code];
      eexists; split; [vm_compute; reflexivity|];
      repeat match goal with
             | |- context [list_index ?x ?l] =>
                 let v := eval vm_compute in (list_index x l) in
                 change (list_index x l) with v
             end;
      split_and!;
      (split;
       [ intros Hb; first [ discriminate Hb | by_compute
                          | eexists _, _; split_and!; [done | done | lia] ]
       | intros Hb;
         first [ reflexivity
               | exfalso; revert Hb; by_compute
               | destruct Hb as (i & j & Hi & Hj & Hlt); simplify_eq; lia ] ])
    | ]).
  by apply elem_of_nil in Hk.
Qed.

(** The record of the witness is the one the factory builds from
    [row_alien]. *)
Example create_movie_row_alien :
  (create_movie row_alien Person.empty).1 = Ok movie_alien.
Proof. vm_compute. reflexivity. Qed.

Lemma is_scary_witness :
  exists b : bool,
    Horror.is_scary movie_alien = Ok b /\
    (b = true <->
       exists i j, list_index "PG" MovieRating._order = Some i /\
                   list_index "R" MovieRating._order = Some j /\
                   (i < j)%nat) /\
    (b = true <-> "R" ∈ ["PG-13"; "R"; "NC17"]) /\
    (b = false <-> "R" ∈ ["NR"; "G"; "PG"]).
Proof.
  apply (is_scary_spec movie_alien
           (MovieRating.mk 4 "R" "Under 17, parental guidance advised")).
  - reflexivity.
  - reflexivity.
  - exists "R". vm_compute. reflexivity.
Defined.

(** C7. A record whose construction succeeds has a non-empty [rt_link], a
    non-empty [title], a rating that is not [None] and a length that is at
    least 0.  Construction fails exactly for an empty [rt_link], an empty
    [title] or a [None] rating; a negative or missing length is replaced by
    0 and is no reason to fail.  The records of a loaded collection and the
    records selected for export all satisfy the invariant: the queries read
    the records and assign to none of their attributes. *)
Theorem movie_invariant_established :
  (forall self m : Movie.t,
      Movie.__post_init__ self = Ok m -> movie_invariant m) /\
  (forall self : Movie.t,
      (exists e, Movie.__post_init__ self = Raise e) <->
      (Movie.rt_link self = "" \/ Movie.title self = "" \/
       Movie.rating self = None)) /\
  (forall self : Movie.t,
      Movie.rt_link self <> "" -> Movie.title self <> "" ->
      is_Some (Movie.rating self) ->
      ((Movie.length self = None \/
        exists n, Movie.length self = Some n /\ n < 0) ->
       Movie.__post_init__ self = Ok (Movie.set_length self 0)) /\
      (forall n, Movie.length self = Some n -> 0 <= n ->
                 Movie.__post_init__ self = Ok self)) /\
  (forall (rows : list row) (st st' : Person.class_state)
          (movies : list Movie.t),
      load_movies rows st = (Some movies, st') ->
      Forall movie_invariant movies) /\
  (forall movies exported : list Movie.t,
      Forall movie_invariant movies ->
      menu_export_movies_without_relevant_score movies = Export exported ->
      Forall movie_invariant exported).
Proof.
  split_and!.
  - apply __post_init___invariant.
  - intros self. split.
    + intros [e He].
      destruct (decide (Movie.rt_link self = "")) as [|N1]; [by left|].
      destruct (decide (Movie.title self = "")) as [|N2]; [by right; left|].
      destruct (Movie.rating self) as [r|] eqn:Hr; [|by right; right].
      rewrite __post_init___Ok in He; [done..|]. rewrite Hr. by eexists.
    + unfold Movie.__post_init__.
      intros [-> | [-> | ->]]; simpl; [by eauto| |].
      * destruct (str.truthy (Movie.rt_link self)); simpl; eauto.
      * destruct (str.truthy (Movie.rt_link self)),
          (str.truthy (Movie.title self)); simpl; eauto.
  - intros self N1 N2 N3. rewrite __post_init___Ok by done. split.
    + intros [-> | (n & -> & Hn)]; [done|].
      by destruct (Z.ltb_spec n 0); [|lia].
    + intros n -> Hn. by destruct (Z.ltb_spec n 0); [lia|].
  - intros rows st st' movies. unfold load_movies.
    destruct (load_rows rows [] 0 st) as [[[ms n]|e] st1] eqn:Hload; [|done].
    intros [= <- _]. by eapply load_rows_invariant; [|done].
  - intros movies exported Hinv. unfold menu_export_movies_without_relevant_score.
    destruct (filter _ movies) as [|m l] eqn:Hsel; [done|].
    intros Hexp.
    assert (exported = sort_by_title (m :: l)) as -> by congruence.
    rewrite sort_by_title_perm, <- Hsel.
    rewrite Forall_forall in Hinv |- *.
    intros x [_ Hx]%list_elem_of_filter. by apply Hinv.
Qed.

(** ** The registries *)

(** C4. Two names that are equal after trimming and ignoring case give the
    identical [Person] instance, and both calls together add at most one
    entry to the registry; a name seen for the first time is stored trimmed,
    in the casing of that first call, and later calls never replace it.
    (A name is a string that is not blank: on a blank string [get_person]
    raises and stores nothing.)
    From an empty registry, [get_person("Matt Groening")] followed by
    [get_person("MATT GROENING")] returns the same instance and the count is
    1 afterwards. *)
Theorem get_person_flyweight :
  (forall (a b : string) (st : Person.class_state),
      str.strip a <> "" ->
      str.lower (str.strip a) = str.lower (str.strip b) ->
      exists (p : Person.t) (st1 : Person.class_state),
        get_person (Some a) st = (Ok p, st1) /\
        get_person (Some b) st1 = (Ok p, st1) /\
        (get_person_count st1 <= get_person_count st + 1)%nat /\
        (Person._instances st !! str.lower (str.strip a) = None ->
         Person.fullname p = str.strip a /\
         get_person_count st1 = S (get_person_count st)) /\
        (forall k q, Person._instances st !! k = Some q ->
                     Person._instances st1 !! k = Some q)) /\
  (forall (a : string) (st : Person.class_state),
      str.strip a = "" ->
      get_person (Some a) st =
      (Raise (ValueError "fullname can not be empty"), st)) /\
  (exists (p : Person.t) (st1 : Person.class_state),
      get_person (Some "Matt Groening") Person.empty = (Ok p, st1) /\
      get_person (Some "MATT GROENING") st1 = (Ok p, st1) /\
      Person.fullname p = "Matt Groening" /\
      get_person_count st1 = 1%nat).
Proof.
  split_and!.
  - intros a b st Ha Hab.
    assert (str.strip b <> "") as Hb.
    { intros Hb. rewrite Hb in Hab. destruct (str.strip a); [done|].
      discriminate Hab. }
    destruct (Person._instances st !! str.lower (str.strip a)) as [p|] eqn:Hp.
    + exists p, st. split_and!.
      * by apply get_person_hit.
      * apply get_person_hit; [done|]. by rewrite <- Hab.
      * lia.
      * done.
      * done.
    + eexists _, _. split_and!.
      * by apply get_person_miss.
      * apply get_person_hit; [done|]. simpl. rewrite <- Hab.
        apply lookup_insert_eq.
      * unfold get_person_count. simpl.
        rewrite map_size_insert_None by done. lia.
      * intros _. split; [done|]. unfold get_person_count. simpl.
        by rewrite map_size_insert_None.
      * intros k q Hq. simpl. rewrite lookup_insert_ne; [done|]. congruence.
  - intros a st Ha. unfold get_person. by rewrite Ha.
  - eexists _, _. split_and!; vm_compute; reflexivity.
Qed.

(** C5. For each of the six codes, [get_rating] returns one and the same
    instance for every casing and whitespace variant of the code, on every
    call: the cache read is the one built at import (which succeeds), and no
    constructor call can change it afterwards.  A string whose trimmed, uppercased form is not one of
    the six codes makes [get_rating] raise the unknown-rating-code error. *)
Theorem get_rating_flyweight :
  (forall c : string,
      c ∈ ["NR"; "G"; "PG"; "PG-13"; "R"; "NC17"] ->
      exists r : MovieRating.t,
        MovieRating.code r = c /\
        forall v : string,
          str.upper (str.strip v) = c -> get_rating ratings (Some v) = Ok r) /\
  (forall v : string,
      str.upper (str.strip v) ∉ ["NR"; "G"; "PG"; "PG-13"; "R"; "NC17"] ->
      get_rating ratings (Some v) =
      Raise (ValueError ("Unknown rating code: " +:+ str.upper (str.strip v)))) /\
  (forall (code description : string) (st : MovieRating.class_state),
      MovieRating._instances st = MovieRating._instances ratings ->
      exists e st',
        MovieRating.new code description st = (Raise e, st') /\
        MovieRating._instances st' = MovieRating._instances ratings) /\
  rating_import.1 = Ok tt /\
  get_rating ratings (Some "pg-13") = get_rating ratings (Some "  PG-13 ") /\
  is_Ok (get_rating ratings (Some "pg-13")).
Proof.
  split_and!.
  - intros c Hc.
    destruct (proj2 (ratings_lookup_order c) Hc) as [r Hr].
    exists r. split; [by apply ratings_lookup_code in Hr|].
    intros v Hv. unfold get_rating. by rewrite Hv, Hr.
  - intros v Hv. unfold get_rating.
    destruct (MovieRating._instances ratings !! str.upper (str.strip v))
      as [r|] eqn:Hr; [|done].
    destruct Hv. apply ratings_lookup_order. by eexists.
  - apply MovieRating_new_after_import.
  - apply rating_import_ok.
  - vm_compute. reflexivity.
  - vm_compute. exact I.
Qed.

(** ** The factory *)

(** C2. [create_movie] raises only when one of the four required fields is
    empty after trimming, when the rating code is unknown, or when the genre
    is unknown (the record's own validation never fails after these).  The
    parsers of the optional fields never raise: an absent, blank or
    malformed value reads as [None], which the factory turns into the
    field's default.  So a row whose four required fields are valid always
    gives a record, whatever the other columns hold. *)
Theorem create_movie_errors (info : row) (st : Person.class_state) :
  let rt_link := str.strip (or_empty (dict_get info "rotten_tomatoes_link")) in
  let title := str.strip (or_empty (dict_get info "movie_title")) in
  let rating_code := str.strip (or_empty (dict_get info "content_rating")) in
  let genre_text := str.strip (or_empty (dict_get info "genre")) in
  (forall e st',
      create_movie info st = (Raise e, st') ->
      (rt_link = "" /\ e = ValueError "missing rotten_tomatoes_link") \/
      (title = "" /\ e = ValueError "missing movie_title") \/
      (rating_code = "" /\ e = ValueError "missing content_rating") \/
      (genre_text = "" /\ e = ValueError "missing genre") \/
      ((str.upper rating_code ∉ MovieRating._order) /\
       e = ValueError ("Unknown rating code: " +:+ str.upper rating_code)) \/
      (_GENRE_TO_CLASS !! str.upper genre_text = None /\
       e = ValueError ("unknown genre: " +:+ genre_text))) /\
  (rt_link <> "" -> title <> "" ->
   str.upper rating_code ∈ MovieRating._order ->
   is_Some (_GENRE_TO_CLASS !! str.upper genre_text) ->
   exists m st', create_movie info st = (Ok m, st')) /\
  (forall value : option string,
      is_Ok (_parse_int value) /\ is_Ok (_parse_date value) /\
      forall st0, is_Ok (_parse_directors value st0).1) /\
  (forall value : option string,
      _parse_int value = Ok (v ← value; str.int_value (str.strip v)) /\
      _parse_date value = Ok (v ← value; date.parse (str.strip v))) /\
  create_movie row_malformed Person.empty =
    (Ok (Movie.mk ScienceFictionFantasy "m/solaris" "Solaris"
           (Some (MovieRating.mk 0 "NR" "Not rated")) [] None None (Some 0)
           None None None),
     Person.empty).
Proof.
  intros rt_link title rating_code genre_text.
  destruct (create_movie_missing info st) as (M1 & M2 & M3 & M4).
  fold rt_link title rating_code genre_text in M1, M2, M3, M4.
  pose proof (create_movie_unknown_rating info st) as MR.
  pose proof (create_movie_run info st) as MG.
  fold rt_link title rating_code genre_text in MR, MG.
  pose proof (get_rating_stripped (or_empty (dict_get info "content_rating")))
    as Hget.
  fold rating_code in Hget.
  split_and!.
  - intros e st' He.
    destruct (decide (rt_link = "")) as [E1|N1];
      [rewrite M1 in He by done; left; split; [done | congruence]|].
    destruct (decide (title = "")) as [E2|N2];
      [rewrite M2 in He by done; right; left; split; [done | congruence]|].
    destruct (decide (rating_code = "")) as [E3|N3];
      [rewrite M3 in He by done; do 2 right; left;
       split; [done | congruence]|].
    destruct (decide (genre_text = "")) as [E4|N4];
      [rewrite M4 in He by done; do 3 right; left;
       split; [done | congruence]|].
    destruct (MovieRating._instances ratings !! str.upper rating_code)
      as [r|] eqn:Hr.
    + destruct (MG r N1 N2 N3 N4 Hget)
        as (ds & st1 & rd & sd & len & co & sc & cn & _ & Hrun & _).
      rewrite Hrun in He.
      destruct (_GENRE_TO_CLASS !! str.upper genre_text) as [cls|] eqn:Hg.
      * unfold Movie.new in He. rewrite __post_init___Ok in He; [done..|].
        by eexists.
      * do 5 right. split; [done | congruence].
    + rewrite (MR _ N1 N2 N3 N4 Hget) in He.
      do 4 right; left. split; [|congruence].
      rewrite <- ratings_lookup_order, Hr. by intros [? ?].
  - intros N1 N2 Hcode [cls Hg].
    apply ratings_lookup_order in Hcode as [r Hr]. rewrite Hr in Hget.
    assert (rating_code <> "") as N3.
    { intros E. rewrite E in Hr. vm_compute in Hr. done. }
    assert (genre_text <> "") as N4.
    { intros E. rewrite E in Hg. vm_compute in Hg. done. }
    destruct (MG r N1 N2 N3 N4 Hget)
      as (ds & st1 & rd & sd & len & co & sc & cn & _ & Hrun & _).
    rewrite Hrun, Hg. unfold Movie.new.
    rewrite __post_init___Ok; [by eauto | done | done | by eexists].
  - intros value. split_and!.
    + by destruct (_parse_int_total value) as [o ->].
    + by destruct (_parse_date_total value) as [o ->].
    + intros st0.
      by destruct (_parse_directors_total value st0) as (ps & st' & -> & _).
  - intros value. split; [apply _parse_int_eq | apply _parse_date_eq].
  - vm_compute. reflexivity.
Qed.

(** C10. Building a record from a row is not atomic for the person
    registry.  Once the required fields are present and the rating is known,
    [create_movie] runs [_parse_directors] before it looks at the genre: the
    registry the call leaves is the one [_parse_directors] produced, whatever
    happens afterwards.  So when the genre is unknown the call raises the
    unknown-genre error, gives no record, and still every director named in
    the row is stored under its key and counted by [get_person_count]. *)
Theorem create_movie_keeps_persons (info : row) (st : Person.class_state) :
  let rt_link := str.strip (or_empty (dict_get info "rotten_tomatoes_link")) in
  let title := str.strip (or_empty (dict_get info "movie_title")) in
  let rating_code := str.strip (or_empty (dict_get info "content_rating")) in
  let genre_text := str.strip (or_empty (dict_get info "genre")) in
  let directors := dict_get_default info "directors" "" in
  rt_link <> "" -> title <> "" ->
  str.upper rating_code ∈ MovieRating._order ->
  genre_text <> "" ->
  exists st' : Person.class_state,
    (create_movie info st).2 = st' /\
    st' = (_parse_directors directors st).2 /\
    (_GENRE_TO_CLASS !! str.upper genre_text = None ->
     create_movie info st =
       (Raise (ValueError ("unknown genre: " +:+ genre_text)), st')) /\
    (forall text name,
        directors = Some text ->
        name ∈ str.split "," (str.strip text) ->
        str.strip name <> "" ->
        is_Some (Person._instances st' !! str.lower (str.strip name))) /\
    (forall k q, Person._instances st !! k = Some q ->
                 Person._instances st' !! k = Some q) /\
    (forall k,
        k ∈ dom (Person._instances st') <->
        k ∈ dom (Person._instances st) \/
        exists text name,
          directors = Some text /\ name ∈ str.split "," (str.strip text) /\
          str.strip name <> "" /\ k = str.lower (str.strip name)) /\
    get_person_count st' = size (dom (Person._instances st')) /\
    (get_person_count st <= get_person_count st')%nat.
Proof.
  intros rt_link title rating_code genre_text directors N1 N2 Hcode N4.
  pose proof (get_rating_stripped (or_empty (dict_get info "content_rating")))
    as Hget.
  fold rating_code in Hget.
  apply ratings_lookup_order in Hcode as [r Hr]. rewrite Hr in Hget.
  assert (rating_code <> "") as N3.
  { intros E. rewrite E in Hr. vm_compute in Hr. done. }
  destruct (create_movie_run info st r N1 N2 N3 N4 Hget)
    as (ds & st1 & rd & sd & len & co & sc & cn & Hds & Hrun & _).
  fold rt_link title rating_code genre_text directors in Hrun, Hds.
  destruct (_parse_directors_total directors st)
    as (ds' & st1' & Hds' & Hkeep & Hnames & Hdom).
  rewrite Hds in Hds'. injection Hds' as <- <-.
  exists st1. split_and!.
  - rewrite Hrun. by destruct (_GENRE_TO_CLASS !! str.upper genre_text).
  - by rewrite Hds.
  - intros Hg. by rewrite Hg in Hrun.
  - intros text name Ht Hin Hne.
    destruct (Hnames text name Ht Hin Hne) as (p & _ & Hp). by eexists.
  - exact Hkeep.
  - exact Hdom.
  - unfold get_person_count. by rewrite size_dom.
  - unfold get_person_count. apply map_subseteq_size.
    apply map_subseteq_spec. exact Hkeep.
Qed.

Lemma create_movie_keeps_persons_witness :
  exists st' : Person.class_state,
    (create_movie row_unknown_genre Person.empty).2 = st' /\
    st' = (_parse_directors (Some "F. W. Murnau, Robert Eggers")
                            Person.empty).2 /\
    (_GENRE_TO_CLASS !! "HORROR-ISH" = None ->
     create_movie row_unknown_genre Person.empty =
       (Raise (ValueError "unknown genre: HORROR-ish"), st')) /\
    (forall text name,
        Some "F. W. Murnau, Robert Eggers" = Some text ->
        name ∈ str.split "," (str.strip text) ->
        str.strip name <> "" ->
        is_Some (Person._instances st' !! str.lower (str.strip name))) /\
    (forall k q, Person._instances Person.empty !! k = Some q ->
                 Person._instances st' !! k = Some q) /\
    (forall k,
        k ∈ dom (Person._instances st') <->
        k ∈ dom (Person._instances Person.empty) \/
        exists text name,
          Some "F. W. Murnau, Robert Eggers" = Some text /\
          name ∈ str.split "," (str.strip text) /\
          str.strip name <> "" /\ k = str.lower (str.strip name)) /\
    get_person_count st' = size (dom (Person._instances st')) /\
    (get_person_count Person.empty <= get_person_count st')%nat.
Proof.
  apply (create_movie_keeps_persons row_unknown_genre Person.empty).
  - vm_compute. discriminate.
  - vm_compute. discriminate.
  - by_compute.
  - vm_compute. discriminate.
Defined.

(** The registry after the failed row of the witness: two persons. *)
Example registry_after_failed_row :
  (create_movie row_unknown_genre Person.empty).1 =
    Raise (ValueError "unknown genre: HORROR-ish") /\
  get_person_count Person.empty = 0%nat /\
  get_person_count (create_movie row_unknown_genre Person.empty).2 = 2%nat.
Proof. vm_compute. done. Qed.

(** ** The queries *)

(** C3, on the code: a collection whose only record has the relevant score
    -5 (150 votes) makes the highest-score query report that no relevant
    score was found. *)
Theorem highest_score_negative_lost :
  exists (m : Movie.t) (st : Person.class_state),
    load_movies [row_negative_score] Person.empty = (Some [m], st) /\
    Movie.relevant_score m = (true, -5) /\
    menu_print_highest_score_movies [m] = NoRelevantScore.
Proof. eexists _, _. split_and!; vm_compute; reflexivity. Qed.

(** C8. The score list has 101 entries, one for each score value from 0 to
    100 in this order.  The entry for [s] counts the records whose score is
    present and equal to [s]; records without a score, or with a score
    outside 0..100 such as 150, are in no entry, so the entries add up to
    the number of records with a score that is present and in range. *)
Theorem score_list_spec (movies : list Movie.t) :
  exists buckets : list (Z * Z),
    menu_print_score_list movies = Ok buckets /\
    length buckets = 101%nat /\
    buckets.*1 = seqZ 0 101 /\
    (forall s c,
        (s, c) ∈ buckets <->
        0 <= s <= 100 /\
        c = Z.of_nat
              (length (filter (fun m => Movie.score m = Some s) movies))) /\
    (forall l1 m l2,
        movies = l1 ++ m :: l2 ->
        Movie.score m = None \/
        (exists x, Movie.score m = Some x /\ ~ 0 <= x <= 100) ->
        menu_print_score_list (l1 ++ l2) = Ok buckets) /\
    foldr Z.add 0 buckets.*2 =
    Z.of_nat (length (filter (fun m => score_in_range m = true) movies)).
Proof.
  eexists. split; [apply menu_print_score_list_eq|]. split_and!.
  - by rewrite length_fmap, length_seqZ.
  - rewrite <- list_fmap_compose.
    rewrite <- (list_fmap_id (seqZ 0 101)) at 2. by apply list_fmap_ext.
  - intros s c. rewrite list_elem_of_fmap. split.
    + intros (x & [= -> ->] & Hx%elem_of_seqZ). split; [lia | done].
    + intros [Hs ->]. exists s. split; [done|]. apply elem_of_seqZ. lia.
  - intros l1 m l2 -> Hm. rewrite menu_print_score_list_eq. f_equal.
    apply list_fmap_ext. intros _ s Hs%list_elem_of_lookup_2%elem_of_seqZ.
    f_equal. unfold count_score. rewrite !filter_app, filter_cons.
    rewrite decide_False; [done|].
    destruct Hm as [-> | (x & -> & Hx)]; [done|]. intros [= ->]. lia.
  - rewrite <- list_fmap_compose. apply sum_count_score.
Qed.

(** The sample of the specification: scores 0, 100, none and 150. *)
Example score_list_sample :
  let with_score (o : option Z) :=
    Movie.mk Drama "m/x" "X" (Movie.rating movie_alien) [] None None
             (Some 90) None o (Some 500) in
  exists buckets,
    menu_print_score_list
      [with_score (Some 0); with_score (Some 100); with_score None;
       with_score (Some 150)] = Ok buckets /\
    buckets !! 0%nat = Some (0, 1) /\
    buckets !! 100%nat = Some (100, 1) /\
    (forall i s c, buckets !! i = Some (s, c) -> i <> 0%nat -> i <> 100%nat ->
                   c = 0) /\
    foldr Z.add 0 buckets.*2 = 2.
Proof.
  eexists. split; [vm_compute; reflexivity|]. split_and!; try done.
  intros i s c Hi H0 H100.
  do 101 (destruct i as [|i]; [by simplify_eq/=|]). done.
Qed.

(** C9. The export selects exactly the records whose score is not relevant:
    no score, no vote count, or fewer than 100 votes; so it leaves out every
    record with a score and at least 100 votes.  The selection is exported
    sorted by title, ascending; when no record qualifies the operation
    reports that there is nothing to export instead of exporting an empty
    list. *)
Theorem export_selection_spec (movies : list Movie.t) :
  let not_relevant (m : Movie.t) :=
    Movie.score m = None \/ Movie.count m = None \/
    exists c, Movie.count m = Some c /\ c < 100 in
  (menu_export_movies_without_relevant_score movies = NothingToExport <->
   forall m, m ∈ movies -> ~ not_relevant m) /\
  match menu_export_movies_without_relevant_score movies with
  | NothingToExport => True
  | Export exported =>
      exported <> [] /\
      exported ≡ₚ
        filter (fun m => (Movie.relevant_score m).1 = false) movies /\
      (forall m, m ∈ exported <-> m ∈ movies /\ not_relevant m) /\
      (forall m s c, m ∈ exported -> Movie.score m = Some s ->
                     Movie.count m = Some c -> c < 100) /\
      StronglySorted
        (fun a b => String.le (Movie.title a) (Movie.title b)) exported
  end.
Proof.
  intros not_relevant.
  assert (forall m, (Movie.relevant_score m).1 = false <-> not_relevant m)
    as Hrel.
  { intros m. unfold not_relevant, Movie.relevant_score.
    destruct (Movie.score m) as [s|], (Movie.count m) as [c|]; simpl;
      try by (split; auto).
    destruct (Z.ltb_spec c 100); simpl; split.
    - intros _. right; right. by exists c.
    - done.
    - done.
    - intros [? | [? | (c' & [= <-] & ?)]]; [done | done | lia]. }
  unfold menu_export_movies_without_relevant_score.
  destruct (filter _ movies) as [|m0 l] eqn:Hsel.
  - split; [|done]. split; [|done].
    intros _ m Hm Hnr. apply Hrel in Hnr.
    assert (m ∈ filter (fun m => (Movie.relevant_score m).1 = false) movies)
      as Hin by by apply list_elem_of_filter.
    rewrite Hsel in Hin. by apply elem_of_nil in Hin.
  - split.
    { split; [done|]. intros Hnone. exfalso.
      assert (m0 ∈ filter (fun m => (Movie.relevant_score m).1 = false) movies)
        as [Hm0 Hin]%list_elem_of_filter by (rewrite Hsel; left).
      apply (Hnone m0 Hin). by apply Hrel. }
    rewrite <- Hsel.
    assert (forall m,
              m ∈ sort_by_title
                    (filter (fun m => (Movie.relevant_score m).1 = false) movies)
              <-> m ∈ movies /\ not_relevant m) as Hmem.
    { intros m. rewrite sort_by_title_perm, list_elem_of_filter, Hrel.
      tauto. }
    split_and!.
    + intros Hnil.
      pose proof (sort_by_title_perm
                    (filter (fun m => (Movie.relevant_score m).1 = false)
                            movies)) as Hperm.
      rewrite Hnil, Hsel in Hperm. by apply Permutation_nil_cons in Hperm.
    + apply sort_by_title_perm.
    + exact Hmem.
    + intros m s c Hm Hs Hc. apply Hmem in Hm as [_ Hnr].
      destruct Hnr as [? | [? | (c' & ? & ?)]]; [congruence | congruence |].
      assert (c' = c) by congruence. lia.
    + apply sort_by_title_sorted.
Qed.

(** * Further properties *)

(** ** Strings: case and whitespace *)

Section more_strings.

Lemma isspace_lower_char (c : ascii) :
  str.isspace (str.lower_char c) = str.isspace c.
Proof. by destruct c as [[] [] [] [] [] [] [] []]. Qed.

Lemma lower_truthy (s : string) : str.truthy (str.lower s) = str.truthy s.
Proof. by destruct s. Qed.

Lemma lower_lstrip (s : string) :
  str.lower (str.lstrip s) = str.lstrip (str.lower s).
Proof.
  induction s as [|c s IH]; [done|]. cbn [str.lstrip str.lower].
  rewrite isspace_lower_char. by destruct (str.isspace c).
Qed.

Lemma lower_rstrip (s : string) :
  str.lower (str.rstrip s) = str.rstrip (str.lower s).
Proof.
  induction s as [|c s IH]; [done|]. cbn [str.rstrip str.lower].
  rewrite isspace_lower_char, <- IH, lower_truthy.
  by destruct (str.isspace c && negb (str.truthy (str.rstrip s))).
Qed.

Lemma lower_strip (s : string) :
  str.lower (str.strip s) = str.strip (str.lower s).
Proof. unfold str.strip. by rewrite lower_rstrip, lower_lstrip. Qed.

(** A trimmed string that is not empty starts and ends with a character
    that is no whitespace. *)
Lemma stripped_lstrip (s : string) : str.strip s = s -> str.lstrip s = s.
Proof.
  unfold str.strip. intros Hs.
  destruct (lstrip_head s) as [He | (c & t & He & Hc)].
  - rewrite He in Hs. by rewrite <- Hs.
  - rewrite He in Hs. cbn [str.rstrip] in Hs. rewrite Hc in Hs.
    cbn [andb] in Hs. rewrite <- Hs. cbn [str.lstrip]. by rewrite Hc.
Qed.

Lemma stripped_rstrip (s : string) : str.strip s = s -> str.rstrip s = s.
Proof.
  intros Hs. rewrite <- Hs at 1. unfold str.strip.
  by rewrite rstrip_idem.
Qed.

Lemma lstrip_nonspace (c : ascii) (s : string) :
  str.isspace c = false -> str.lstrip (String c s) = String c s.
Proof. intros Hc. cbn [str.lstrip]. by rewrite Hc. Qed.

Lemma append_cons (c : ascii) (s t : string) :
  String c s +:+ t = String c (s +:+ t).
Proof. done. Qed.

Lemma rstrip_app (s t : string) :
  str.rstrip t <> "" -> str.rstrip (s +:+ t) = s +:+ str.rstrip t.
Proof.
  intros Ht. induction s as [|c s IH]; [done|].
  rewrite !append_cons. cbn [str.rstrip]. rewrite IH.
  destruct (s +:+ str.rstrip t) eqn:He.
  - destruct s; [|done]. by destruct Ht.
  - cbn [str.truthy negb]. by rewrite andb_false_r.
Qed.

Lemma lstrip_app (s t : string) :
  str.lstrip s <> "" -> str.lstrip (s +:+ t) = str.lstrip s +:+ t.
Proof.
  induction s as [|c s IH]; [done|]. rewrite append_cons. cbn [str.lstrip].
  destruct (str.isspace c); [exact IH | done].
Qed.

Lemma strip_blank_cons (s : string) : str.strip (String " " s) = str.strip s.
Proof. done. Qed.

(** [split] and [join] on pieces without the separator. *)
Lemma split_no_sep (c : ascii) (s : string) :
  str.contains c s = false -> str.split c s = [s].
Proof.
  induction s as [|c' s IH]; [done|]. cbn [str.contains str.split].
  intros [Hc Hs]%orb_false_elim. rewrite Hc, (IH Hs). done.
Qed.

Lemma split_app (c : ascii) (s t : string) :
  str.contains c s = false ->
  str.split c (s +:+ String c t) = s :: str.split c t.
Proof.
  induction s as [|c' s IH].
  - intros _. change ("" +:+ String c t) with (String c t).
    cbn [str.split]. by rewrite Ascii.eqb_refl.
  - cbn [str.contains]. intros [Hc Hs]%orb_false_elim.
    rewrite append_cons. cbn [str.split]. by rewrite Hc, (IH Hs).
Qed.

Lemma split_pieces (c : ascii) (s : string) :
  Forall (fun p => str.contains c p = false) (str.split c s).
Proof.
  induction s as [|c' s IH]; [by repeat constructor|].
  cbn [str.split]. destruct (Ascii.eqb c' c) eqn:Hc.
  - by constructor.
  - destruct (str.split c s) as [|p ps]; [by repeat constructor; cbn; rewrite Hc|].
    inversion_clear IH. constructor; [|done]. cbn. by rewrite Hc.
Qed.

Lemma contains_lstrip (c : ascii) (s : string) :
  str.contains c s = false -> str.contains c (str.lstrip s) = false.
Proof.
  induction s as [|c' s IH]; [done|]. cbn [str.lstrip].
  destruct (str.isspace c'); [|done].
  cbn [str.contains]. intros [_ Hs]%orb_false_elim. by apply IH.
Qed.

Lemma contains_rstrip (c : ascii) (s : string) :
  str.contains c s = false -> str.contains c (str.rstrip s) = false.
Proof.
  induction s as [|c' s IH]; [done|]. cbn [str.contains str.rstrip].
  intros [Hc Hs]%orb_false_elim.
  destruct (str.isspace c' && negb (str.truthy (str.rstrip s))); [done|].
  cbn [str.contains]. by rewrite Hc, IH.
Qed.

Lemma contains_strip (c : ascii) (s : string) :
  str.contains c s = false -> str.contains c (str.strip s) = false.
Proof. intros Hs. by apply contains_rstrip, contains_lstrip. Qed.

Lemma contains_lower (s : string) :
  str.contains "," s = false -> str.contains "," (str.lower s) = false.
Proof.
  induction s as [|c s IH]; [done|]. cbn [str.contains str.lower].
  intros [Hc Hs]%orb_false_elim. rewrite (IH Hs), orb_false_r.
  revert Hc. by destruct c as [[] [] [] [] [] [] [] []].
Qed.

End more_strings.

(** ** person.py: the constructor and the cache invariant *)

Section person_cache.

Implicit Types (st : Person.class_state) (p q : Person.t).

(** The three outcomes of [Person(fullname=...)]. *)
Lemma Person_new_cases (fullname : string) st :
  let key := str.lower (str.strip fullname) in
  let st1 := Person.mk_state (Person._instances st) (S (Person.allocated st)) in
  Person.new fullname st =
  if decide (fullname = "") then
    (Raise (ValueError "fullname can not be empty"), st1)
  else if decide (is_Some (Person._instances st !! key)) then
    (Raise (ValueError ("Person '" +:+ fullname +:+
                        "' already exists. Use get_person() instead.")), st1)
  else
    (Ok (Person.mk (Person.allocated st) fullname),
     Person.mk_state
       (<[key := Person.mk (Person.allocated st) fullname]>
          (Person._instances st))
       (S (Person.allocated st))).
Proof.
  intros key st1.
  unfold Person.new, Person.__post_init__, bind, gets, modify, ret, raise.
  cbn [Person.fullname Person._instances Person.allocated].
  destruct (decide (fullname = "")) as [->|Hne]; [done|].
  apply truthy_true in Hne. rewrite Hne. cbn [negb]. fold key.
  destruct (decide (is_Some (Person._instances st !! key))) as [Hin|Hin].
  - by rewrite (bool_decide_eq_true_2 _ Hin).
  - by rewrite (bool_decide_eq_false_2 _ Hin).
Qed.

Lemma person_keys_ok_empty : person_keys_ok Person.empty.
Proof. intros k p. cbn. by rewrite lookup_empty. Qed.

Lemma person_keys_ok_new (fullname : string) st :
  person_keys_ok st -> person_keys_ok (Person.new fullname st).2.
Proof.
  intros Hok. rewrite Person_new_cases.
  destruct (decide (fullname = "")); [exact Hok|].
  destruct (decide (is_Some _)); [exact Hok|].
  intros k p. cbn [snd Person._instances].
  destruct (decide (str.lower (str.strip fullname) = k)) as [<-|Hne].
  - rewrite lookup_insert_eq. by intros [= <-].
  - rewrite lookup_insert_ne by done. apply Hok.
Qed.

Lemma person_keys_ok_get_person (name : option string) st :
  person_keys_ok st -> person_keys_ok (get_person name st).2.
Proof.
  intros Hok. destruct name as [name|]; [|exact Hok].
  unfold get_person. destruct (str.truthy (str.strip name)); [|exact Hok].
  cbn [negb]. unfold bind, gets, ret. cbn [fst snd].
  destruct (Person._instances st !! str.lower (str.strip name));
    [exact Hok|].
  by apply person_keys_ok_new.
Qed.

End person_cache.

(** ** rating.py: the constructor, the cache invariant and the order *)

Section rating_cache.

Implicit Types (st : MovieRating.class_state) (r : MovieRating.t).

(** The five outcomes of [MovieRating(code=..., description=...)]. *)
Lemma MovieRating_new_cases (code description : string) st :
  let normalized := str.upper code in
  let st1 :=
    MovieRating.mk_state (MovieRating._instances st)
                         (S (MovieRating.allocated st)) in
  MovieRating.new code description st =
  if decide (code = "") then
    (Raise (ValueError "rating code can not be empty"), st1)
  else if decide (description = "") then
    (Raise (ValueError "rating description can not be empty"), st1)
  else if decide (normalized ∈ MovieRating._order) then
    if decide (is_Some (MovieRating._instances st !! normalized)) then
      (Raise (ValueError ("Rating '" +:+ normalized +:+
                          "' already exists. Use get_rating() instead.")), st1)
    else
      (Ok (MovieRating.mk (MovieRating.allocated st) code description),
       MovieRating.mk_state
         (<[normalized :=
              MovieRating.mk (MovieRating.allocated st) code description]>
            (MovieRating._instances st))
         (S (MovieRating.allocated st)))
  else
    (Raise (ValueError ("unknown rating code: " +:+ normalized)), st1).
Proof.
  intros normalized st1.
  unfold MovieRating.new, MovieRating.__post_init__, bind, gets, modify, ret,
    raise.
  cbn [MovieRating.code MovieRating.description MovieRating._instances
       MovieRating.allocated].
  destruct (decide (code = "")) as [->|Hc]; [done|].
  apply truthy_true in Hc. rewrite Hc. cbn [negb].
  destruct (decide (description = "")) as [->|Hd]; [done|].
  apply truthy_true in Hd. rewrite Hd. cbn [negb]. fold normalized.
  destruct (decide (normalized ∈ MovieRating._order)) as [Hin|Hin].
  - rewrite (bool_decide_eq_true_2 _ Hin). cbn [negb].
    destruct (decide (is_Some (MovieRating._instances st !! normalized)))
      as [Hk|Hk].
    + by rewrite (bool_decide_eq_true_2 _ Hk).
    + by rewrite (bool_decide_eq_false_2 _ Hk).
  - by rewrite (bool_decide_eq_false_2 _ Hin).
Qed.

Lemma rating_keys_ok_empty : rating_keys_ok MovieRating.empty.
Proof. intros k r. cbn. by rewrite lookup_empty. Qed.

Lemma rating_keys_ok_new (code description : string) st :
  rating_keys_ok st -> rating_keys_ok (MovieRating.new code description st).2.
Proof.
  intros Hok. rewrite MovieRating_new_cases.
  destruct (decide (code = "")); [exact Hok|].
  destruct (decide (description = "")); [exact Hok|].
  destruct (decide (_ ∈ _)) as [Hin|]; [|exact Hok].
  destruct (decide (is_Some _)); [exact Hok|].
  intros k r. cbn [snd MovieRating._instances].
  destruct (decide (str.upper code = k)) as [<-|Hne].
  - rewrite lookup_insert_eq. by intros [= <-].
  - rewrite lookup_insert_ne by done. apply Hok.
Qed.

(** The position of a code in [_order] tells the codes apart. *)
Lemma list_index_order (k : string) :
  k ∈ MovieRating._order ->
  exists i, list_index k MovieRating._order = Some i /\
            MovieRating._order !! i = Some k.
Proof.
  unfold MovieRating._order. intros Hk.
  repeat (apply elem_of_cons in Hk as [-> | Hk]; [by eexists|]).
  by apply elem_of_nil in Hk.
Qed.

Lemma _sort_index_registered st k r :
  rating_keys_ok st ->
  MovieRating._instances st !! k = Some r ->
  exists i, MovieRating._sort_index r = Ok i /\
            MovieRating._order !! i = Some k.
Proof.
  intros Hok Hr. destruct (Hok k r Hr) as [-> Hin].
  destruct (list_index_order _ Hin) as (i & Hi & Hk).
  exists i. unfold MovieRating._sort_index. by rewrite Hi.
Qed.

End rating_cache.

Section rating_bootstrap.

Implicit Types (st : MovieRating.class_state) (r : MovieRating.t).

(** One round of the loop of [_create_predefined_ratings], on a code that
    is written in capitals and belongs to [_order]. *)
Lemma predefined_round (code desc : string) st :
  code <> "" -> desc <> "" -> str.upper code = code ->
  code ∈ MovieRating._order ->
  (inst <- gets MovieRating._instances ;;
   if bool_decide (is_Some (inst !! code)) then ret tt
   else _ <- MovieRating.new code desc ;; ret tt) st =
  (Ok tt,
   if decide (is_Some (MovieRating._instances st !! code)) then st
   else MovieRating.mk_state
          (<[code := MovieRating.mk (MovieRating.allocated st) code desc]>
             (MovieRating._instances st))
          (S (MovieRating.allocated st))).
Proof.
  intros Hc Hd Hup Hin. unfold bind at 1, gets at 1. cbn [fst snd].
  destruct (decide (is_Some (MovieRating._instances st !! code))) as [Hk|Hk].
  - by rewrite (bool_decide_eq_true_2 _ Hk).
  - rewrite (bool_decide_eq_false_2 _ Hk). unfold bind, ret.
    rewrite MovieRating_new_cases, Hup.
    rewrite decide_False, decide_False, decide_True, decide_False by done.
    done.
Qed.

Lemma predefined_loop (l : list (string * string)) st :
  Forall (fun cd : string * string =>
            cd.1 <> "" /\ cd.2 <> "" /\ str.upper cd.1 = cd.1 /\
            cd.1 ∈ MovieRating._order) l ->
  rating_keys_ok st ->
  exists us st',
    mapM (fun '(code, desc) =>
            inst <- gets MovieRating._instances ;;
            if bool_decide (is_Some (inst !! code)) then ret tt
            else _ <- MovieRating.new code desc ;; ret tt) l st
    = (Ok us, st') /\
    rating_keys_ok st' /\
    (forall k r, MovieRating._instances st !! k = Some r ->
                 MovieRating._instances st' !! k = Some r) /\
    (forall cd, cd ∈ l -> is_Some (MovieRating._instances st' !! cd.1)) /\
    (forall k r, MovieRating._instances st' !! k = Some r ->
                 MovieRating._instances st !! k = Some r \/
                 (k, MovieRating.description r) ∈ l /\ MovieRating.code r = k) /\
    ((forall cd, cd ∈ l -> is_Some (MovieRating._instances st !! cd.1)) ->
     st' = st).
Proof.
  intros Hl. revert st. induction Hl as [|[code desc] l Hcd _ IH]; intros st Hok.
  - exists [], st.
    split_and!; [done | done | done | by intros cd ?%elem_of_nil
                | by left | done].
  - cbn [fst snd] in Hcd. destruct Hcd as (Hc & Hd & Hup & Hin).
    pose proof (predefined_round code desc st Hc Hd Hup Hin) as Hround.
    set (st1 := if decide (is_Some (MovieRating._instances st !! code)) then st
                else MovieRating.mk_state
                       (<[code := MovieRating.mk (MovieRating.allocated st)
                                                 code desc]>
                          (MovieRating._instances st))
                       (S (MovieRating.allocated st))) in Hround.
    assert (rating_keys_ok st1) as Hok1.
    { unfold st1. destruct (decide _); [done|].
      intros k r. cbn [MovieRating._instances].
      destruct (decide (code = k)) as [<-|Hne].
      - rewrite lookup_insert_eq. intros [= <-]. cbn [MovieRating.code].
        by rewrite Hup.
      - rewrite lookup_insert_ne by done. apply Hok. }
    assert (forall k r, MovieRating._instances st !! k = Some r ->
                        MovieRating._instances st1 !! k = Some r) as Hkeep1.
    { unfold st1. destruct (decide _) as [|Hk]; [done|].
      intros k r Hr. cbn [MovieRating._instances].
      rewrite lookup_insert_ne; [done|]. intros <-. apply Hk. by eexists. }
    assert (is_Some (MovieRating._instances st1 !! code)) as Hin1.
    { unfold st1. destruct (decide _); [done|].
      cbn [MovieRating._instances]. rewrite lookup_insert_eq. by eexists. }
    destruct (IH st1 Hok1) as (us & st' & Hmap & Hok' & Hkeep & Hall & Hnew & Hsame).
    exists (tt :: us), st'. split_and!.
    + by rewrite mapM_cons, Hround, Hmap.
    + done.
    + intros k r Hr. by apply Hkeep, Hkeep1.
    + intros cd [->|Hcd]%elem_of_cons; [|by apply Hall].
      destruct Hin1 as [r Hr]. exists r. by apply Hkeep.
    + intros k r Hr. destruct (Hnew k r Hr) as [Hr1 | [Hl' Hcode]].
      * revert Hr1. unfold st1. destruct (decide _); [by left|].
        cbn [MovieRating._instances].
        destruct (decide (code = k)) as [<-|Hne].
        -- rewrite lookup_insert_eq. intros [= <-]. right. split; [by left|done].
        -- rewrite lookup_insert_ne by done. by left.
      * right. split; [by right | done].
    + intros Hpresent.
      assert (st1 = st) as Hst1.
      { unfold st1. rewrite decide_True; [done|]. apply (Hpresent (code, desc)).
        by left. }
      rewrite Hst1 in Hsame. apply Hsame. intros cd Hcd. apply Hpresent.
      by right.
Qed.

Lemma descriptions_good :
  Forall (fun cd : string * string =>
            cd.1 <> "" /\ cd.2 <> "" /\ str.upper cd.1 = cd.1 /\
            cd.1 ∈ MovieRating._order) descriptions.
Proof.
  unfold descriptions.
  repeat (constructor; [split_and!; [done | done | done | by_compute]|]).
  constructor.
Qed.

End rating_bootstrap.

(** ** Properties of the two flyweight classes *)

(** X1. [Person(fullname=...)] raises [ValueError] for an empty name and for
    a name whose normalized key is in the cache, and then leaves the cache as
    it was; otherwise it returns a new object with the name as given, stored
    under the key, all other entries untouched.  So once [get_person] has
    answered for a name, constructing a [Person] for that name always
    raises. *)
Theorem Person_constructor_contract (fullname : string)
    (st : Person.class_state) :
  let key := str.lower (str.strip fullname) in
  ((fullname = "" \/ is_Some (Person._instances st !! key)) ->
   exists msg,
     (Person.new fullname st).1 = Raise (ValueError msg) /\
     Person._instances (Person.new fullname st).2 = Person._instances st) /\
  (fullname <> "" -> Person._instances st !! key = None ->
   exists p st',
     Person.new fullname st = (Ok p, st') /\
     Person.fullname p = fullname /\
     Person.oid p = Person.allocated st /\
     Person._instances st' = <[key := p]> (Person._instances st)) /\
  (str.strip fullname <> "" ->
   exists msg st',
     Person.new (str.strip fullname) (get_person (Some fullname) st).2
     = (Raise (ValueError msg), st')).
Proof.
  intros key. split_and!.
  - intros Hcase. rewrite Person_new_cases. fold key.
    destruct (decide (fullname = "")); [by eexists|].
    destruct (decide (is_Some (Person._instances st !! key))) as [|Hk];
      [by eexists|].
    by destruct Hcase.
  - intros Hne Hk. rewrite Person_new_cases. fold key.
    rewrite decide_False by done.
    rewrite decide_False by (rewrite Hk; by intros [? ?]).
    by eexists _, _.
  - intros Hne.
    destruct (get_person_total fullname st Hne) as (p & st1 & -> & Hp & _).
    cbn [snd]. rewrite Person_new_cases, strip_idem.
    rewrite decide_False by done.
    rewrite decide_True by (by eexists). by eexists _, _.
Qed.

Section person_steps.

Implicit Types (st : Person.class_state) (p q : Person.t).

Lemma Person_new_keeps (fullname : string) st k p :
  Person._instances st !! k = Some p ->
  Person._instances (Person.new fullname st).2 !! k = Some p.
Proof.
  intros Hp. rewrite Person_new_cases.
  destruct (decide (fullname = "")); [done|].
  destruct (decide (is_Some _)) as [|Hk]; [done|].
  cbn [snd Person._instances]. rewrite lookup_insert_ne; [done|].
  intros <-. apply Hk. by eexists.
Qed.

Lemma get_person_keeps (name : option string) st k p :
  Person._instances st !! k = Some p ->
  Person._instances (get_person name st).2 !! k = Some p.
Proof.
  intros Hp. destruct name as [name|]; [|done].
  unfold get_person. destruct (str.truthy (str.strip name)); [|done].
  cbn [negb]. unfold bind, gets, ret. cbn [fst snd].
  destruct (Person._instances st !! str.lower (str.strip name)); [done|].
  by apply Person_new_keeps.
Qed.

Lemma Person_new_size (fullname : string) st :
  (size (Person._instances (Person.new fullname st).2)
   <= S (size (Person._instances st)))%nat.
Proof.
  rewrite Person_new_cases.
  destruct (decide (fullname = "")); [cbn; lia|].
  destruct (decide (is_Some _)) as [|Hk]; [cbn; lia|].
  cbn [snd Person._instances]. rewrite map_size_insert_None; [lia|].
  by apply eq_None_not_Some.
Qed.

Lemma get_person_size (name : option string) st :
  (size (Person._instances (get_person name st).2)
   <= S (size (Person._instances st)))%nat.
Proof.
  destruct name as [name|]; [|cbn; lia].
  unfold get_person. destruct (str.truthy (str.strip name)); [|cbn; lia].
  cbn [negb]. unfold bind, gets, ret. cbn [fst snd].
  destruct (Person._instances st !! str.lower (str.strip name)); [cbn; lia|].
  apply Person_new_size.
Qed.

End person_steps.

(** X2. Whatever call is made on the person cache, a constructor call or
    [get_person], with whatever argument and outcome: every entry stays as it
    was, at most one entry is added, and every key remains the normalized
    name of the person stored under it. *)
Theorem person_cache_step (st : Person.class_state) :
  person_keys_ok st ->
  (forall fullname : string,
      let st' := (Person.new fullname st).2 in
      person_keys_ok st' /\
      (forall k p, Person._instances st !! k = Some p ->
                   Person._instances st' !! k = Some p) /\
      (get_person_count st <= get_person_count st' <= S (get_person_count st))%nat) /\
  (forall name : option string,
      let st' := (get_person name st).2 in
      person_keys_ok st' /\
      (forall k p, Person._instances st !! k = Some p ->
                   Person._instances st' !! k = Some p) /\
      (get_person_count st <= get_person_count st' <= S (get_person_count st))%nat).
Proof.
  intros Hok. split.
  - intros fullname st'. split_and!.
    + by apply person_keys_ok_new.
    + intros k p. apply Person_new_keeps.
    + apply map_subseteq_size, map_subseteq_spec. intros k p.
      apply Person_new_keeps.
    + apply Person_new_size.
  - intros name st'. split_and!.
    + by apply person_keys_ok_get_person.
    + intros k p. apply get_person_keeps.
    + apply map_subseteq_size, map_subseteq_spec. intros k p.
      apply get_person_keeps.
    + apply get_person_size.
Qed.

Lemma registry_two_keys_ok : person_keys_ok registry_two.
Proof.
  unfold registry_two. do 2 apply person_keys_ok_get_person.
  apply person_keys_ok_empty.
Qed.

Lemma person_cache_step_witness :
  (forall fullname : string,
      let st' := (Person.new fullname registry_two).2 in
      person_keys_ok st' /\
      (forall k p, Person._instances registry_two !! k = Some p ->
                   Person._instances st' !! k = Some p) /\
      (get_person_count registry_two <= get_person_count st'
       <= S (get_person_count registry_two))%nat) /\
  (forall name : option string,
      let st' := (get_person name registry_two).2 in
      person_keys_ok st' /\
      (forall k p, Person._instances registry_two !! k = Some p ->
                   Person._instances st' !! k = Some p) /\
      (get_person_count registry_two <= get_person_count st'
       <= S (get_person_count registry_two))%nat).
Proof. apply (person_cache_step registry_two), registry_two_keys_ok. Defined.

(** X3. In a cache whose keys are normalized names, [==] and [is] agree on
    the persons stored: two of them are equal by [__eq__] exactly when they
    are the same object. *)
Theorem Person_eq_same_object (st : Person.class_state) (kp kq : string)
    (p q : Person.t) :
  person_keys_ok st ->
  Person._instances st !! kp = Some p ->
  Person._instances st !! kq = Some q ->
  Person.__eq__ p q = true <-> p = q.
Proof.
  intros Hok Hp Hq. split.
  - intros Heq%bool_decide_eq_true.
    assert (kp = kq) as <-.
    { rewrite (Hok kp p Hp), (Hok kq q Hq), !lower_strip. by rewrite Heq. }
    congruence.
  - intros <-. by apply bool_decide_eq_true.
Qed.

Lemma Person_eq_same_object_witness :
  Person.__eq__ (Person.mk 0 "Matt Groening") (Person.mk 1 "Hugo Claus") = true
  <-> Person.mk 0 "Matt Groening" = Person.mk 1 "Hugo Claus".
Proof.
  apply (Person_eq_same_object registry_two "matt groening" "hugo claus").
  - apply registry_two_keys_ok.
  - vm_compute. reflexivity.
  - vm_compute. reflexivity.
Defined.

(** X4. [MovieRating(code=..., description=...)] succeeds exactly when both
    arguments are non-empty, the upper-cased code is one of the six of
    [_order] and no rating is cached under it.  The new object keeps the code
    as written and is stored under the upper-cased code; every failure is a
    [ValueError] and leaves the cache as it was. *)
Theorem MovieRating_constructor_contract (code description : string)
    (st : MovieRating.class_state) :
  let normalized := str.upper code in
  let out := MovieRating.new code description st in
  (is_Ok out.1 <->
   code <> "" /\ description <> "" /\ normalized ∈ MovieRating._order /\
   MovieRating._instances st !! normalized = None) /\
  (forall r, out.1 = Ok r ->
     MovieRating.code r = code /\ MovieRating.description r = description /\
     MovieRating.oid r = MovieRating.allocated st /\
     MovieRating._instances out.2 = <[normalized := r]> (MovieRating._instances st)) /\
  (forall e, out.1 = Raise e ->
     (exists msg, e = ValueError msg) /\
     MovieRating._instances out.2 = MovieRating._instances st).
Proof.
  intros normalized out. subst out. rewrite MovieRating_new_cases.
  fold normalized.
  destruct (decide (code = "")) as [Hc|Hc].
  { split_and!.
    - split; [intros H; by destruct H|]. by intros [? _].
    - by intros r ?.
    - intros e [= <-]. split; [by eexists | done]. }
  destruct (decide (description = "")) as [Hd|Hd].
  { split_and!.
    - split; [intros H; by destruct H|]. by intros (_ & ? & _).
    - by intros r ?.
    - intros e [= <-]. split; [by eexists | done]. }
  destruct (decide (normalized ∈ MovieRating._order)) as [Ho|Ho].
  2:{ split_and!.
    - split; [intros H; by destruct H|]. by intros (_ & _ & ? & _).
    - by intros r ?.
    - intros e [= <-]. split; [by eexists | done]. }
  destruct (decide (is_Some _)) as [Hk|Hk].
  { split_and!.
    - split; [intros H; by destruct H|]. intros (_ & _ & _ & Hn).
      rewrite Hn in Hk. by destruct Hk.
    - by intros r ?.
    - intros e [= <-]. split; [by eexists | done]. }
  split_and!.
  - split; [|done]. intros _. split_and!; try done.
    by apply eq_None_not_Some.
  - by intros r [= <-].
  - by intros e ?.
Qed.

Section rating_order.

Context (st : MovieRating.class_state) (Hok : rating_keys_ok st).

Lemma NoDup__order : NoDup MovieRating._order.
Proof. by_compute. Qed.

Lemma lt_registered k1 k2 r1 r2 :
  MovieRating._instances st !! k1 = Some r1 ->
  MovieRating._instances st !! k2 = Some r2 ->
  exists i j, MovieRating._order !! i = Some k1 /\
              MovieRating._order !! j = Some k2 /\
              MovieRating.__lt__ r1 r2 = Ok (i <? j)%nat /\
              MovieRating.__lt__ r2 r1 = Ok (j <? i)%nat /\
              (i = j <-> r1 = r2).
Proof.
  intros H1 H2.
  destruct (_sort_index_registered st k1 r1 Hok H1) as (i & Hi & Hki).
  destruct (_sort_index_registered st k2 r2 Hok H2) as (j & Hj & Hkj).
  exists i, j. unfold MovieRating.__lt__. rewrite Hi, Hj. cbn.
  split_and!; try done. split.
  - intros <-. assert (k1 = k2) as <- by congruence. congruence.
  - intros <-. congruence.
Qed.

End rating_order.

(** X5. On the ratings of a cache whose keys are the upper-cased codes of
    [_order], [<] never raises and is the strict total order of the listing
    [NR, G, PG, PG-13, R, NC17]: of [a < b], [a is b], [b < a] exactly one
    holds, [<] is transitive, and [==] holds only between an object and
    itself. *)
Theorem rating_order_strict_total (st : MovieRating.class_state)
    (k1 k2 k3 : string) (r1 r2 r3 : MovieRating.t) :
  rating_keys_ok st ->
  MovieRating._instances st !! k1 = Some r1 ->
  MovieRating._instances st !! k2 = Some r2 ->
  MovieRating._instances st !! k3 = Some r3 ->
  (exists i j,
      MovieRating._order !! i = Some k1 /\ MovieRating._order !! j = Some k2 /\
      MovieRating.__lt__ r1 r2 = Ok (bool_decide (i < j)%nat)) /\
  (MovieRating.__lt__ r1 r2 = Ok true /\ r1 <> r2 /\
     MovieRating.__lt__ r2 r1 = Ok false \/
   MovieRating.__lt__ r1 r2 = Ok false /\ r1 = r2 /\
     MovieRating.__lt__ r2 r1 = Ok false \/
   MovieRating.__lt__ r1 r2 = Ok false /\ r1 <> r2 /\
     MovieRating.__lt__ r2 r1 = Ok true) /\
  (MovieRating.__lt__ r1 r2 = Ok true -> MovieRating.__lt__ r2 r3 = Ok true ->
   MovieRating.__lt__ r1 r3 = Ok true) /\
  (MovieRating.__eq__ r1 r2 = true <-> r1 = r2).
Proof.
  intros Hok H1 H2 H3.
  destruct (lt_registered st Hok k1 k2 r1 r2 H1 H2)
    as (i & j & Hi & Hj & H12 & H21 & Hij).
  split_and!.
  - exists i, j. split_and!; try done. rewrite H12. f_equal.
    apply eq_true_iff_eq. rewrite Nat.ltb_lt, bool_decide_eq_true. done.
  - rewrite H12, H21.
    destruct (lt_eq_lt_dec i j) as [[Hlt | Heq] | Hgt].
    + left. split_and!.
      * f_equal. by apply Nat.ltb_lt.
      * intros Hr%Hij. lia.
      * f_equal. apply Nat.ltb_ge. lia.
    + right; left. split_and!.
      * f_equal. apply Nat.ltb_ge. lia.
      * by apply Hij.
      * f_equal. apply Nat.ltb_ge. lia.
    + right; right. split_and!.
      * f_equal. apply Nat.ltb_ge. lia.
      * intros Hr%Hij. lia.
      * f_equal. by apply Nat.ltb_lt.
  - destruct (lt_registered st Hok k2 k3 r2 r3 H2 H3)
      as (j' & l & Hj' & Hl & H23 & _ & _).
    destruct (lt_registered st Hok k1 k3 r1 r3 H1 H3)
      as (i' & l' & Hi' & Hl' & H13 & _ & _).
    assert (j' = j) as -> by (eapply NoDup_lookup; eauto using NoDup__order).
    assert (i' = i) as -> by (eapply NoDup_lookup; eauto using NoDup__order).
    assert (l' = l) as -> by (eapply NoDup_lookup; eauto using NoDup__order).
    rewrite H12, H23, H13. intros [= Ha%Nat.ltb_lt] [= Hb%Nat.ltb_lt].
    f_equal. apply Nat.ltb_lt. lia.
  - split.
    + intros Heq%bool_decide_eq_true.
      destruct (Hok k1 r1 H1) as [-> _]. destruct (Hok k2 r2 H2) as [-> _].
      rewrite Heq in H1. congruence.
    + intros <-. by apply bool_decide_eq_true.
Qed.

Lemma bind_run {S A B} (c : M S A) (k : A -> M S B) (s : S) :
  bind c k s = match c s with
               | (Ok a, s') => k a s'
               | (Raise e, s') => (Raise e, s')
               end.
Proof. reflexivity. Qed.

(** X6. Started from any cache whose keys are upper-cased codes of [_order]
    (the empty one at import, or one in which some ratings were made by
    hand), [_create_predefined_ratings] does not raise, keeps every rating
    already there, and leaves exactly the six codes of [_order] filled: the
    added ratings carry the predefined descriptions.  A second run changes
    nothing, and [get_rating] then succeeds exactly on the six codes, in any
    case and with surrounding blanks. *)
Theorem create_predefined_ratings_completes (st : MovieRating.class_state) :
  rating_keys_ok st ->
  exists st',
    _create_predefined_ratings st = (Ok tt, st') /\
    rating_keys_ok st' /\
    (forall k r, MovieRating._instances st !! k = Some r ->
                 MovieRating._instances st' !! k = Some r) /\
    (forall k, is_Some (MovieRating._instances st' !! k) <->
               k ∈ MovieRating._order) /\
    (forall k r, MovieRating._instances st' !! k = Some r ->
                 MovieRating._instances st !! k = None ->
                 MovieRating.code r = k /\
                 (k, MovieRating.description r) ∈ descriptions) /\
    _create_predefined_ratings st' = (Ok tt, st') /\
    (forall code : string,
        is_Ok (get_rating st' (Some code)) <->
        str.upper (str.strip code) ∈ MovieRating._order).
Proof.
  intros Hok.
  destruct (predefined_loop descriptions st descriptions_good Hok)
    as (us & st' & Hrun & Hok' & Hkeep & Hall & Hnew & _).
  assert (Hdom : forall k, is_Some (MovieRating._instances st' !! k) <->
                           k ∈ MovieRating._order).
  { intros k. split.
    - intros [r Hr]. by destruct (Hok' k r Hr).
    - intros Hk. change MovieRating._order with descriptions.*1 in Hk.
      apply list_elem_of_fmap in Hk as (cd & -> & Hcd). by apply Hall. }
  exists st'. split_and!; try done.
  - unfold _create_predefined_ratings. by rewrite bind_run, Hrun.
  - intros k r Hr Hnone. destruct (Hnew k r Hr) as [Hold | [? ?]]; [|done].
    congruence.
  - destruct (predefined_loop descriptions st' descriptions_good Hok')
      as (us' & st'' & Hrun' & _ & _ & _ & _ & Hsame).
    unfold _create_predefined_ratings. rewrite bind_run, Hrun'. cbn.
    rewrite Hsame; [done|]. intros cd Hcd. apply Hdom.
    pose proof descriptions_good as Hg. rewrite Forall_forall in Hg.
    by destruct (Hg cd Hcd) as (_ & _ & _ & ?).
  - intros code. unfold get_rating. rewrite <- Hdom.
    destruct (MovieRating._instances st' !! _); cbn.
    + split; [by eexists | done].
    + split; [done | by intros [? ?]].
Qed.

Lemma ratings_custom_pg_keys_ok : rating_keys_ok ratings_custom_pg.
Proof. apply rating_keys_ok_new, rating_keys_ok_empty. Qed.

Lemma create_predefined_ratings_completes_witness :
  exists st',
    _create_predefined_ratings ratings_custom_pg = (Ok tt, st') /\
    rating_keys_ok st' /\
    (forall k r, MovieRating._instances ratings_custom_pg !! k = Some r ->
                 MovieRating._instances st' !! k = Some r) /\
    (forall k, is_Some (MovieRating._instances st' !! k) <->
               k ∈ MovieRating._order) /\
    (forall k r, MovieRating._instances st' !! k = Some r ->
                 MovieRating._instances ratings_custom_pg !! k = None ->
                 MovieRating.code r = k /\
                 (k, MovieRating.description r) ∈ descriptions) /\
    _create_predefined_ratings st' = (Ok tt, st') /\
    (forall code : string,
        is_Ok (get_rating st' (Some code)) <->
        str.upper (str.strip code) ∈ MovieRating._order).
Proof.
  apply (create_predefined_ratings_completes ratings_custom_pg).
  apply ratings_custom_pg_keys_ok.
Defined.

(** The cache after the import satisfies the key invariant. *)
Lemma ratings_keys_ok : rating_keys_ok ratings.
Proof.
  destruct (predefined_loop descriptions MovieRating.empty descriptions_good
              rating_keys_ok_empty) as (us & st' & Hrun & Hok' & _).
  unfold ratings, rating_import, _create_predefined_ratings.
  by rewrite bind_run, Hrun.
Qed.

Lemma rating_order_strict_total_witness :
  let r1 := MovieRating.mk 2 "PG" "Parental guidance advised" in
  let r2 := MovieRating.mk 4 "R" "Under 17, parental guidance advised" in
  let r3 := MovieRating.mk 5 "NC17" "For adults only" in
  (exists i j,
      MovieRating._order !! i = Some "PG" /\ MovieRating._order !! j = Some "R" /\
      MovieRating.__lt__ r1 r2 = Ok (bool_decide (i < j)%nat)) /\
  (MovieRating.__lt__ r1 r2 = Ok true /\ r1 <> r2 /\
     MovieRating.__lt__ r2 r1 = Ok false \/
   MovieRating.__lt__ r1 r2 = Ok false /\ r1 = r2 /\
     MovieRating.__lt__ r2 r1 = Ok false \/
   MovieRating.__lt__ r1 r2 = Ok false /\ r1 <> r2 /\
     MovieRating.__lt__ r2 r1 = Ok true) /\
  (MovieRating.__lt__ r1 r2 = Ok true -> MovieRating.__lt__ r2 r3 = Ok true ->
   MovieRating.__lt__ r1 r3 = Ok true) /\
  (MovieRating.__eq__ r1 r2 = true <-> r1 = r2).
Proof.
  apply (rating_order_strict_total ratings "PG" "R" "NC17").
  - apply ratings_keys_ok.
  - vm_compute. reflexivity.
  - vm_compute. reflexivity.
  - vm_compute. reflexivity.
Defined.

(** ** movie.py: the directors of a row *)

(** X7. [_parse_directors] never raises.  Its list has one entry for each
    piece of the text between commas that is not blank, in the order of the
    text, a name that comes twice giving two entries; each entry is the
    person registered under the lowercased, trimmed piece.  When there is no
    such piece ([None], blank text, only commas) the list is empty and the
    registry is untouched. *)
Theorem parse_directors_spec (value : option string)
    (st : Person.class_state) :
  let pieces :=
    match value with
    | None => []
    | Some text =>
        filter (fun n => n <> "")
               (str.strip <$> str.split "," (str.strip text))
    end in
  exists ps st',
    _parse_directors value st = (Ok ps, st') /\
    Forall2 (fun n p => Person._instances st' !! str.lower n = Some p)
            pieces ps /\
    (forall k q, Person._instances st !! k = Some q ->
                 Person._instances st' !! k = Some q) /\
    (pieces = [] -> st' = st).
Proof.
  intros pieces. destruct value as [text|].
  2:{ exists [], st. by split_and!. }
  assert (Hpieces : pieces = filter (fun name => str.truthy name = true)
                               (str.strip <$> str.split "," (str.strip text))).
  { apply list_filter_iff. intros n. split.
    - apply truthy_true.
    - intros Hn. by apply truthy_true. }
  unfold _parse_directors.
  destruct (str.truthy (str.strip text)) eqn:Htext; cbn [negb].
  - destruct (mapM_get_person _ st (director_parts (str.strip text)))
      as (ps & st' & Hrun & Hall & Hkeep & _).
    exists ps, st'. rewrite Hpieces. split_and!; [done | | done |].
    + assert (Forall (fun n => str.strip n = n)
                (filter (fun name => str.truthy name = true)
                   (str.strip <$> str.split "," (str.strip text)))) as Hs.
      { apply Forall_forall. intros n [_ Hin]%list_elem_of_filter.
        apply list_elem_of_fmap in Hin as (piece & -> & _). apply strip_idem. }
      clear -Hall Hs. induction Hall as [|n p l k Hp _ IH]; [constructor|].
      apply Forall_cons in Hs as [Hn Hs].
      constructor; [by rewrite Hn in Hp | by apply IH].
    + intros Hnil. rewrite Hnil in Hrun. by injection Hrun.
  - exists [], st. apply truthy_false in Htext.
    assert (pieces = []) as ->; [|by split_and!].
    rewrite Hpieces, Htext. done.
Qed.

(** ** movie.py: the record a row gives *)

Section row_to_record.

Context (info : row) (st : Person.class_state).

Let rt_link := str.strip (or_empty (dict_get info "rotten_tomatoes_link")).
Let title := str.strip (or_empty (dict_get info "movie_title")).
Let rating_code := str.strip (or_empty (dict_get info "content_rating")).
Let genre_text := str.strip (or_empty (dict_get info "genre")).

(** Past the guards and the rating lookup, the call in closed form. *)
Lemma create_movie_closed (r : MovieRating.t) :
  rt_link <> "" -> title <> "" -> rating_code <> "" -> genre_text <> "" ->
  get_rating ratings (Some rating_code) = Ok r ->
  exists ds st1,
    _parse_directors (dict_get_default info "directors" "") st = (Ok ds, st1) /\
    create_movie info st =
    match _GENRE_TO_CLASS !! str.upper genre_text with
    | None => (Raise (ValueError ("unknown genre: " +:+ genre_text)), st1)
    | Some cls =>
        (Ok (Movie.mk cls rt_link title (Some r) ds
               (v ← dict_get_default info "original_release_date" "";
                date.parse (str.strip v))
               (v ← dict_get_default info "streaming_release_date" "";
                date.parse (str.strip v))
               (Some (match v ← dict_get_default info "runtime" "";
                            str.int_value (str.strip v) with
                      | Some n => if n <? 0 then 0 else n
                      | None => 0
                      end))
               (let c := str.strip (or_empty (dict_get info "production_company")) in
                if str.truthy c then Some c else None)
               (v ← dict_get_default info "audience_rating" "";
                str.int_value (str.strip v))
               (v ← dict_get_default info "audience_count" "";
                str.int_value (str.strip v))),
         st1)
    end.
Proof.
  intros N1 N2 N3 N4 Hr.
  destruct (_parse_directors_total (dict_get_default info "directors" "") st)
    as (ds & st1 & Hds & _).
  exists ds, st1. split; [done|].
  pose proof N1 as H1%truthy_true. pose proof N2 as H2%truthy_true.
  pose proof N3 as H3%truthy_true. pose proof N4 as H4%truthy_true.
  unfold create_movie. fold rt_link title rating_code genre_text.
  rewrite H1, H2, H3, H4. cbn [negb]. unfold bind, lift, raise.
  rewrite Hr, Hds, !_parse_date_eq, !_parse_int_eq.
  destruct (_GENRE_TO_CLASS !! str.upper genre_text) as [cls|];
    [|reflexivity].
  unfold Movie.new. rewrite __post_init___Ok; [|done| done |by eexists].
  cbn [Movie.length].
  destruct (v ← dict_get_default info "runtime" ""; str.int_value (str.strip v))
    as [n|]; cbn.
  - by destruct (n <? 0).
  - done.
Qed.

(** The call raises nothing but [ValueError]. *)
Lemma create_movie_raises (e : exn) (st' : Person.class_state) :
  create_movie info st = (Raise e, st') -> exists msg, e = ValueError msg.
Proof.
  intros He.
  destruct (create_movie_missing info st) as (M1 & M2 & M3 & M4).
  fold rt_link title rating_code genre_text in M1, M2, M3, M4.
  destruct (decide (rt_link = "")) as [E1|N1];
    [rewrite M1 in He by done; injection He as <- _; by eexists|].
  destruct (decide (title = "")) as [E2|N2];
    [rewrite M2 in He by done; injection He as <- _; by eexists|].
  destruct (decide (rating_code = "")) as [E3|N3];
    [rewrite M3 in He by done; injection He as <- _; by eexists|].
  destruct (decide (genre_text = "")) as [E4|N4];
    [rewrite M4 in He by done; injection He as <- _; by eexists|].
  destruct (get_rating ratings (Some rating_code)) as [r|e'] eqn:Hr.
  - destruct (create_movie_closed r N1 N2 N3 N4 Hr) as (ds & st1 & _ & Hrun).
    rewrite Hrun in He. clear Hrun.
    destruct (_GENRE_TO_CLASS !! str.upper genre_text);
      [discriminate He|]. injection He as <- _; by eexists.
  - rewrite (create_movie_unknown_rating info st e' N1 N2 N3 N4 Hr) in He.
    unfold get_rating in Hr.
    destruct (MovieRating._instances ratings !! _); [done|].
    injection Hr as <-. injection He as <- _. by eexists.
Qed.

(** The registry after the call is the one [_parse_directors] leaves, or the
    one before when the call ends earlier. *)
Lemma create_movie_registry :
  (create_movie info st).2 = st \/
  (create_movie info st).2 =
    (_parse_directors (dict_get_default info "directors" "") st).2.
Proof.
  destruct (create_movie_missing info st) as (M1 & M2 & M3 & M4).
  fold rt_link title rating_code genre_text in M1, M2, M3, M4.
  destruct (decide (rt_link = "")) as [E1|N1]; [left; by rewrite M1|].
  destruct (decide (title = "")) as [E2|N2]; [left; by rewrite M2|].
  destruct (decide (rating_code = "")) as [E3|N3]; [left; by rewrite M3|].
  destruct (decide (genre_text = "")) as [E4|N4]; [left; by rewrite M4|].
  destruct (get_rating ratings (Some rating_code)) as [r|e'] eqn:Hr.
  - destruct (create_movie_closed r N1 N2 N3 N4 Hr) as (ds & st1 & Hds & Hrun).
    right. rewrite Hrun, Hds. by destruct (_GENRE_TO_CLASS !! _).
  - left. by rewrite (create_movie_unknown_rating info st e' N1 N2 N3 N4 Hr).
Qed.

End row_to_record.

(** A successful call, taken apart: the four required columns are not
    blank, the rating and the genre are known, and the record is the closed
    form. *)
Lemma create_movie_Ok_inv (info : row) (st st' : Person.class_state)
    (m : Movie.t) :
  create_movie info st = (Ok m, st') ->
  exists r cls ds,
    MovieRating._instances ratings
      !! str.upper (str.strip (or_empty (dict_get info "content_rating")))
    = Some r /\
    _GENRE_TO_CLASS !! str.upper (str.strip (or_empty (dict_get info "genre")))
    = Some cls /\
    _parse_directors (dict_get_default info "directors" "") st = (Ok ds, st') /\
    m = Movie.mk cls
          (str.strip (or_empty (dict_get info "rotten_tomatoes_link")))
          (str.strip (or_empty (dict_get info "movie_title")))
          (Some r) ds
          (v ← dict_get_default info "original_release_date" "";
           date.parse (str.strip v))
          (v ← dict_get_default info "streaming_release_date" "";
           date.parse (str.strip v))
          (Some (match v ← dict_get_default info "runtime" "";
                       str.int_value (str.strip v) with
                 | Some n => if n <? 0 then 0 else n
                 | None => 0
                 end))
          (let c := str.strip (or_empty (dict_get info "production_company")) in
           if str.truthy c then Some c else None)
          (v ← dict_get_default info "audience_rating" "";
           str.int_value (str.strip v))
          (v ← dict_get_default info "audience_count" "";
           str.int_value (str.strip v)).
Proof.
  intros Hm.
  destruct (create_movie_missing info st) as (M1 & M2 & M3 & M4).
  destruct (decide (str.strip (or_empty (dict_get info "rotten_tomatoes_link")) = ""))
    as [E1|N1]; [rewrite M1 in Hm by done; discriminate Hm|].
  destruct (decide (str.strip (or_empty (dict_get info "movie_title")) = ""))
    as [E2|N2]; [rewrite M2 in Hm by done; discriminate Hm|].
  destruct (decide (str.strip (or_empty (dict_get info "content_rating")) = ""))
    as [E3|N3]; [rewrite M3 in Hm by done; discriminate Hm|].
  destruct (decide (str.strip (or_empty (dict_get info "genre")) = ""))
    as [E4|N4]; [rewrite M4 in Hm by done; discriminate Hm|].
  clear M1 M2 M3 M4.
  destruct (get_rating ratings
              (Some (str.strip (or_empty (dict_get info "content_rating")))))
    as [r|e] eqn:Hr.
  2:{ rewrite (create_movie_unknown_rating info st e N1 N2 N3 N4 Hr) in Hm.
      discriminate Hm. }
  destruct (create_movie_closed info st r N1 N2 N3 N4 Hr)
    as (ds & st1 & Hds & Hrun).
  rewrite Hrun in Hm. clear Hrun.
  rewrite get_rating_stripped in Hr.
  destruct (MovieRating._instances ratings !! _) as [r'|] eqn:Hr';
    [|discriminate Hr].
  injection Hr as ->.
  destruct (_GENRE_TO_CLASS
              !! str.upper (str.strip (or_empty (dict_get info "genre"))))
    as [cls|] eqn:Hg; [|discriminate Hm].
  injection Hm as <- <-. exists r, cls, ds.
  split_and!; [reflexivity | reflexivity | exact Hds | reflexivity].
Qed.

(** The directors of the record, and the registry left, are those
    [_parse_directors] gives for the column. *)
Lemma create_movie_directors (info : row) (st st' : Person.class_state)
    (m : Movie.t) :
  create_movie info st = (Ok m, st') ->
  _parse_directors (dict_get_default info "directors" "") st
  = (Ok (Movie.directors m), st').
Proof.
  intros (r & cls & ds & _ & _ & Hds & ->)%create_movie_Ok_inv. exact Hds.
Qed.

(** X8. The record [create_movie] returns, field by field: the link and the
    title are the trimmed columns; the rating is the cached object of the
    code; the class is the one [_GENRE_TO_CLASS] gives for the upper-cased
    genre; the dates and the numbers are the parsed columns, [None] when
    absent, blank or malformed; the length is the parsed runtime, 0 when
    there is none or it is negative; a blank company is [None]; and the
    directors and the registry are what [_parse_directors] gives. *)
Theorem create_movie_record (info : row) (st st' : Person.class_state)
    (m : Movie.t) :
  create_movie info st = (Ok m, st') ->
  Movie.rt_link m = str.strip (or_empty (dict_get info "rotten_tomatoes_link")) /\
  Movie.title m = str.strip (or_empty (dict_get info "movie_title")) /\
  (exists r,
      Movie.rating m = Some r /\
      MovieRating._instances ratings
        !! str.upper (str.strip (or_empty (dict_get info "content_rating")))
      = Some r) /\
  _GENRE_TO_CLASS !! str.upper (str.strip (or_empty (dict_get info "genre")))
    = Some (Movie.__class__ m) /\
  _parse_directors (dict_get_default info "directors" "") st
    = (Ok (Movie.directors m), st') /\
  Movie.release_date m =
    (v ← dict_get_default info "original_release_date" "";
     date.parse (str.strip v)) /\
  Movie.streaming_date m =
    (v ← dict_get_default info "streaming_release_date" "";
     date.parse (str.strip v)) /\
  Movie.length m =
    Some (match v ← dict_get_default info "runtime" "";
                str.int_value (str.strip v) with
          | Some n => if n <? 0 then 0 else n
          | None => 0
          end) /\
  Movie.company m =
    (let c := str.strip (or_empty (dict_get info "production_company")) in
     if str.truthy c then Some c else None) /\
  Movie.score m =
    (v ← dict_get_default info "audience_rating" "";
     str.int_value (str.strip v)) /\
  Movie.count m =
    (v ← dict_get_default info "audience_count" "";
     str.int_value (str.strip v)).
Proof.
  intros (r & cls & ds & Hr & Hg & Hds & ->)%create_movie_Ok_inv.
  cbn [Movie.rt_link Movie.title Movie.rating Movie.__class__ Movie.directors
       Movie.release_date Movie.streaming_date Movie.length Movie.company
       Movie.score Movie.count].
  split_and!; try reflexivity; try assumption.
  exists r. split; [reflexivity | exact Hr].
Qed.

Lemma create_movie_record_witness :
  Movie.rt_link movie_alien
    = str.strip (or_empty (dict_get row_alien "rotten_tomatoes_link")) /\
  Movie.title movie_alien
    = str.strip (or_empty (dict_get row_alien "movie_title")) /\
  (exists r,
      Movie.rating movie_alien = Some r /\
      MovieRating._instances ratings
        !! str.upper (str.strip (or_empty (dict_get row_alien "content_rating")))
      = Some r) /\
  _GENRE_TO_CLASS !! str.upper (str.strip (or_empty (dict_get row_alien "genre")))
    = Some (Movie.__class__ movie_alien) /\
  _parse_directors (dict_get_default row_alien "directors" "") Person.empty
    = (Ok (Movie.directors movie_alien),
       (create_movie row_alien Person.empty).2) /\
  Movie.release_date movie_alien =
    (v ← dict_get_default row_alien "original_release_date" "";
     date.parse (str.strip v)) /\
  Movie.streaming_date movie_alien =
    (v ← dict_get_default row_alien "streaming_release_date" "";
     date.parse (str.strip v)) /\
  Movie.length movie_alien =
    Some (match v ← dict_get_default row_alien "runtime" "";
                str.int_value (str.strip v) with
          | Some n => if n <? 0 then 0 else n
          | None => 0
          end) /\
  Movie.company movie_alien =
    (let c := str.strip (or_empty (dict_get row_alien "production_company")) in
     if str.truthy c then Some c else None) /\
  Movie.score movie_alien =
    (v ← dict_get_default row_alien "audience_rating" "";
     str.int_value (str.strip v)) /\
  Movie.count movie_alien =
    (v ← dict_get_default row_alien "audience_count" "";
     str.int_value (str.strip v)).
Proof.
  apply (create_movie_record row_alien Person.empty
           (create_movie row_alien Person.empty).2 movie_alien).
  vm_compute. reflexivity.
Defined.

(** ** movie.py: the predicates on loaded records *)

(** X9. [is_short] and [is_cosy] on a record the factory has built never
    fail for want of a length.  A row whose runtime is absent, blank or
    malformed gives a film of length 0: it counts as short, and as a Romance
    it is not cosy.  On a record of another class [is_cosy] raises
    [AttributeError]. *)
Theorem is_short_loaded (info : row) (st st' : Person.class_state)
    (m : Movie.t) :
  create_movie info st = (Ok m, st') ->
  let runtime :=
    v ← dict_get_default info "runtime" ""; str.int_value (str.strip v) in
  Movie.is_short m
    = Ok (match runtime with Some n => n <? 30 | None => true end) /\
  (Movie.__class__ m = Romance ->
   Romance.is_cosy m
     = Ok (match runtime with
           | Some n => (70 <=? n) && (n <=? 100)
           | None => false
           end)) /\
  (Movie.__class__ m <> Romance ->
   exists msg, Romance.is_cosy m = Raise (AttributeError msg)).
Proof.
  intros (r & cls & ds & _ & _ & _ & ->)%create_movie_Ok_inv runtime.
  unfold Movie.is_short, Romance.is_cosy. cbn [Movie.length Movie.__class__].
  fold runtime. split_and!.
  - destruct runtime as [n|]; [|done].
    destruct (Z.ltb_spec n 0); [|done]. f_equal. symmetry. apply Z.ltb_lt. lia.
  - intros ->. rewrite decide_True by done.
    destruct runtime as [n|]; [|done].
    destruct (Z.ltb_spec n 0); [|done]. f_equal. symmetry.
    apply andb_false_iff. left. apply Z.leb_gt. lia.
  - intros Hc. rewrite decide_False by done. by eexists.
Qed.

Lemma is_short_loaded_witness :
  let runtime :=
    v ← dict_get_default row_malformed "runtime" "";
    str.int_value (str.strip v) in
  let m := Movie.mk ScienceFictionFantasy "m/solaris" "Solaris"
             (Some (MovieRating.mk 0 "NR" "Not rated")) [] None None (Some 0)
             None None None in
  Movie.is_short m
    = Ok (match runtime with Some n => n <? 30 | None => true end) /\
  (Movie.__class__ m = Romance ->
   Romance.is_cosy m
     = Ok (match runtime with
           | Some n => (70 <=? n) && (n <=? 100)
           | None => false
           end)) /\
  (Movie.__class__ m <> Romance ->
   exists msg, Romance.is_cosy m = Raise (AttributeError msg)).
Proof.
  apply (is_short_loaded row_malformed Person.empty Person.empty).
  vm_compute. reflexivity.
Defined.

(** X10. What [is_classic] and [is_slapstick] come to, through
    [relevant_score]: a classic is released at least 20 calendar years ago
    and has at least 100 votes and a score of 80 or more; a slapstick is a
    Comedy with at least 100 votes and a score below 40.  A film without a
    relevant score is neither, although the score [relevant_score] reports
    for it, 0, is below 40.  On a record that is not a Comedy [is_slapstick]
    raises [AttributeError]. *)
Theorem classic_and_slapstick_spec (today_year : Z) (m : Movie.t) :
  (Movie.is_classic today_year m = true <->
   exists d s c,
     Movie.release_date m = Some d /\ 20 <= today_year - date.year d /\
     Movie.score m = Some s /\ Movie.count m = Some c /\
     100 <= c /\ 80 <= s) /\
  (Comedy.is_slapstick m = Ok true <->
   Movie.__class__ m = Comedy /\
   exists s c,
     Movie.score m = Some s /\ Movie.count m = Some c /\
     100 <= c /\ s < 40) /\
  ((Movie.relevant_score m).1 = false ->
   Movie.is_classic today_year m = false /\ Comedy.is_slapstick m <> Ok true) /\
  (Movie.__class__ m <> Comedy ->
   exists msg, Comedy.is_slapstick m = Raise (AttributeError msg)) /\
  ~ (Movie.is_classic today_year m = true /\ Comedy.is_slapstick m = Ok true).
Proof.
  assert (Hclassic : Movie.is_classic today_year m = true <->
    exists d s c,
      Movie.release_date m = Some d /\ 20 <= today_year - date.year d /\
      Movie.score m = Some s /\ Movie.count m = Some c /\
      100 <= c /\ 80 <= s).
  { unfold Movie.is_classic, Movie.relevant_score.
    destruct (Movie.release_date m) as [d|].
    2:{ split; [done | by intros (d & s & c & ? & _)]. }
    destruct (Z.ltb_spec (today_year - date.year d) 20).
    { split; [done|]. intros (d' & s & c & [= <-] & ? & _). lia. }
    destruct (Movie.score m) as [s|].
    2:{ split; [done | by intros (d' & s & c & _ & _ & ? & _)]. }
    destruct (Movie.count m) as [c|].
    2:{ split; [done | by intros (d' & s' & c & _ & _ & _ & ? & _)]. }
    destruct (Z.ltb_spec c 100); cbn [andb].
    { split; [done|]. intros (d' & s' & c' & _ & _ & _ & [= <-] & ? & _). lia. }
    split.
    - intros ?%Z.geb_le. exists d, s, c. split_and!; try done; lia.
    - intros (d' & s' & c' & _ & _ & [= <-] & _ & _ & ?). apply Z.geb_le. lia. }
  assert (Hslap : Comedy.is_slapstick m = Ok true <->
    Movie.__class__ m = Comedy /\
    exists s c,
      Movie.score m = Some s /\ Movie.count m = Some c /\
      100 <= c /\ s < 40).
  { unfold Comedy.is_slapstick, Movie.relevant_score.
    destruct (decide (Movie.__class__ m = Comedy)) as [Hc|Hc].
    2:{ split; [done | by intros [? _]]. }
    destruct (Movie.score m) as [s|].
    2:{ split; [done | by intros (_ & s & c & ? & _)]. }
    destruct (Movie.count m) as [c|].
    2:{ split; [done | by intros (_ & s' & c & _ & ? & _)]. }
    destruct (Z.ltb_spec c 100); cbn [andb].
    { split; [done|]. intros (_ & s' & c' & _ & [= <-] & ? & _). lia. }
    split.
    - intros [= ?%Z.ltb_lt]. split; [done|]. exists s, c.
      split_and!; try done; lia.
    - intros (_ & s' & c' & [= <-] & _ & _ & ?). f_equal. apply Z.ltb_lt. lia. }
  split_and!; [done | done | | |].
  - intros Hrel. split.
    + apply not_true_is_false. intros (d & s & c & _ & _ & Hs & Hc & ? & _)%Hclassic.
      unfold Movie.relevant_score in Hrel. rewrite Hs, Hc in Hrel.
      destruct (Z.ltb_spec c 100); [lia | done].
    + intros (_ & s & c & Hs & Hc & ? & _)%Hslap.
      unfold Movie.relevant_score in Hrel. rewrite Hs, Hc in Hrel.
      destruct (Z.ltb_spec c 100); [lia | done].
  - intros Hc. unfold Comedy.is_slapstick. rewrite decide_False by done.
    by eexists.
  - intros [(d & s & c & _ & _ & Hs & _ & _ & ?)%Hclassic
            (_ & s' & c' & Hs' & _ & _ & ?)%Hslap].
    rewrite Hs in Hs'. injection Hs' as <-. lia.
Qed.

(** ** eval_02.py: loading *)

Section loading.

Implicit Types (st : Person.class_state) (rows : list row)
  (movies : list Movie.t).

Lemma create_movie_keeps (info : row) st k p :
  Person._instances st !! k = Some p ->
  Person._instances (create_movie info st).2 !! k = Some p.
Proof.
  intros Hp. destruct (create_movie_registry info st) as [-> | ->]; [done|].
  destruct (_parse_directors_total (dict_get_default info "directors" "") st)
    as (ps & st1 & -> & Hkeep & _).
  by apply Hkeep.
Qed.

(** The loop from any point on: it ends normally, each row has added a movie
    or an error, the movies are added behind the ones already there, in the
    order of their rows, and the registry has only grown. *)
Lemma load_rows_run rows movies (errors : nat) st :
  exists added skipped st',
    load_rows rows movies errors st
    = (Ok (movies ++ added, (errors + skipped)%nat), st') /\
    (length added + skipped)%nat = length rows /\
    (exists rows', rows' `sublist_of` rows /\
       Forall2 (fun r m => exists st0 st1, create_movie r st0 = (Ok m, st1))
               rows' added) /\
    (forall k p, Person._instances st !! k = Some p ->
                 Person._instances st' !! k = Some p).
Proof.
  revert movies errors st.
  induction rows as [|r rows IH]; intros movies errors st.
  - exists [], O, st. cbn. rewrite app_nil_r, Nat.add_0_r.
    split_and!; try done. exists []. by split.
  - cbn [load_rows].
    destruct (create_movie r st) as [[m|e] st1] eqn:Hm.
    + destruct (IH (movies ++ [m]) errors st1)
        as (added & skipped & st' & -> & Hlen & (rows' & Hsub & Hall) & Hkeep).
      exists (m :: added), skipped, st'. rewrite <- app_assoc. cbn.
      split_and!; [done | lia | |].
      * exists (r :: rows'). split; [by apply sublist_skip|].
        apply Forall2_cons. split; [by eexists _, _ | done].
      * intros k p Hp. apply Hkeep.
        replace st1 with (create_movie r st).2 by by rewrite Hm.
        by apply create_movie_keeps.
    + destruct (create_movie_raises r st e st1 Hm) as [msg ->].
      destruct (IH movies (S errors) st1)
        as (added & skipped & st' & -> & Hlen & (rows' & Hsub & Hall) & Hkeep).
      exists added, (S skipped), st'.
      split_and!; [do 3 f_equal; lia | cbn; lia | |].
      * exists rows'. split; [by apply sublist_cons | done].
      * intros k p Hp. apply Hkeep.
        replace st1 with (create_movie r st).2 by by rewrite Hm.
        by apply create_movie_keeps.
Qed.

End loading.

(** X11. Once the file is open, [load_movies] never gives up: whatever the
    rows hold, it returns a list, and the outer handler is never reached.
    Every row has given a movie or has been counted as an error, so the
    number menu option 1 prints and the errors add up to the number of rows;
    the movies come from rows of the file, in the order of those rows;
    persons already registered stay registered. *)
Theorem load_movies_never_aborts (rows : list row) (st : Person.class_state) :
  exists movies errors st',
    load_rows rows [] O st = (Ok (movies, errors), st') /\
    load_movies rows st = (Some movies, st') /\
    (menu_print_movie_count movies + errors)%nat = length rows /\
    (exists rows', rows' `sublist_of` rows /\
       Forall2 (fun r m => exists st0 st1, create_movie r st0 = (Ok m, st1))
               rows' movies) /\
    (forall k p, Person._instances st !! k = Some p ->
                 Person._instances st' !! k = Some p).
Proof.
  destruct (load_rows_run rows [] O st)
    as (added & skipped & st' & Hrun & Hlen & Hrows & Hkeep).
  exists added, skipped, st'. cbn in Hrun.
  split_and!; try done. unfold load_movies. by rewrite Hrun.
Qed.

Section interning.

Implicit Types (st : Person.class_state) (p d : Person.t).

Lemma mapM_get_person_keys_ok (names : list string) st ps st' :
  person_keys_ok st ->
  mapM (fun name => get_person (Some name)) names st = (Ok ps, st') ->
  person_keys_ok st'.
Proof.
  revert st ps. induction names as [|n names IH]; intros st ps Hok.
  - by intros [= _ <-].
  - cbn [mapM]. rewrite bind_run.
    pose proof (person_keys_ok_get_person (Some n) st Hok) as Hok1.
    destruct (get_person (Some n) st) as [[p|e] st1]; [|done].
    rewrite bind_run.
    destruct (mapM _ names st1) as [[ps'|e] st2] eqn:Hrest; [|done].
    intros [= _ <-]. by eapply IH.
Qed.

Lemma _parse_directors_interned (value : option string) st ps st' :
  person_keys_ok st ->
  _parse_directors value st = (Ok ps, st') ->
  person_keys_ok st' /\
  Forall (fun d => Person._instances st'
                     !! str.lower (str.strip (Person.fullname d)) = Some d) ps.
Proof.
  intros Hok. destruct value as [value|]; [|by intros [= <- <-]].
  unfold _parse_directors.
  destruct (str.truthy (str.strip value)); [|by intros [= <- <-]].
  cbn [negb]. intros Hrun.
  pose proof (mapM_get_person_keys_ok _ _ _ _ Hok Hrun) as Hok'.
  split; [done|].
  destruct (mapM_get_person _ st (director_parts (str.strip value)))
    as (ps' & st'' & Hrun' & Hall & _).
  rewrite Hrun in Hrun'. injection Hrun' as <- <-.
  apply Forall2_Forall_r with (1 := Hall). apply Forall_forall.
  intros n _ p Hp. by rewrite <- (Hok' _ _ Hp).
Qed.

Lemma create_movie_interned (info : row) st m st' :
  person_keys_ok st ->
  create_movie info st = (Ok m, st') ->
  Forall (fun d => Person._instances st'
                     !! str.lower (str.strip (Person.fullname d)) = Some d)
         (Movie.directors m).
Proof.
  intros Hok Hm%create_movie_directors.
  by eapply _parse_directors_interned.
Qed.

Lemma create_movie_keys_ok (info : row) st :
  person_keys_ok st -> person_keys_ok (create_movie info st).2.
Proof.
  intros Hok. destruct (create_movie_registry info st) as [-> | ->]; [done|].
  destruct (_parse_directors_total (dict_get_default info "directors" "") st)
    as (ps & st1 & Hrun & _).
  rewrite Hrun. by eapply _parse_directors_interned.
Qed.

(** A property [I] of the registry that every call of the factory keeps,
    and a property [Q] of a record in a registry that the factory
    establishes and later calls keep, hold when the loop ends. *)
Lemma load_rows_inv (I : Person.class_state -> Prop)
    (Q : Person.class_state -> Movie.t -> Prop) :
  (forall info st, I st -> I (create_movie info st).2) ->
  (forall info st m st', I st -> create_movie info st = (Ok m, st') -> Q st' m) ->
  (forall info st m, I st -> Q st m -> Q (create_movie info st).2 m) ->
  forall (rows : list row) (movies movies' : list Movie.t)
         (errors errors' : nat) st st',
    I st -> Forall (Q st) movies ->
    load_rows rows movies errors st = (Ok (movies', errors'), st') ->
    I st' /\ Forall (Q st') movies'.
Proof.
  intros HI Hnew Hkeep rows.
  induction rows as [|r rows IH]; intros movies movies' errors errors' st st'
    Hst Hall.
  - by intros [= <- _ <-].
  - cbn [load_rows].
    pose proof (HI r st Hst) as Hst1.
    pose proof (fun m => Hkeep r st m Hst) as Hkeep1.
    pose proof (fun m st' => Hnew r st m st' Hst) as Hnew1.
    destruct (create_movie r st) as [[m|e] st1] eqn:Hm.
    + apply IH; [done|]. apply Forall_app. split.
      * eapply Forall_impl; [exact Hall|]. intros m0 Hm0. by apply Hkeep1.
      * apply Forall_singleton. by apply Hnew1.
    + destruct e; try done. apply IH; [done|].
      eapply Forall_impl; [exact Hall|]. intros m0 Hm0. by apply Hkeep1.
Qed.

Lemma load_rows_interned (rows : list row) (movies' : list Movie.t)
    (errors' : nat) st st' :
  person_keys_ok st ->
  load_rows rows [] O st = (Ok (movies', errors'), st') ->
  person_keys_ok st' /\
  Forall (fun m =>
            Forall (fun d => Person._instances st'
                               !! str.lower (str.strip (Person.fullname d))
                             = Some d) (Movie.directors m)) movies'.
Proof.
  intros Hok.
  apply (load_rows_inv person_keys_ok
           (fun st m =>
              Forall (fun d => Person._instances st
                                 !! str.lower (str.strip (Person.fullname d))
                               = Some d) (Movie.directors m)));
    [| | |done|constructor].
  - apply create_movie_keys_ok.
  - intros info st0 m st1 Hst Hm. by eapply create_movie_interned.
  - intros info st0 m Hst Hm. eapply Forall_impl; [exact Hm|].
    intros d Hd. by apply create_movie_keeps.
Qed.

End interning.

(** X12. When loading starts from a registry whose keys are normalized names
    (the empty one of a fresh program), every director of every loaded movie
    is the registered object of their name, and the registry keeps its
    shape.  So two directors anywhere in the collection that are equal by
    [==] are one and the same object. *)
Theorem loaded_directors_interned (rows : list row)
    (st st' : Person.class_state) (movies : list Movie.t) :
  person_keys_ok st ->
  load_movies rows st = (Some movies, st') ->
  person_keys_ok st' /\
  (forall m d, m ∈ movies -> d ∈ Movie.directors m ->
     Person._instances st' !! str.lower (str.strip (Person.fullname d))
     = Some d) /\
  (forall m1 m2 d1 d2,
     m1 ∈ movies -> m2 ∈ movies ->
     d1 ∈ Movie.directors m1 -> d2 ∈ Movie.directors m2 ->
     Person.__eq__ d1 d2 = true -> d1 = d2).
Proof.
  intros Hok. unfold load_movies.
  destruct (load_rows rows [] O st) as [[[ms errors]|e] st1] eqn:Hrun;
    [|done].
  intros [= <- <-].
  destruct (load_rows_interned rows ms errors st st1 Hok Hrun)
    as [Hok' Hall].
  assert (Hreg : forall m d, m ∈ ms -> d ∈ Movie.directors m ->
            Person._instances st1 !! str.lower (str.strip (Person.fullname d))
            = Some d).
  { intros m d Hm Hd. rewrite Forall_forall in Hall.
    specialize (Hall m Hm). rewrite Forall_forall in Hall. by apply Hall. }
  split_and!; try done.
  intros m1 m2 d1 d2 Hm1 Hm2 Hd1 Hd2 Heq%bool_decide_eq_true.
  pose proof (Hreg m1 d1 Hm1 Hd1) as H1.
  pose proof (Hreg m2 d2 Hm2 Hd2) as H2.
  rewrite !lower_strip, Heq in H1. rewrite !lower_strip in H2. congruence.
Qed.

Lemma loaded_directors_interned_witness :
  person_keys_ok sample_registry /\
  (forall m d, m ∈ sample_movies -> d ∈ Movie.directors m ->
     Person._instances sample_registry
       !! str.lower (str.strip (Person.fullname d)) = Some d) /\
  (forall m1 m2 d1 d2,
     m1 ∈ sample_movies -> m2 ∈ sample_movies ->
     d1 ∈ Movie.directors m1 -> d2 ∈ Movie.directors m2 ->
     Person.__eq__ d1 d2 = true -> d1 = d2).
Proof.
  apply (loaded_directors_interned sample_rows Person.empty).
  - apply person_keys_ok_empty.
  - vm_compute. reflexivity.
Defined.

(** ** eval_02.py: the number of persons after loading *)

Section person_count.

Implicit Types (st : Person.class_state) (info : row) (k : string).

(** The keys one row can add: the row gets as far as its directors, and the
    key is the normalized form of a piece of the column that is not
    blank. *)
Let names_key info k : Prop :=
  (str.strip (or_empty (dict_get info "rotten_tomatoes_link")) <> "" /\
   str.strip (or_empty (dict_get info "movie_title")) <> "" /\
   str.upper (str.strip (or_empty (dict_get info "content_rating")))
     ∈ MovieRating._order /\
   str.strip (or_empty (dict_get info "genre")) <> "") /\
  exists text name,
    dict_get_default info "directors" "" = Some text /\
    name ∈ str.split "," (str.strip text) /\
    str.strip name <> "" /\ k = str.lower (str.strip name).

Lemma create_movie_dom info st k :
  k ∈ dom (Person._instances (create_movie info st).2) <->
  k ∈ dom (Person._instances st) \/ names_key info k.
Proof.
  unfold names_key.
  destruct (create_movie_missing info st) as (M1 & M2 & M3 & M4).
  destruct (decide (str.strip (or_empty (dict_get info "rotten_tomatoes_link")) = ""))
    as [E1|N1].
  { rewrite M1 by done. cbn [snd]. split; [by left|].
    by intros [? | [(? & _) _]]. }
  destruct (decide (str.strip (or_empty (dict_get info "movie_title")) = ""))
    as [E2|N2].
  { rewrite M2 by done. cbn [snd]. split; [by left|].
    by intros [? | [(_ & ? & _) _]]. }
  destruct (decide (str.strip (or_empty (dict_get info "content_rating")) = ""))
    as [E3|N3].
  { rewrite M3 by done. cbn [snd]. split; [by left|].
    intros [? | [(_ & _ & Hin & _) _]]; [done|].
    rewrite E3 in Hin. exfalso. revert Hin. by_compute. }
  destruct (decide (str.strip (or_empty (dict_get info "genre")) = ""))
    as [E4|N4].
  { rewrite M4 by done. cbn [snd]. split; [by left|].
    by intros [? | [(_ & _ & _ & ?) _]]. }
  clear M1 M2 M3 M4.
  pose proof (get_rating_stripped (or_empty (dict_get info "content_rating")))
    as Hget.
  destruct (MovieRating._instances ratings
              !! str.upper (str.strip (or_empty (dict_get info "content_rating"))))
    as [r|] eqn:Hr.
  - destruct (create_movie_closed info st r N1 N2 N3 N4 Hget)
      as (ds & st1 & Hds & Hrun).
    destruct (_parse_directors_total (dict_get_default info "directors" "") st)
      as (ps & st2 & Hds' & _ & _ & Hdom).
    rewrite Hds in Hds'. injection Hds' as <- <-.
    assert ((create_movie info st).2 = st1) as ->.
    { rewrite Hrun.
      by destruct (_GENRE_TO_CLASS
                     !! str.upper (str.strip (or_empty (dict_get info "genre")))). }
    rewrite Hdom. split.
    + intros [? | Hnew]; [by left|]. right. split; [|exact Hnew].
      split_and!; [exact N1 | exact N2 | | exact N4].
      apply ratings_lookup_order. exists r. exact Hr.
    + intros [? | [_ Hnew]]; [by left | by right].
  - rewrite (create_movie_unknown_rating info st _ N1 N2 N3 N4 Hget).
    cbn [snd]. split; [by left|].
    intros [? | [(_ & _ & Hin & _) _]]; [done|].
    apply ratings_lookup_order in Hin as [r' Hr']. congruence.
Qed.

(** The registry the loop leaves is the one the calls of the factory leave,
    row after row, whatever their outcome. *)
Lemma load_rows_registry (rows : list row) (movies : list Movie.t)
    (errors : nat) st :
  (load_rows rows movies errors st).2
  = fold_left (fun st info => (create_movie info st).2) rows st.
Proof.
  revert movies errors st.
  induction rows as [|r rows IH]; intros movies errors st; [done|].
  cbn [load_rows fold_left].
  destruct (create_movie r st) as [[m|e] st1] eqn:Hm; cbn [snd].
  - apply IH.
  - destruct (create_movie_raises r st e st1 Hm) as [msg ->]. apply IH.
Qed.

Lemma load_movies_registry (rows : list row) st :
  (load_movies rows st).2
  = fold_left (fun st info => (create_movie info st).2) rows st.
Proof.
  rewrite <- (load_rows_registry rows [] O st). unfold load_movies.
  by destruct (load_rows rows [] O st) as [[[ms errors]|e] st1].
Qed.

Lemma fold_create_movie_dom (rows : list row) st k :
  k ∈ dom (Person._instances
             (fold_left (fun st info => (create_movie info st).2) rows st)) <->
  k ∈ dom (Person._instances st) \/
  exists info, info ∈ rows /\ names_key info k.
Proof.
  revert st. induction rows as [|r rows IH]; intros st; cbn [fold_left].
  - split; [by left|]. by intros [? | (info & ?%elem_of_nil & _)].
  - rewrite IH, create_movie_dom. split.
    + intros [[? | Hr] | (info & Hin & Hk)].
      * by left.
      * right. exists r. split; [by left | done].
      * right. exists info. split; [by right | done].
    + intros [? | (info & [-> | Hin]%elem_of_cons & Hk)].
      * by do 2 left.
      * left. by right.
      * right. by exists info.
Qed.

End person_count.

(** X13. The number menu option 3 prints after loading.  The registry holds
    the keys it had before and, for every row whose link, title and genre
    are not blank and whose rating code is one of the six, the lowercased
    trimmed form of every piece of the [directors] column that is not blank;
    the number printed is the number of these keys.  Rows rejected for an
    unknown genre count, rows rejected earlier do not. *)
Theorem person_count_after_load (rows : list row) (st : Person.class_state) :
  let st' := (load_movies rows st).2 in
  (forall k : string,
      k ∈ dom (Person._instances st') <->
      k ∈ dom (Person._instances st) \/
      exists info,
        info ∈ rows /\
        (str.strip (or_empty (dict_get info "rotten_tomatoes_link")) <> "" /\
         str.strip (or_empty (dict_get info "movie_title")) <> "" /\
         str.upper (str.strip (or_empty (dict_get info "content_rating")))
           ∈ MovieRating._order /\
         str.strip (or_empty (dict_get info "genre")) <> "") /\
        exists text name,
          dict_get_default info "directors" "" = Some text /\
          name ∈ str.split "," (str.strip text) /\
          str.strip name <> "" /\ k = str.lower (str.strip name)) /\
  menu_print_person_count st' = size (dom (Person._instances st')).
Proof.
  intros st'. split.
  - intros k. unfold st'. rewrite load_movies_registry.
    apply fold_create_movie_dom.
  - unfold menu_print_person_count, get_person_count. by rewrite size_dom.
Qed.

(** ** Loaded collections *)

Section loaded.

Lemma loaded_invariant (rows : list row) (st st' : Person.class_state)
    (movies : list Movie.t) :
  load_movies rows st = (Some movies, st') -> Forall movie_invariant movies.
Proof.
  unfold load_movies.
  destruct (load_rows rows [] O st) as [[[ms errors]|e] st1] eqn:Hrun;
    [|done].
  intros [= <- <-]. eapply load_rows_invariant; [|exact Hrun]. constructor.
Qed.

Lemma loaded_ratings (rows : list row) (st st' : Person.class_state)
    (movies : list Movie.t) :
  load_movies rows st = (Some movies, st') ->
  Forall (fun m => exists k r, Movie.rating m = Some r /\
                     MovieRating._instances ratings !! k = Some r) movies.
Proof.
  unfold load_movies.
  destruct (load_rows rows [] O st) as [[[ms errors]|e] st1] eqn:Hrun;
    [|done].
  intros [= <- <-].
  refine (proj2 (load_rows_inv (fun _ => True)
            (fun _ m => exists k r, Movie.rating m = Some r /\
                          MovieRating._instances ratings !! k = Some r)
            _ _ _ rows [] ms O errors st st1 I (Forall_nil_2 _) Hrun)).
  - done.
  - intros info st0 m st2 _
      (r & cls & ds & Hr & _ & _ & ->)%create_movie_Ok_inv.
    eexists _, r. split; [reflexivity | exact Hr].
  - done.
Qed.

End loaded.

Lemma sample_loaded :
  load_movies sample_rows Person.empty = (Some sample_movies, sample_registry).
Proof. vm_compute. reflexivity. Qed.

(** ** Dicts that count, and [sorted] *)

Section counting.

(** The keys of the dict are compared by [eqb], which is equality of a
    normal form [f]: the text itself for genre names, the lowercased name
    for persons. *)
Context {K K' A : Type} `{EqDecision K'} (f : K -> K') (eqb : K -> K -> bool)
  (g : A -> K).
Hypothesis eqb_spec : forall k k', eqb k k' = true <-> f k = f k'.

Implicit Types (d : list (K * Z)) (k : K) (v : Z) (items : list A).

Local Abbreviation step :=
  (fun d a => odict.set eqb d (g a) (default 0 (odict.get eqb d (g a)) + 1)).

Lemma odict_get_set d k v k' :
  odict.get eqb (odict.set eqb d k v) k' =
  if decide (f k = f k') then Some v else odict.get eqb d k'.
Proof.
  induction d as [|[k0 v0] d IH]; cbn.
  - destruct (eqb k k') eqn:E.
    + apply eqb_spec in E. by rewrite decide_True.
    + rewrite decide_False; [done|]. intros E'%eqb_spec. congruence.
  - destruct (eqb k0 k) eqn:E0; cbn.
    + apply eqb_spec in E0. destruct (eqb k0 k') eqn:E1.
      * apply eqb_spec in E1. rewrite decide_True; [done | congruence].
      * rewrite decide_False; [done|]. intros E'.
        assert (eqb k0 k' = true) by (apply eqb_spec; congruence). congruence.
    + rewrite IH. destruct (eqb k0 k') eqn:E1; [|done].
      apply eqb_spec in E1. rewrite decide_False; [done|]. intros E'.
      assert (eqb k0 k = true) by (apply eqb_spec; congruence). congruence.
Qed.

Lemma odict_get_None d k :
  odict.get eqb d k = None <-> f k ∉ f <$> d.*1.
Proof.
  induction d as [|[k0 v0] d IH]; cbn.
  - split; [intros _; apply not_elem_of_nil | done].
  - rewrite not_elem_of_cons, <- IH. destruct (eqb k0 k) eqn:E.
    + apply eqb_spec in E. split; [done | intros [? _]; congruence].
    + split; [|by intros [_ ?]]. intros ?. split; [|done].
      intros E'. assert (eqb k0 k = true) by (by apply eqb_spec). congruence.
Qed.

Lemma odict_set_keys d k v :
  (odict.set eqb d k v).*1 =
  if odict.get eqb d k is Some _ then d.*1 else d.*1 ++ [k].
Proof.
  induction d as [|[k0 v0] d IH]; cbn; [done|].
  destruct (eqb k0 k); cbn; [done|]. rewrite IH.
  by destruct (odict.get eqb d k).
Qed.

Lemma odict_set_NoDup d k v :
  NoDup (f <$> d.*1) -> NoDup (f <$> (odict.set eqb d k v).*1).
Proof.
  intros Hd. rewrite odict_set_keys.
  destruct (odict.get eqb d k) eqn:E; [done|].
  rewrite fmap_app. apply NoDup_app. split_and!; [done | | apply NoDup_singleton].
  intros x Hx [->|[]%elem_of_nil]%elem_of_cons. by apply odict_get_None in E.
Qed.

Lemma odict_elem_get d k v :
  NoDup (f <$> d.*1) -> (k, v) ∈ d -> odict.get eqb d k = Some v.
Proof.
  induction d as [|[k0 v0] d IH]; cbn; [by intros _ ?%elem_of_nil|].
  intros [Hk0 Hd]%NoDup_cons [[= -> ->] | Hin]%elem_of_cons.
  - by rewrite (proj2 (eqb_spec k0 k0)).
  - destruct (eqb k0 k) eqn:E; [|by apply IH].
    apply eqb_spec in E. destruct Hk0. rewrite E.
    apply list_elem_of_fmap_2. change k with (k, v).1.
    by apply list_elem_of_fmap_2.
Qed.

Lemma odict_get_elem d k v :
  odict.get eqb d k = Some v -> exists k0, (k0, v) ∈ d /\ f k0 = f k.
Proof.
  induction d as [|[k0 v0] d IH]; cbn; [done|].
  destruct (eqb k0 k) eqn:E.
  - intros [= ->]. exists k0. split; [by left | by apply eqb_spec].
  - intros (k1 & Hin & Hk1)%IH. exists k1. split; [by right | done].
Qed.

Lemma odict_set_sum d k v :
  foldr Z.add 0 (odict.set eqb d k v).*2 =
  foldr Z.add 0 d.*2 - default 0 (odict.get eqb d k) + v.
Proof.
  induction d as [|[k0 v0] d IH]; cbn; [lia|].
  destruct (eqb k0 k); cbn; [lia|]. rewrite IH. lia.
Qed.

(** The counting loop over [items], from a dict [d] on. *)
Lemma tally_get items d k' :
  odict.get eqb (fold_left step items d) k' =
  let n := Z.of_nat (length (filter (fun a => f (g a) = f k') items)) in
  if decide (n = 0) then odict.get eqb d k'
  else Some (default 0 (odict.get eqb d k') + n).
Proof.
  revert d. induction items as [|a items IH]; intros d; [done|].
  cbn [fold_left]. rewrite IH, odict_get_set, filter_cons. cbv zeta.
  destruct (decide (f (g a) = f k')) as [E|E].
  - assert (odict.get eqb d (g a) = odict.get eqb d k') as ->.
    { clear IH. induction d as [|[k0 v0] d IHd]; cbn; [done|].
      rewrite IHd. destruct (eqb k0 (g a)) eqn:E1, (eqb k0 k') eqn:E2;
        try done.
      - apply eqb_spec in E1.
        assert (eqb k0 k' = true) by (apply eqb_spec; congruence). congruence.
      - apply eqb_spec in E2.
        assert (eqb k0 (g a) = true) by (apply eqb_spec; congruence).
        congruence. }
    cbn [length default]. unfold id.
    repeat case_decide; try lia; f_equal; lia.
  - done.
Qed.

Lemma tally_NoDup items d :
  NoDup (f <$> d.*1) -> NoDup (f <$> (fold_left step items d).*1).
Proof.
  revert d. induction items as [|a items IH]; intros d Hd; [done|].
  cbn [fold_left]. by apply IH, odict_set_NoDup.
Qed.

Lemma tally_sum items d :
  foldr Z.add 0 (fold_left step items d).*2 =
  foldr Z.add 0 d.*2 + Z.of_nat (length items).
Proof.
  revert d. induction items as [|a items IH]; intros d; cbn [fold_left].
  - cbn. lia.
  - rewrite IH, odict_set_sum. cbn [length]. lia.
Qed.


End counting.

Section sorted_facts.

Context {A : Type} (lt : A -> A -> bool) (R : A -> A -> Prop).
Context `{!Transitive R}.
Hypothesis lt_R : forall x y, lt x y = true -> R x y.
Hypothesis not_lt_R : forall x y, lt x y = false -> R y x.

Lemma insort_perm (x : A) (l : list A) : insort lt x l ≡ₚ x :: l.
Proof.
  induction l as [|y l IH]; cbn; [done|].
  destruct (lt y x); [|done]. by rewrite IH, Permutation_swap.
Qed.

Lemma sorted_perm (l : list A) : sorted lt l ≡ₚ l.
Proof.
  induction l as [|x l IH]; cbn; [done|]. by rewrite insort_perm, IH.
Qed.

Lemma insort_sorted (x : A) (l : list A) :
  StronglySorted R l -> StronglySorted R (insort lt x l).
Proof.
  induction 1 as [|y l Hl IH Hy]; cbn.
  - repeat constructor.
  - destruct (lt y x) eqn:E.
    + constructor; [done|]. rewrite insort_perm. constructor; [|done].
      by apply lt_R.
    + constructor; [by constructor|]. constructor; [by apply not_lt_R|].
      eapply Forall_impl; [exact Hy|]. intros z Hz.
      trans y; [by apply not_lt_R | done].
Qed.

Lemma sorted_sorted (l : list A) : StronglySorted R (sorted lt l).
Proof.
  induction l as [|x l IH]; cbn; [constructor|]. by apply insort_sorted.
Qed.

End sorted_facts.

(** ** eval_02.py: films by genre *)

Section genre_report.

Lemma foldr_add_perm (l k : list Z) :
  l ≡ₚ k -> foldr Z.add 0 l = foldr Z.add 0 k.
Proof. induction 1; cbn; lia. Qed.

Lemma ltb_false_le (s t : string) : String.ltb s t = false <-> String.le t s.
Proof.
  unfold String.ltb, String.le, String.leb.
  rewrite (String.compare_antisym s t).
  destruct (String.compare t s); cbn; split; done.
Qed.

Lemma ltb_true_le (s t : string) : String.ltb s t = true -> String.le s t.
Proof.
  unfold String.ltb, String.le, String.leb.
  by destruct (String.compare s t).
Qed.

Lemma le_ne_ltb (s t : string) : String.le s t -> s <> t -> String.ltb s t = true.
Proof.
  unfold String.ltb, String.le, String.leb.
  destruct (String.compare s t) eqn:E; try done.
  apply String.compare_eq_iff in E. done.
Qed.

(** The order of the report, equal names allowed. *)
Let line_le (a b : string * Z) : Prop :=
  b.2 < a.2 \/ (b.2 = a.2 /\ String.le a.1 b.1).

Local Instance line_le_trans : Transitive line_le.
Proof.
  intros a b c [Hab | [Hab Hab']] [Hbc | [Hbc Hbc']]; unfold line_le.
  - left. lia.
  - left. lia.
  - left. lia.
  - right. split; [lia | by etrans].
Qed.

Lemma genre_key_lt_le (a b : string * Z) :
  genre_key_lt a b = true -> line_le a b.
Proof.
  unfold genre_key_lt, line_le.
  destruct (Z.eqb_spec (- a.2) (- b.2)).
  - intros ?%ltb_true_le. right. split; [lia | done].
  - intros ?%Z.ltb_lt. left. lia.
Qed.

Lemma genre_key_not_lt_le (a b : string * Z) :
  genre_key_lt a b = false -> line_le b a.
Proof.
  unfold genre_key_lt, line_le.
  destruct (Z.eqb_spec (- a.2) (- b.2)).
  - intros ?%ltb_false_le. right. split; [lia | done].
  - intros ?%Z.ltb_ge. left. lia.
Qed.

Lemma line_le_strict (l : list (string * Z)) :
  NoDup l.*1 -> StronglySorted line_le l ->
  StronglySorted
    (fun a b => b.2 < a.2 \/ (b.2 = a.2 /\ String.ltb a.1 b.1 = true)) l.
Proof.
  intros Hnd Hs. induction Hs as [|a l Hl IH Ha]; [constructor|].
  cbn in Hnd. apply NoDup_cons in Hnd as [Hnotin Hnd].
  constructor; [by apply IH|].
  apply Forall_forall. intros b Hb. rewrite Forall_forall in Ha.
  destruct (Ha b Hb) as [? | [? Hle]]; [by left|]. right. split; [done|].
  apply le_ne_ltb; [done|]. intros Heq. apply Hnotin. rewrite Heq.
  by apply list_elem_of_fmap_2.
Qed.

Lemma genre_counts_get (movies : list Movie.t) (g : string) :
  odict.get String.eqb (genre_counts movies) g =
  let n := Z.of_nat (length (filter (fun m => __name__ (Movie.__class__ m) = g)
                                    movies)) in
  if decide (n = 0) then None else Some n.
Proof.
  unfold genre_counts.
  rewrite (tally_get id String.eqb (fun m => __name__ (Movie.__class__ m))
             String.eqb_eq movies [] g).
  cbn. by destruct (decide _).
Qed.

Lemma genre_counts_NoDup (movies : list Movie.t) :
  NoDup (genre_counts movies).*1.
Proof.
  rewrite <- (list_fmap_id (genre_counts movies).*1).
  apply (tally_NoDup id String.eqb (fun m => __name__ (Movie.__class__ m))
           String.eqb_eq movies []).
  constructor.
Qed.

End genre_report.

(** X14. Menu option 2 prints one line for each genre that occurs among the
    movies and no other line; the number on it is the number of movies of
    that class, so the numbers add up to [len(movies)]; and the lines run
    from the most frequent genre to the least, genres with the same number
    in alphabetical order. *)
Theorem genre_counts_report (movies : list Movie.t) :
  let lines := menu_print_genre_counts movies in
  (forall (g : string) (n : Z),
      (g, n) ∈ lines <->
      n = Z.of_nat (length (filter (fun m => __name__ (Movie.__class__ m) = g)
                                   movies)) /\ 0 < n) /\
  NoDup lines.*1 /\
  foldr Z.add 0 lines.*2 = Z.of_nat (length movies) /\
  StronglySorted
    (fun a b => b.2 < a.2 \/ (b.2 = a.2 /\ String.ltb a.1 b.1 = true)) lines.
Proof.
  intros lines.
  assert (Hperm : lines ≡ₚ genre_counts movies) by apply sorted_perm.
  assert (Hnd : NoDup lines.*1).
  { rewrite Hperm. apply genre_counts_NoDup. }
  split_and!.
  - intros g n. rewrite Hperm. split.
    + intros Hin.
      apply (odict_elem_get id String.eqb String.eqb_eq) in Hin.
      2:{ rewrite list_fmap_id. apply genre_counts_NoDup. }
      rewrite genre_counts_get in Hin. cbv zeta in Hin.
      destruct (decide _); [done|]. injection Hin as <-. split; [done | lia].
    + intros [-> Hpos].
      pose proof (genre_counts_get movies g) as Hget. cbv zeta in Hget.
      rewrite decide_False in Hget by lia.
      apply (odict_get_elem id String.eqb String.eqb_eq) in Hget
        as (k0 & Hin & Hk0).
      unfold id in Hk0. by subst k0.
  - done.
  - rewrite (foldr_add_perm _ (genre_counts movies).*2) by by rewrite Hperm.
    unfold genre_counts.
    by rewrite (tally_sum String.eqb (fun m => __name__ (Movie.__class__ m))
                  movies []).
  - apply line_le_strict; [done|].
    apply sorted_sorted.
    + apply line_le_trans.
    + apply genre_key_lt_le.
    + apply genre_key_not_lt_le.
Qed.

(** ** eval_02.py: the highest score *)

(** X15. What menu option 4 reports, in full.  A score it prints is at least
    -1, is the relevant score of some movie and is not exceeded by any
    relevant score, and the titles are those of all movies with that
    relevant score, in the order of the collection.  It reports that there
    is no relevant score exactly when every relevant score is below -1, so
    for scores that are not negative, exactly when no movie has a relevant
    score. *)
Theorem highest_score_report (movies : list Movie.t) :
  match menu_print_highest_score_movies movies with
  | NoRelevantScore =>
      forall m s, m ∈ movies -> Movie.relevant_score m = (true, s) -> s < -1
  | Highest max_score titles =>
      -1 <= max_score /\
      (exists m, m ∈ movies /\ Movie.relevant_score m = (true, max_score)) /\
      (forall m s, m ∈ movies -> Movie.relevant_score m = (true, s) ->
                   s <= max_score) /\
      titles = Movie.title <$>
                 filter (fun m => Movie.relevant_score m = (true, max_score))
                        movies
  end.
Proof.
  destruct (menu_print_highest_score_movies movies) as [|mx titles] eqn:Hrep.
  - by apply highest_report_none.
  - split; [|by apply highest_report_sound].
    unfold menu_print_highest_score_movies in Hrep.
    destruct (fold_left highest_step movies (-1, [])) as [mx' best'] eqn:Hfold.
    apply highest_fold in Hfold as (Hmx & _).
    destruct best'; [done|]. by injection Hrep as <- _.
Qed.

(** ** eval_02.py: the most active director *)

Section director_report.







End director_report.


(** ** eval_02.py: the shortest and the longest film *)

Section length_report.

Lemma extreme_lt (items : list Z) (current : Z) :
  exists lo,
    extreme length_lt (Some current) (Some <$> items) = Ok (Some lo) /\
    lo ∈ current :: items /\ Forall (fun x => lo <= x) (current :: items).
Proof.
  revert current. induction items as [|x items IH]; intros current.
  - exists current. split_and!; [done | by left | by constructor].
  - cbn [fmap list_fmap extreme length_lt bind_result].
    destruct (Z.ltb_spec x current).
    + destruct (IH x) as (lo & -> & Hin & Hall).
      apply Forall_cons in Hall as [Hx Hall].
      exists lo. split_and!; [done | by right|].
      repeat (constructor; [lia|]). done.
    + destruct (IH current) as (lo & -> & Hin & Hall).
      apply Forall_cons in Hall as [Hx Hall].
      exists lo. split_and!; [done | |].
      * apply elem_of_cons in Hin as [-> | Hin]; [by left | by do 2 right].
      * repeat (constructor; [lia|]). done.
Qed.

Lemma extreme_gt (items : list Z) (current : Z) :
  exists hi,
    extreme length_gt (Some current) (Some <$> items) = Ok (Some hi) /\
    hi ∈ current :: items /\ Forall (fun x => x <= hi) (current :: items).
Proof.
  revert current. induction items as [|x items IH]; intros current.
  - exists current. split_and!; [done | by left | by constructor].
  - cbn [fmap list_fmap extreme length_gt bind_result].
    destruct (Z.gtb_spec x current).
    + destruct (IH x) as (hi & -> & Hin & Hall).
      apply Forall_cons in Hall as [Hx Hall].
      exists hi. split_and!; [done | by right|].
      repeat (constructor; [lia|]). done.
    + destruct (IH current) as (hi & -> & Hin & Hall).
      apply Forall_cons in Hall as [Hx Hall].
      exists hi. split_and!; [done | |].
      * apply elem_of_cons in Hin as [-> | Hin]; [by left | by do 2 right].
      * repeat (constructor; [lia|]). done.
Qed.

Lemma lengths_Some (movies : list Movie.t) :
  Forall (fun m => is_Some (Movie.length m)) movies ->
  exists ns, Movie.length <$> movies = Some <$> ns.
Proof.
  induction 1 as [|m movies [n Hn] _ (ns & IH)]; [by exists []|].
  exists (n :: ns). cbn. by rewrite Hn, IH.
Qed.

End length_report.

(** X17. On a collection that is not empty and whose records all have a
    length (as every constructed record has), menu option 6 does not raise:
    it prints the least and the greatest length of the collection, each with
    the titles of exactly the movies of that length, in the order of the
    collection; so neither list of titles is empty. *)
Theorem shortest_and_longest_report (movies : list Movie.t) :
  movies <> [] ->
  Forall (fun m => is_Some (Movie.length m)) movies ->
  exists lo hi,
    menu_print_shortest_and_longest movies =
    Ok (Extremes
          (Some lo)
          (Movie.title <$> filter (fun m => Movie.length m = Some lo) movies)
          (Some hi)
          (Movie.title <$> filter (fun m => Movie.length m = Some hi) movies)) /\
    (forall m, m ∈ movies ->
       exists n, Movie.length m = Some n /\ lo <= n <= hi) /\
    (exists m, m ∈ movies /\ Movie.length m = Some lo) /\
    (exists m, m ∈ movies /\ Movie.length m = Some hi).
Proof.
  intros Hne Hall. destruct (lengths_Some movies Hall) as (ns & Hns).
  destruct movies as [|first rest]; [done|]. clear Hne.
  destruct ns as [|n ns]; [done|]. rewrite !fmap_cons in Hns.
  injection Hns as Hn Hns.
  destruct (extreme_lt ns n) as (lo & Hlo & Hlo_in & Hlo_all).
  destruct (extreme_gt ns n) as (hi & Hhi & Hhi_in & Hhi_all).
  exists lo, hi. unfold menu_print_shortest_and_longest.
  rewrite Hn, Hns, Hlo, Hhi. cbn [bind_result].
  assert (Hlens : Movie.length <$> first :: rest = Some <$> n :: ns)
    by (cbn; by rewrite Hn, Hns).
  assert (Hmem : forall x, x ∈ n :: ns ->
            exists m, m ∈ first :: rest /\ Movie.length m = Some x).
  { intros x Hx.
    assert (Some x ∈ Movie.length <$> first :: rest) as Hin
      by (rewrite Hlens; by apply list_elem_of_fmap_2).
    apply list_elem_of_fmap in Hin as (m & Hm & Hin). by exists m. }
  split_and!; [done | | by apply Hmem | by apply Hmem].
  intros m Hm.
  assert (Movie.length m ∈ Some <$> n :: ns) as Hin
    by (rewrite <- Hlens; by apply list_elem_of_fmap_2).
  apply list_elem_of_fmap in Hin as (x & Hx & Hin). exists x. split; [done|].
  rewrite Forall_forall in Hlo_all, Hhi_all.
  split; [by apply Hlo_all | by apply Hhi_all].
Qed.

Lemma shortest_and_longest_report_witness :
  exists lo hi,
    menu_print_shortest_and_longest sample_movies =
    Ok (Extremes
          (Some lo)
          (Movie.title <$>
             filter (fun m => Movie.length m = Some lo) sample_movies)
          (Some hi)
          (Movie.title <$>
             filter (fun m => Movie.length m = Some hi) sample_movies)) /\
    (forall m, m ∈ sample_movies ->
       exists n, Movie.length m = Some n /\ lo <= n <= hi) /\
    (exists m, m ∈ sample_movies /\ Movie.length m = Some lo) /\
    (exists m, m ∈ sample_movies /\ Movie.length m = Some hi).
Proof.
  apply (shortest_and_longest_report sample_movies).
  - vm_compute. discriminate.
  - eapply Forall_impl; [exact (loaded_invariant _ _ _ _ sample_loaded)|].
    intros m (_ & _ & _ & n & Hn & _). by exists n.
Defined.

(** ** eval_02.py: the scary horror films *)

Section scary_report.

(** [is_scary] on a Horror record whose rating is one of the cache. *)
Lemma is_scary_registered (m : Movie.t) (k : string) (r : MovieRating.t) :
  Movie.__class__ m = Horror ->
  Movie.rating m = Some r ->
  MovieRating._instances ratings !! k = Some r ->
  Horror.is_scary m
  = Ok (bool_decide (MovieRating.code r ∈ ["PG-13"; "R"; "NC17"])).
Proof.
  intros Hc Hr Hk. unfold Horror.is_scary. rewrite decide_True by done.
  rewrite Hr. apply ratings_lookup in Hk.
  repeat (apply elem_of_cons in Hk as [[= -> ->] | Hk];
          [vm_compute; reflexivity|]).
  by apply elem_of_nil in Hk.
Qed.

Lemma scary_movies_registered (movies : list Movie.t) :
  Forall (fun m => exists k r, Movie.rating m = Some r /\
                     MovieRating._instances ratings !! k = Some r) movies ->
  scary_movies movies =
  Ok (filter (fun m =>
                Movie.__class__ m = Horror /\
                match Movie.rating m with
                | Some r => bool_decide (MovieRating.code r ∈ ["PG-13"; "R"; "NC17"])
                | None => false
                end = true) movies).
Proof.
  induction 1 as [|m movies (k & r & Hr & Hk) _ IH]; [done|].
  cbn [scary_movies]. rewrite IH, filter_cons. cbn [bind_result].
  destruct (decide (Movie.__class__ m = Horror)) as [Hc|Hc].
  - rewrite (is_scary_registered m k r Hc Hr Hk). cbn [bind_result].
    clear Hk IH. rewrite Hr. destruct (bool_decide _) eqn:E.
    + rewrite decide_True; [reflexivity | by split].
    + rewrite decide_False; [reflexivity|]. by intros [_ ?].
  - cbn [bind_result]. clear Hk IH.
    rewrite decide_False; [reflexivity|]. by intros [? _].
Qed.

End scary_report.

(** X18. On records whose rating is one of the six cached ratings (all
    records the factory builds), menu option 7 does not raise, and prints
    exactly the Horror records rated PG-13, R or NC17, in the order of the
    collection, each with its title and rating code; it reports that there
    are none exactly when there is no such record. *)
Theorem scary_horror_report (movies : list Movie.t) :
  Forall (fun m => exists k r, Movie.rating m = Some r /\
                     MovieRating._instances ratings !! k = Some r) movies ->
  let scary :=
    filter (fun m =>
              Movie.__class__ m = Horror /\
              match Movie.rating m with
              | Some r => bool_decide (MovieRating.code r ∈ ["PG-13"; "R"; "NC17"])
              | None => false
              end = true) movies in
  menu_print_scary_horror movies =
  Ok (match scary with
      | [] => NoScaryHorror
      | _ => ScaryHorror
               ((fun m => (Movie.title m,
                           default "" (MovieRating.code <$> Movie.rating m)))
                  <$> scary)
      end).
Proof.
  intros Hall scary. unfold menu_print_scary_horror.
  rewrite (scary_movies_registered movies Hall). fold scary.
  cbn [bind_result].
  assert (Hlines :
    map_result (fun movie => code <-- rating_code movie ;;
                             Ok (Movie.title movie, code)) scary
    = Ok ((fun m => (Movie.title m,
                     default "" (MovieRating.code <$> Movie.rating m)))
            <$> scary)).
  { assert (Forall (fun m => is_Some (Movie.rating m)) scary) as Hs.
    { apply Forall_forall. intros m [_ Hm]%list_elem_of_filter.
      rewrite Forall_forall in Hall.
      destruct (Hall m Hm) as (k & r & -> & _). by eexists. }
    induction Hs as [|m l [r Hr] _ IH]; [done|].
    cbn [map_result fmap list_fmap]. unfold rating_code at 1.
    rewrite Hr. cbn [bind_result]. rewrite IH. by cbn. }
  destruct scary; [done|]. by rewrite Hlines.
Qed.

Lemma scary_horror_report_witness :
  menu_print_scary_horror sample_movies =
  Ok (match
        filter (fun m =>
                  Movie.__class__ m = Horror /\
                  match Movie.rating m with
                  | Some r =>
                      bool_decide (MovieRating.code r ∈ ["PG-13"; "R"; "NC17"])
                  | None => false
                  end = true) sample_movies
      with
      | [] => NoScaryHorror
      | scary =>
          ScaryHorror
            ((fun m => (Movie.title m,
                        default "" (MovieRating.code <$> Movie.rating m)))
               <$> scary)
      end).
Proof.
  apply (scary_horror_report sample_movies).
  exact (loaded_ratings _ _ _ _ sample_loaded).
Defined.

(** ** eval_02.py: the rows of the export *)

(** X19. On records that satisfy the record invariant (all records the
    factory builds), building the export rows never fails: there is one row
    for each movie without a relevant score, every row has exactly the
    columns of the header, in the header's order, and its [runtime] is a
    number that is not negative. *)
Theorem export_rows_total (movies : list Movie.t) :
  Forall movie_invariant movies ->
  exists rows,
    export_rows movies = Ok rows /\
    length rows
    = length (filter (fun m => (Movie.relevant_score m).1 = false) movies) /\
    Forall (fun r : list (string * cell) =>
              r.*1 = fieldnames /\
              exists n, ("runtime", CInt n) ∈ r /\ 0 <= n) rows.
Proof.
  intros Hinv.
  assert (Hrows : forall l, Forall movie_invariant l ->
    exists rows, map_result export_row l = Ok rows /\
      length rows = length l /\
      Forall (fun r : list (string * cell) =>
                r.*1 = fieldnames /\
                exists n, ("runtime", CInt n) ∈ r /\ 0 <= n) rows).
  { induction 1 as [|m l (_ & _ & [r Hr] & n & Hn & Hpos) _ (rows & IH & Hlen & Hall)].
    - by exists [].
    - cbn [map_result]. unfold export_row at 1, rating_code.
      rewrite Hr, Hn. cbn [bind_result]. rewrite IH. cbn [bind_result].
      eexists. split; [done|]. split; [cbn; by rewrite Hlen|].
      constructor; [|done]. split; [done|].
      exists n. split; [|done]. do 7 right. by left. }
  unfold export_rows, menu_export_movies_without_relevant_score.
  assert (Forall movie_invariant
            (filter (fun m => (Movie.relevant_score m).1 = false) movies))
    as Hsel.
  { apply Forall_forall. intros m [_ Hm]%list_elem_of_filter.
    rewrite Forall_forall in Hinv. by apply Hinv. }
  destruct (filter (fun m => (Movie.relevant_score m).1 = false) movies)
    as [|m0 sel]; [by exists []|].
  destruct (Hrows (sort_by_title (m0 :: sel))) as (rows & Hrun & Hlen & Hall).
  { by rewrite sort_by_title_perm. }
  exists rows. split_and!; [done | | done].
  by rewrite Hlen, sort_by_title_perm.
Qed.

Lemma export_rows_total_witness :
  exists rows,
    export_rows sample_movies = Ok rows /\
    length rows
    = length (filter (fun m => (Movie.relevant_score m).1 = false)
                     sample_movies) /\
    Forall (fun r : list (string * cell) =>
              r.*1 = fieldnames /\
              exists n, ("runtime", CInt n) ∈ r /\ 0 <= n) rows.
Proof.
  apply (export_rows_total sample_movies).
  exact (loaded_invariant _ _ _ _ sample_loaded).
Defined.

(** ** The export read back *)

Section directors_round_trip.

Implicit Types (st : Person.class_state) (names : list string).

Lemma registry_clean_empty : registry_clean Person.empty.
Proof. intros k p. cbn. by rewrite lookup_empty. Qed.

Lemma registry_clean_keys_ok st : registry_clean st -> person_keys_ok st.
Proof.
  intros Hc k p Hp. destruct (Hc k p Hp) as (-> & _ & Hs & _). by rewrite Hs.
Qed.

(** [get_person] on a name without comma keeps the registry clean and
    returns a person with a clean name, registered under it. *)
Lemma get_person_clean (n : string) st :
  str.contains "," n = false -> str.strip n <> "" ->
  registry_clean st ->
  exists p st',
    get_person (Some n) st = (Ok p, st') /\
    registry_clean st' /\
    clean_name (Person.fullname p) /\
    Person._instances st' !! str.lower (Person.fullname p) = Some p /\
    (forall k q, Person._instances st !! k = Some q ->
                 Person._instances st' !! k = Some q).
Proof.
  intros Hcomma Hne Hc.
  destruct (Person._instances st !! str.lower (str.strip n)) as [p|] eqn:Hp.
  - exists p, st. rewrite (get_person_hit n st p Hne Hp).
    destruct (Hc _ _ Hp) as [Hk Hclean].
    split_and!; try done. by rewrite <- Hk.
  - rewrite (get_person_miss n st Hne Hp).
    eexists _, _. split; [done|].
    assert (clean_name (str.strip n)) as Hclean.
    { split_and!; [done | apply strip_idem | by apply contains_strip]. }
    split_and!.
    + intros k q. cbn [Person._instances].
      destruct (decide (k = str.lower (str.strip n))) as [->|Hk].
      * rewrite lookup_insert_eq. by intros [= <-].
      * rewrite lookup_insert_ne by done. apply Hc.
    + done.
    + cbn [Person._instances Person.fullname]. by rewrite lookup_insert_eq.
    + intros k q Hq. cbn [Person._instances].
      rewrite lookup_insert_ne; [done|]. intros <-. congruence.
Qed.

Lemma mapM_get_person_clean names st :
  Forall (fun n => str.contains "," n = false /\ str.strip n <> "") names ->
  registry_clean st ->
  exists ps st',
    mapM (fun name => get_person (Some name)) names st = (Ok ps, st') /\
    registry_clean st' /\
    Forall (fun p => clean_name (Person.fullname p) /\
                     Person._instances st'
                       !! str.lower (Person.fullname p) = Some p) ps /\
    (forall k q, Person._instances st !! k = Some q ->
                 Person._instances st' !! k = Some q).
Proof.
  intros Hnames. revert st.
  induction Hnames as [|n names [Hcomma Hne] _ IH]; intros st Hc.
  - exists [], st. by split_and!.
  - destruct (get_person_clean n st Hcomma Hne Hc)
      as (p & st1 & Hp & Hc1 & Hclean & Hreg & Hkeep1).
    destruct (IH st1 Hc1) as (ps & st2 & Hps & Hc2 & Hall & Hkeep2).
    exists (p :: ps), st2. cbn [mapM]. rewrite bind_run, Hp, bind_run, Hps.
    split_and!; [done | done | | by auto].
    constructor; [|done]. split; [done | by apply Hkeep2].
Qed.

Lemma director_parts_clean (text : string) :
  Forall (fun n => str.contains "," n = false /\ str.strip n <> "")
         (filter (fun name => str.truthy name = true)
                 (str.strip <$> str.split "," text)).
Proof.
  apply Forall_forall. intros n [Hn Hin]%list_elem_of_filter.
  apply list_elem_of_fmap in Hin as (piece & -> & Hpiece).
  pose proof (split_pieces "," text) as Hall. rewrite Forall_forall in Hall.
  split.
  - by apply contains_strip, Hall.
  - rewrite strip_idem. by apply truthy_true.
Qed.

Lemma _parse_directors_clean (value : option string) st ps st' :
  registry_clean st ->
  _parse_directors value st = (Ok ps, st') ->
  registry_clean st' /\
  Forall (fun p => clean_name (Person.fullname p) /\
                   Person._instances st'
                     !! str.lower (Person.fullname p) = Some p) ps.
Proof.
  intros Hc. destruct value as [value|]; [|by intros [= <- <-]].
  unfold _parse_directors.
  destruct (str.truthy (str.strip value)); [|by intros [= <- <-]].
  cbn [negb]. intros Hrun.
  destruct (mapM_get_person_clean _ st (director_parts_clean (str.strip value)) Hc)
    as (ps' & st'' & Hrun' & Hc' & Hall & _).
  rewrite Hrun in Hrun'. by injection Hrun' as <- <-.
Qed.

(** The text of [", ".join] over clean names is trimmed. *)
Lemma join_clean names :
  Forall clean_name names -> names <> [] ->
  str.join ", " names <> "" /\
  str.lstrip (str.join ", " names) = str.join ", " names /\
  str.rstrip (str.join ", " names) = str.join ", " names.
Proof.
  induction 1 as [|n names (Hne & Hs & _) Hall IH]; [done|]. intros _.
  destruct names as [|n' names].
  - cbn [str.join]. split_and!;
      [done | by apply stripped_lstrip | by apply stripped_rstrip].
  - destruct IH as (IH1 & IH2 & IH3); [done|].
    change (str.join ", " (n :: n' :: names))
      with (n +:+ ", " +:+ str.join ", " (n' :: names)).
    set (rest := str.join ", " (n' :: names)) in *.
    destruct n as [|c n]; [done|]. split_and!.
    + done.
    + rewrite lstrip_app; [by rewrite (stripped_lstrip _ Hs)|].
      by rewrite (stripped_lstrip _ Hs).
    + assert (str.rstrip (", " +:+ rest) = ", " +:+ rest) as Hr.
      { rewrite rstrip_app; [by rewrite IH3 | by rewrite IH3]. }
      rewrite rstrip_app; [by rewrite Hr | by rewrite Hr].
Qed.

Lemma split_blank_cons (s : string) :
  str.strip <$> str.split "," (String " " s) = str.strip <$> str.split "," s.
Proof.
  cbn [str.split]. change (Ascii.eqb " " ",") with false. cbv iota.
  destruct (str.split "," s) as [|p ps] eqn:E.
  - by destruct s; cbn in E; repeat case_match.
  - by rewrite !fmap_cons, strip_blank_cons.
Qed.

Lemma split_join_clean names :
  Forall clean_name names -> names <> [] ->
  str.strip <$> str.split "," (str.join ", " names) = names.
Proof.
  induction 1 as [|n names (Hne & Hs & Hcomma) Hall IH]; [done|]. intros _.
  destruct names as [|n' names].
  - cbn [str.join]. by rewrite split_no_sep, fmap_cons, Hs.
  - change (str.join ", " (n :: n' :: names))
      with (n +:+ String "," (String " " (str.join ", " (n' :: names)))).
    rewrite split_app by done.
    rewrite fmap_cons, Hs, split_blank_cons, IH; done.
Qed.

Lemma mapM_get_person_hits (ps : list Person.t) st :
  Forall (fun p => clean_name (Person.fullname p) /\
                   Person._instances st
                     !! str.lower (Person.fullname p) = Some p) ps ->
  mapM (fun name => get_person (Some name)) (Person.fullname <$> ps) st
  = (Ok ps, st).
Proof.
  induction 1 as [|p ps [(Hne & Hs & _) Hreg] _ IH]; [done|].
  cbn [fmap list_fmap mapM]. rewrite bind_run.
  rewrite (get_person_hit (Person.fullname p) st p);
    [|by rewrite Hs|by rewrite Hs].
  by rewrite bind_run, IH.
Qed.

Lemma filter_all {A} (P : A -> Prop) `{!forall x, Decision (P x)}
    (l : list A) :
  Forall P l -> filter P l = l.
Proof.
  induction 1 as [|x l Hx _ IH]; [done|].
  by rewrite filter_cons, decide_True, IH.
Qed.

(** Reading back the text written for clean, registered directors. *)
Lemma _parse_directors_join (ps : list Person.t) st :
  Forall (fun p => clean_name (Person.fullname p) /\
                   Person._instances st
                     !! str.lower (Person.fullname p) = Some p) ps ->
  _parse_directors (Some (str.join ", " (Person.fullname <$> ps))) st
  = (Ok ps, st).
Proof.
  intros Hall. destruct ps as [|p ps]; [done|].
  assert (Forall clean_name (Person.fullname <$> p :: ps)) as Hnames.
  { apply Forall_fmap. eapply Forall_impl; [exact Hall|]. by intros q [? _]. }
  destruct (join_clean _ Hnames) as (Hne & Hl & Hr); [done|].
  unfold _parse_directors, str.strip. rewrite Hl, Hr.
  apply truthy_true in Hne. rewrite Hne. cbn [negb].
  fold (str.strip). rewrite split_join_clean; [|done|done].
  rewrite filter_all.
  - by apply mapM_get_person_hits.
  - eapply Forall_impl; [exact Hnames|]. intros n (Hn & _). by apply truthy_true.
Qed.

End directors_round_trip.

Section clean_loading.

Lemma create_movie_clean (info : row) (st : Person.class_state) :
  registry_clean st -> registry_clean (create_movie info st).2.
Proof.
  intros Hc. destruct (create_movie_registry info st) as [-> | ->]; [done|].
  destruct (_parse_directors_total (dict_get_default info "directors" "") st)
    as (ps & st1 & Hrun & _).
  rewrite Hrun. by eapply _parse_directors_clean.
Qed.

Lemma load_rows_clean (rows : list row) (movies' : list Movie.t)
    (errors' : nat) (st st' : Person.class_state) :
  registry_clean st ->
  load_rows rows [] O st = (Ok (movies', errors'), st') ->
  registry_clean st' /\
  Forall (fun m =>
            Forall (fun p => clean_name (Person.fullname p) /\
                             Person._instances st'
                               !! str.lower (Person.fullname p) = Some p)
                   (Movie.directors m)) movies'.
Proof.
  intros Hc.
  apply (load_rows_inv registry_clean
           (fun st m =>
              Forall (fun p => clean_name (Person.fullname p) /\
                               Person._instances st
                                 !! str.lower (Person.fullname p) = Some p)
                     (Movie.directors m)));
    [| | |done|constructor].
  - apply create_movie_clean.
  - intros info st0 m st1 Hst Hm%create_movie_directors.
    by eapply _parse_directors_clean.
  - intros info st0 m Hst Hm. eapply Forall_impl; [exact Hm|].
    intros d [Hd1 Hd2]. split; [done | by apply create_movie_keeps].
Qed.

End clean_loading.

(** X20. After loading into a fresh registry (or any registry of trimmed,
    comma-free names), the text menu option 9 writes in the [directors]
    column of a movie reads back, through [_parse_directors], as the same
    persons in the same order, the very objects the movie holds, and the
    registry is not changed by it. *)
Theorem exported_directors_read_back (rows : list row)
    (st st' : Person.class_state) (movies : list Movie.t) :
  registry_clean st ->
  load_movies rows st = (Some movies, st') ->
  registry_clean st' /\
  forall m, m ∈ movies ->
    _parse_directors (Some (directors_text m)) st'
    = (Ok (Movie.directors m), st').
Proof.
  intros Hc. unfold load_movies.
  destruct (load_rows rows [] O st) as [[[ms errors]|e] st1] eqn:Hrun;
    [|done].
  intros [= <- <-].
  destruct (load_rows_clean rows ms errors st st1 Hc Hrun) as [Hc' Hall].
  split; [done|]. intros m Hm. rewrite Forall_forall in Hall.
  unfold directors_text. by apply _parse_directors_join, Hall.
Qed.

Lemma exported_directors_read_back_witness :
  registry_clean sample_registry /\
  forall m, m ∈ sample_movies ->
    _parse_directors (Some (directors_text m)) sample_registry
    = (Ok (Movie.directors m), sample_registry).
Proof.
  apply (exported_directors_read_back sample_rows Person.empty).
  - apply registry_clean_empty.
  - vm_compute. reflexivity.
Defined.

(** ** Dates read back *)

Section dates.

(** Linear arithmetic with division and remainder by constants. *)
Ltac div_lia := Z.to_euclidean_division_equations; lia.

Lemma digit_digit_char (k : Z) :
  0 <= k <= 9 -> str.digit (date.digit_char k) = Some k.
Proof.
  intros Hk.
  assert (k = 0 \/ k = 1 \/ k = 2 \/ k = 3 \/ k = 4 \/ k = 5 \/ k = 6 \/
          k = 7 \/ k = 8 \/ k = 9) as Hcases by lia.
  repeat (destruct Hcases as [-> | Hcases]; [reflexivity|]).
  by subst k.
Qed.

Lemma digit_char_digit (c : ascii) (k : Z) :
  str.digit c = Some k -> c = date.digit_char k /\ 0 <= k <= 9.
Proof.
  destruct c as [[] [] [] [] [] [] [] []]; intros Hk; vm_compute in Hk;
    try discriminate Hk; injection Hk as <-; split; (reflexivity || lia).
Qed.

Lemma isspace_digit_char (k : Z) :
  0 <= k <= 9 -> str.isspace (date.digit_char k) = false.
Proof.
  intros Hk.
  assert (k = 0 \/ k = 1 \/ k = 2 \/ k = 3 \/ k = 4 \/ k = 5 \/ k = 6 \/
          k = 7 \/ k = 8 \/ k = 9) as Hcases by lia.
  repeat (destruct Hcases as [-> | Hcases]; [reflexivity|]).
  by subst k.
Qed.

Lemma days_in_month_bound (y m : Z) : 28 <= date.days_in_month y m <= 31.
Proof.
  unfold date.days_in_month. repeat case_match; lia.
Qed.

Lemma parse_isoformat (d : date.t) :
  1 <= date.year d <= 9999 -> 1 <= date.month d <= 12 ->
  1 <= date.day d <= date.days_in_month (date.year d) (date.month d) ->
  date.parse (date.isoformat d) = Some d.
Proof.
  destruct d as [y m dd]. cbn [date.year date.month date.day].
  intros Hy Hm Hd. pose proof (days_in_month_bound y m) as Hdim.
  unfold date.isoformat, date.parse.
  cbn [date.year date.month date.day].
  rewrite !digit_digit_char by div_lia.
  cbn [mbind option_bind].
  replace (1000 * (y / 1000 mod 10) + 100 * (y / 100 mod 10)
           + 10 * (y / 10 mod 10) + y mod 10) with y by div_lia.
  replace (10 * (m / 10 mod 10) + m mod 10) with m by div_lia.
  replace (10 * (dd / 10 mod 10) + dd mod 10) with dd by div_lia.
  replace ((1 <=? y) && (1 <=? m) && (m <=? 12) && (1 <=? dd)
           && (dd <=? date.days_in_month y m)) with true; [done|].
  symmetry. repeat (apply andb_true_intro; split); lia.
Qed.

Lemma isoformat_parse (s : string) (d : date.t) :
  date.parse s = Some d ->
  date.isoformat d = s /\
  1 <= date.year d <= 9999 /\ 1 <= date.month d <= 12 /\
  1 <= date.day d <= date.days_in_month (date.year d) (date.month d).
Proof.
  unfold date.parse. intros Hs.
  do 10 (let c := fresh "c" in
         destruct s as [|c s]; [repeat case_match; discriminate Hs|]).
  destruct s; [|repeat case_match; discriminate Hs].
  unfold mbind, option_bind in Hs.
  repeat case_match; try discriminate Hs; subst.
  repeat match goal with
         | H : str.digit _ = Some _ |- _ =>
             apply digit_char_digit in H as [-> ?]
         end.
  injection Hs as <-.
  repeat match goal with
         | H : _ && _ = true |- _ => apply andb_prop in H as [H ?]
         end.
  cbn [date.year date.month date.day]. split; [|lia].
  unfold date.isoformat. cbn [date.year date.month date.day].
  repeat f_equal; div_lia.
Qed.

End dates.

Section dates_trimmed.

Lemma rstrip_cons_eq (c : ascii) (s : string) :
  s <> "" -> str.rstrip s = s -> str.rstrip (String c s) = String c s.
Proof.
  intros Hne Hs. cbn [str.rstrip]. rewrite Hs.
  destruct s; [done|]. cbn [str.truthy negb]. by rewrite andb_false_r.
Qed.

Lemma strip_isoformat (d : date.t) :
  0 <= date.year d -> 0 <= date.day d ->
  str.strip (date.isoformat d) = date.isoformat d.
Proof.
  intros Hy Hd.
  assert (str.isspace (date.digit_char (date.year d / 1000 mod 10)) = false)
    as H1 by (apply isspace_digit_char; Z.to_euclidean_division_equations; lia).
  assert (str.isspace (date.digit_char (date.day d mod 10)) = false)
    as H2 by (apply isspace_digit_char; Z.to_euclidean_division_equations; lia).
  unfold str.strip, date.isoformat. rewrite lstrip_nonspace by done.
  do 9 (apply rstrip_cons_eq; [done|]).
  cbn [str.rstrip]. by rewrite H2.
Qed.

End dates_trimmed.

(** X21. A date survives the export: the text [isoformat] writes for a
    valid date (year 1 to 9999) is read back by [_parse_date] as that date,
    and every date the loader has read is such a date. *)
Theorem isoformat_round_trip :
  (forall d : date.t,
      1 <= date.year d <= 9999 -> 1 <= date.month d <= 12 ->
      1 <= date.day d <= date.days_in_month (date.year d) (date.month d) ->
      _parse_date (Some (date.isoformat d)) = Ok (Some d)) /\
  (forall (value : option string) (d : date.t),
      _parse_date value = Ok (Some d) ->
      (1 <= date.year d <= 9999 /\ 1 <= date.month d <= 12 /\
       1 <= date.day d <= date.days_in_month (date.year d) (date.month d)) /\
      _parse_date (Some (date.isoformat d)) = Ok (Some d)).
Proof.
  assert (Hback : forall d : date.t,
    1 <= date.year d <= 9999 -> 1 <= date.month d <= 12 ->
    1 <= date.day d <= date.days_in_month (date.year d) (date.month d) ->
    _parse_date (Some (date.isoformat d)) = Ok (Some d)).
  { intros d Hy Hm Hd. rewrite _parse_date_eq. cbn [mbind option_bind].
    rewrite strip_isoformat by lia. by rewrite parse_isoformat. }
  split; [done|].
  intros value d. rewrite _parse_date_eq. intros [= Hd].
  destruct value as [text|]; [|done]. cbn [mbind option_bind] in Hd.
  apply isoformat_parse in Hd as (Hiso & Hy & Hm & Hdd).
  split; [done|]. by apply Hback.
Qed.

(** X22. The [genre] column does not survive the export for two classes.
    The export writes the class name; read back, [Comedy], [Drama],
    [Horror], [Romance] and [Western] give the same class, but
    [ActionAdventure] and [ScienceFictionFantasy] are not keys of
    [_GENRE_TO_CLASS], so [create_movie] rejects every such row with a
    [ValueError]. *)
Theorem exported_genre_read_back :
  (forall c : genre_class,
      _GENRE_TO_CLASS !! str.upper (str.strip (__name__ c)) =
      if decide (c = ActionAdventure \/ c = ScienceFictionFantasy)
      then None else Some c) /\
  (forall (info : row) (st : Person.class_state) (c : genre_class),
      dict_get info "genre" = Some (__name__ c) ->
      c = ActionAdventure \/ c = ScienceFictionFantasy ->
      exists msg st', create_movie info st = (Raise (ValueError msg), st')) /\
  (forall (info : row) (st st' : Person.class_state) (c : genre_class)
          (m : Movie.t),
      dict_get info "genre" = Some (__name__ c) ->
      create_movie info st = (Ok m, st') ->
      Movie.__class__ m = c).
Proof.
  assert (Hkeys : forall c : genre_class,
      _GENRE_TO_CLASS !! str.upper (str.strip (__name__ c)) =
      if decide (c = ActionAdventure \/ c = ScienceFictionFantasy)
      then None else Some c).
  { intros c. destruct c; vm_compute; reflexivity. }
  split_and!; [done | |].
  - intros info st c Hg Hc.
    destruct (create_movie info st) as [[m|e] st'] eqn:Hm.
    + apply create_movie_Ok_inv in Hm as (r & cls & ds & _ & Hcls & _).
      rewrite Hg in Hcls. cbn [or_empty] in Hcls. rewrite Hkeys in Hcls.
      by rewrite decide_True in Hcls.
    + destruct (create_movie_raises info st e st' Hm) as [msg ->].
      by exists msg, st'.
  - intros info st st' c m Hg
      (r & cls & ds & _ & Hcls & _ & ->)%create_movie_Ok_inv.
    rewrite Hg in Hcls. cbn [or_empty] in Hcls. rewrite Hkeys in Hcls.
    cbn [Movie.__class__]. destruct (decide _); congruence.
Qed.

(** ** eval_02.py: the menu choice *)

(** X23. [get_menu_choice] returns the number of the first line typed that
    reads, trimmed, as an integer from 1 to 10, and it has asked again for
    every line before it; it never returns a number outside 1 to 10.  The
    only way out without a choice is the end of the input, which happens
    exactly when no line is valid. *)
Theorem get_menu_choice_spec (inputs : list string) :
  let valid (line : string) :=
    exists c, str.int_value (str.strip line) = Some c /\ 1 <= c <= 10 in
  (exists skipped line rest c,
      inputs = skipped ++ line :: rest /\
      Forall (fun l => ~ valid l) skipped /\
      str.int_value (str.strip line) = Some c /\ 1 <= c <= 10 /\
      get_menu_choice inputs = Ok (Chosen c rest)) \/
  (Forall (fun l => ~ valid l) inputs /\
   get_menu_choice inputs = Ok EndOfInput).
Proof.
  intros valid. induction inputs as [|line inputs IH].
  - right. by split.
  - cbn [get_menu_choice]. unfold str.int.
    destruct (str.int_value (str.strip line)) as [c|] eqn:Hc;
      cbn [except_ValueError bind_result].
    + destruct ((1 <=? c) && (c <=? 10)) eqn:Hrange.
      * left. exists [], line, inputs, c.
        apply andb_prop in Hrange as [?%Z.leb_le ?%Z.leb_le].
        split_and!; try done; lia.
      * assert (~ valid line) as Hinvalid.
        { intros (c' & Hc' & Hr). rewrite Hc in Hc'. injection Hc' as <-.
          apply andb_false_iff in Hrange as [?%Z.leb_gt | ?%Z.leb_gt]; lia. }
        destruct IH as [(skipped & l & rest & c' & -> & Hsk & Hl & Hr & Hrun)
                       | [Hall Hrun]].
        -- left. exists (line :: skipped), l, rest, c'.
           split_and!; try done; try lia. by constructor.
        -- right. split; [by constructor | done].
    + assert (~ valid line) as Hinvalid.
      { intros (c' & Hc' & Hr). rewrite Hc in Hc'. discriminate Hc'. }
      destruct IH as [(skipped & l & rest & c' & -> & Hsk & Hl & Hr & Hrun)
                     | [Hall Hrun]].
      * left. exists (line :: skipped), l, rest, c'.
        split_and!; try done; try lia. by constructor.
      * right. split; [by constructor | done].
Qed.
